(** * Recipe-extraction service: job store, pipeline and cooking chat

    A shallow embedding of the stateful core of the FastAPI application:

    - [app/routers/chat.py]: the in-memory session table, step completion,
      the chat turn handler and its provider retry loop;
    - [app/routers/analyze.py]: the [JobManager] (an [OrderedDict] of job
      dictionaries with expiry and capacity eviction) and the background
      pipeline [process_video].

    Python dictionaries are finite maps ([gmap]); the [OrderedDict] of jobs
    is an association list in insertion order; integers are [Z]; code that
    can raise returns a [result].  External collaborators (the chat
    completion endpoint, the downloader, the transcriber, the recipe
    parser, the clock, the file system) are inputs of the functions that
    call them. *)

From stdpp Require Import gmap strings list fin_maps pretty sorting.
From Stdlib Require Import PrimFloat.

#[local] Set Warnings "-register-all".
#[local] Open Scope Z_scope.

(** ** Results of code that may raise *)

Module Py.

Inductive result (E A : Type) : Type :=
| Ok (a : A)
| Raise (e : E).
Arguments Ok {E A} a.
Arguments Raise {E A} e.

Definition bind {E A B} (r : result E A) (k : A -> result E B) : result E B :=
  match r with
  | Ok a => k a
  | Raise e => Raise e
  end.

Definition is_ok {E A} (r : result E A) : bool :=
  match r with Ok _ => true | Raise _ => false end.

#[global] Instance result_ret {E} : MRet (result E) := fun A a => Ok a.
#[global] Instance result_bind {E} : MBind (result E) := fun A B k r => bind r k.

(** [range(n)] for a Python [int] [n]: empty when [n <= 0]. *)
Definition range (n : Z) : list Z := Z.of_nat <$> seq 0 (Z.to_nat n).

(** [l[-n:]] for [n > 0]: the last [n] elements, the whole list when it is
    shorter. *)
Definition last_n {A} (n : nat) (l : list A) : list A :=
  drop (length l - n)%nat l.

(** [l[i]] for a Python [int] [i]: a negative index counts from the end,
    an index out of range raises [IndexError] ([None] here). *)
Definition getitem {A} (l : list A) (i : Z) : option A :=
  if bool_decide (0 <= i) then l !! Z.to_nat i
  else if bool_decide (0 <= Z.of_nat (length l) + i)
       then l !! Z.to_nat (Z.of_nat (length l) + i)
       else None.

(** [s[:n]] on a string. A character of the model stands for one Python
    character. *)
Definition str_prefix (n : nat) (s : string) : string := String.substring 0 n s.

End Py.

(** ** Cooking chat sessions ([app/routers/chat.py]) *)

Module Chat.
Import Py.

(** Constants of the module. *)
Definition MAX_HISTORY_MESSAGES : nat := 6.
Definition MAX_IMAGE_SIZE_MB : Z := 10.
Definition MAX_IMAGE_SIZE_BYTES : Z := MAX_IMAGE_SIZE_MB * 1024 * 1024.
Definition SESSION_EXPIRY_SECONDS : Z := 3600.
Definition API_MAX_RETRIES : Z := 2.

(** What a handler can raise: FastAPI's [HTTPException], or an exception
    that no handler of the module catches. *)
Inductive exn :=
| HTTPException (status_code : Z) (detail : string)
| Uncaught (cls : string).

(** The recipe snapshot, a JSON object read with [.get(key, default)]:
    a missing key is [None]. *)
Record Step := mkStep {
  instruction : option string;
  tips : option string;
  duration : option string;
  timestamp : option Z
}.

Record Recipe := mkRecipe {
  title : option string;
  difficulty : option string;
  recipe_steps : option (list Step);
  recipe_ingredients : option (list string)
}.

(** Message content sent to the completion endpoint: plain text, or the
    multimodal list built by [_build_user_content]. *)
Inductive content_part :=
| ImageUrl (url : string)
| Text (text : string).

Inductive content :=
| CStr (s : string)
| CParts (parts : list content_part).

Record api_message := mkMsg { role : string; msg_content : content }.

(** An entry of [chat_history]; the assistant entries carry no
    [has_image] key. *)
Record history_entry := mkEntry {
  h_role : string;
  h_content : content;
  h_step_number : Z;
  h_has_image : option bool
}.

(** One value of the [cooking_sessions] table. [created_at] holds
    [time.time()] readings, taken here in whole seconds. *)
Record Session := mkSession {
  recipe : Recipe;
  current_step : Z;
  total_steps : Z;
  steps : list Step;
  completed_steps : list Z;
  chat_history : list history_entry;
  ingredients : list string;
  created_at : Z
}.

Definition set_current_step (n : Z) (s : Session) : Session :=
  mkSession (recipe s) n (total_steps s) (steps s) (completed_steps s)
            (chat_history s) (ingredients s) (created_at s).

Definition set_completed_steps (l : list Z) (s : Session) : Session :=
  mkSession (recipe s) (current_step s) (total_steps s) (steps s) l
            (chat_history s) (ingredients s) (created_at s).

Definition set_chat_history (h : list history_entry) (s : Session) : Session :=
  mkSession (recipe s) (current_step s) (total_steps s) (steps s)
            (completed_steps s) h (ingredients s) (created_at s).

Definition set_created_at (t : Z) (s : Session) : Session :=
  mkSession (recipe s) (current_step s) (total_steps s) (steps s)
            (completed_steps s) (chat_history s) (ingredients s) t.

(** The module-level table [cooking_sessions]. *)
Abbreviation sessions := (gmap string Session).

(** Request and response schemas ([app/schemas/chat.py]). *)
Record StartSessionRequest := mkStartReq {
  start_session_id : string;
  start_recipe : Recipe
}.

Record StartSessionResponse := mkStartResp {
  resp_session_id : string;
  resp_message : string;
  resp_total_steps : Z
}.

Record ChatRequest := mkChatReq {
  session_id : string;
  step_number : Z;
  message : string;
  image_base64 : option string
}.

Record StepInfo := mkStepInfo {
  si_step_number : Z;
  si_instruction : string;
  si_tips : string;
  si_is_completed : bool
}.

Record SessionStatusInfo := mkStatusInfo {
  st_current_step : Z;
  st_completed_steps : list Z;
  st_progress_percent : Z
}.

Record ChatResponse := mkChatResp {
  reply : string;
  step_info : StepInfo;
  session_status : SessionStatusInfo
}.

Record StepDetail := mkStepDetail {
  sd_step_number : Z;
  sd_instruction : string;
  sd_tips : string;
  sd_duration : string;
  sd_timestamp : Z;
  sd_is_completed : bool;
  sd_is_current : bool
}.

Record CompleteStepResponse := mkCompleteResp {
  cs_message : string;
  next_step : Z;
  is_finished : bool
}.

(** An exception raised in the [try] suite of [_call_chat_api], classified
    by the first [except] clause that catches it. *)
Inductive api_exn_class :=
| RateLimitError
| APIConnectionError
| APIError
| OtherException.

(** Library functions and resources the module uses but does not define:
    the prompt template [assistant.txt] with its [str.format], the base64
    decoder (which raises [binascii.Error] on malformed input), the float
    arithmetic of [int((completed / total) * 100)], and what the statement
    [raise APIError(msg, response=None, body=None)] raises: the [APIError]
    when the constructor of the installed [openai] package takes these
    arguments, the exception of the failed call otherwise. *)
Class Env := {
  format_assistant_prompt :
    string -> Z -> string -> string -> string -> Z -> string;
  b64decode : string -> option (list Byte.byte);
  b64encode : list Byte.byte -> string;
  float_percent : Z -> Z -> Z;
  no_choices_error : api_exn_class * string
}.

(** The completion endpoint, seen from one call of [_call_chat_api]: what
    [client.chat.completions.create] does on the attempt of a given index
    with the given messages. *)

Inductive api_outcome :=
| Response (choices : list (option string))
| Fails (cls : api_exn_class) (msg : string).

Definition provider := Z -> list api_message -> api_outcome.

(** *** Helpers *)

Definition _get_session (cooking_sessions : sessions) (sid : string)
  : result exn Session :=
  match cooking_sessions !! sid with
  | None => Raise (HTTPException 404 "세션을 찾을 수 없습니다.")
  | Some s => Ok s
  end.

Definition _validate_step_number (step_number total_steps : Z)
  : result exn unit :=
  if bool_decide (step_number < 1 \/ step_number > total_steps)
  then Raise (HTTPException 400 "잘못된 단계 번호입니다.")
  else Ok tt.

Definition _build_system_prompt `{Env} (recipe : Recipe) (step : Step)
    (step_number total_steps : Z) : string :=
  format_assistant_prompt
    (default "요리" (title recipe))
    step_number
    (default "" (instruction step))
    (default "없음" (tips step))
    (default "보통" (difficulty recipe))
    total_steps.

(** A present but empty [image_base64] is falsy. *)
Definition truthy (o : option string) : bool :=
  match o with
  | Some s => negb (bool_decide (s = ""%string))
  | None => false
  end.

Definition step_text (step_number : Z) (message : string) : string :=
  ("[Step " ++ pretty step_number ++ " 진행 중] " ++ message)%string.

Definition _build_user_content (message : string) (step_number : Z)
    (image_base64 : option string) : list content_part :=
  (if truthy image_base64
   then [ImageUrl ("data:image/jpeg;base64," ++ default "" image_base64)%string]
   else [])
  ++ [Text (step_text step_number message)].

Definition _calculate_progress `{Env} (completed total : Z) : Z :=
  if bool_decide (total <= 0) then 0 else float_percent completed total.

Definition _validate_image_size (image_bytes : list Byte.byte) : result exn unit :=
  if bool_decide (Z.of_nat (length image_bytes) > MAX_IMAGE_SIZE_BYTES)
  then Raise (HTTPException 400
         ("이미지 크기가 너무 큽니다. 최대 " ++ pretty MAX_IMAGE_SIZE_MB
          ++ "MB까지 허용됩니다.")%string)
  else Ok tt.

Definition _cleanup_expired_sessions (current_time : Z)
    (cooking_sessions : sessions) : sessions :=
  filter (fun kv => ~ (current_time - created_at kv.2 > SESSION_EXPIRY_SECONDS))
         cooking_sessions.

(** *** The retry loop of [_call_chat_api]

    The loop state is [last_error] and the log of requests sent so far.
    An iteration returns the reply, breaks out of the loop, executes
    [continue], or reaches the end of the loop body. *)
Inductive iteration :=
| Return (reply : string)
| Break (last_error : string)
| Continue (last_error : string)
| EndOfBody (last_error : string).

(** The [try] suite of one iteration: the reply it returns, or the
    exception it leaves to the [except] clauses. *)
Inductive attempt_result :=
| Replied (content : string)
| Raised (cls : api_exn_class) (msg : string).

Definition attempt `{Env} (create : provider) (messages : list api_message)
    (index : Z) : attempt_result :=
  match create index messages with
  | Response [] => Raised no_choices_error.1 no_choices_error.2
  | Response (c :: _) => Replied (default ""%string c)
  | Fails cls msg => Raised cls msg
  end.

Definition continue_if_retries_left (max_retries index : Z)
    (last_error : string) : iteration :=
  if bool_decide (index < max_retries)
  then Continue last_error
  else EndOfBody last_error.

(** The [except] clauses, in their order. *)
Definition attempt_once `{Env} (create : provider)
    (messages : list api_message) (max_retries index : Z) : iteration :=
  match attempt create messages index with
  | Replied r => Return r
  | Raised RateLimitError msg => Break msg
  | Raised APIConnectionError msg =>
      continue_if_retries_left max_retries index msg
  | Raised APIError msg =>
      continue_if_retries_left max_retries index msg
  | Raised OtherException msg => Break msg
  end.

Fixpoint retry_loop `{Env} (create : provider) (messages : list api_message)
    (max_retries : Z) (attempts : list Z) (last_error : option string)
    (log : list (list api_message))
  : (string + option string) * list (list api_message) :=
  match attempts with
  | [] => (inr last_error, log)
  | index :: rest =>
      match attempt_once create messages max_retries index with
      | Return r => (inl r, log ++ [messages])
      | Break e => (inr (Some e), log ++ [messages])
      | Continue e | EndOfBody e =>
          (* after [continue] or at the end of the body the [for] loop
             takes the next element of the range, if any *)
          retry_loop create messages max_retries rest (Some e)
                     (log ++ [messages])
      end
  end.

(** The [HTTPException] raised once the loop is left without a reply. *)
Definition turn_failure (last_error : option string) : exn :=
  let error_msg :=
    match last_error with
    | Some e => str_prefix 100 e
    | None => "알 수 없는 오류"%string
    end in
  HTTPException 500 ("AI 응답 생성 실패: " ++ error_msg)%string.

(** Returns the reply or the [HTTPException], and the requests sent. *)
Definition _call_chat_api `{Env} (create : provider)
    (messages : list api_message) (max_retries : Z)
  : result exn string * list (list api_message) :=
  match retry_loop create messages max_retries
                   (range (max_retries + 1)) None [] with
  | (inl r, log) => (Ok r, log)
  | (inr last_error, log) => (Raise (turn_failure last_error), log)
  end.

(** Reading the loop: the results after which another attempt is made
    (when one is left), the error text a result leaves in [last_error],
    and what the call returns when a result ends the loop. *)
Definition retriable (r : attempt_result) : bool :=
  match r with
  | Raised APIConnectionError _ => true
  | Raised APIError _ => true
  | _ => false
  end.

Definition error_text (r : attempt_result) : string :=
  match r with
  | Replied _ => ""
  | Raised _ msg => msg
  end.

Definition final_result (r : attempt_result) : result exn string :=
  match r with
  | Replied content => Ok content
  | Raised _ msg => Raise (turn_failure (Some msg))
  end.

(** *** Session management *)

Definition start_cooking_session (now : Z) (new_id : string)
    (request : StartSessionRequest) (cooking_sessions : sessions)
  : StartSessionResponse * sessions :=
  let cooking_sessions := _cleanup_expired_sessions now cooking_sessions in
  let recipe := start_recipe request in
  let steps := default [] (recipe_steps recipe) in
  let session :=
    mkSession recipe 1 (Z.of_nat (length steps)) steps [] []
              (default [] (recipe_ingredients recipe)) now in
  (mkStartResp new_id
     ("'" ++ default "요리" (title recipe) ++ "' 세션이 시작되었습니다!")%string
     (Z.of_nat (length steps)),
   <[new_id := session]> cooking_sessions).

Definition get_step_detail (sid : string) (step_number : Z)
    (cooking_sessions : sessions) : result exn StepDetail :=
  session ← _get_session cooking_sessions sid;
  let steps := steps session in
  _validate_step_number step_number (Z.of_nat (length steps));;
  match getitem steps (step_number - 1) with
  | None => Raise (Uncaught "IndexError")
  | Some step =>
      Ok (mkStepDetail step_number
            (default ""%string (instruction step))
            (default ""%string (tips step))
            (default ""%string (duration step))
            (default 0 (timestamp step))
            (bool_decide (step_number ∈ completed_steps session))
            (bool_decide (step_number = current_step session)))
  end.

(** [complete_step]: the session dictionary is mutated in place, so the
    table entry is replaced by the updated session. *)
Definition complete_step_session (step_number : Z) (session : Session)
  : Session :=
  let session :=
    if bool_decide (step_number ∈ completed_steps session)
    then session
    else set_completed_steps (completed_steps session ++ [step_number]) session in
  if bool_decide (step_number < total_steps session)
  then set_current_step (step_number + 1) session
  else session.

Definition complete_step (sid : string) (step_number : Z)
    (cooking_sessions : sessions)
  : result exn CompleteStepResponse * sessions :=
  match _get_session cooking_sessions sid with
  | Raise e => (Raise e, cooking_sessions)
  | Ok session =>
      let session := complete_step_session step_number session in
      let is_finished :=
        bool_decide (Z.of_nat (length (completed_steps session))
                     = total_steps session) in
      (Ok (mkCompleteResp ("Step " ++ pretty step_number ++ " 완료!")%string
                          (current_step session) is_finished),
       <[sid := session]> cooking_sessions)
  end.

(** *** The chat turn *)

(** The image check that opens [send_message]. *)
Definition check_image `{Env} (image_base64 : option string)
  : result exn unit :=
  if truthy image_base64 then
    match b64decode (default ""%string image_base64) with
    | None => Raise (Uncaught "binascii.Error")
    | Some image_bytes => _validate_image_size image_bytes
    end
  else Ok tt.

(** The request sent to the endpoint: the system prompt, the last
    [MAX_HISTORY_MESSAGES] history entries, and the new user turn. *)
Definition turn_messages `{Env} (session : Session) (step : Step)
    (request : ChatRequest) : list api_message :=
  let system_prompt :=
    _build_system_prompt (recipe session) step (step_number request)
                         (Z.of_nat (length (steps session))) in
  [mkMsg "system" (CStr system_prompt)]
  ++ ((fun msg => mkMsg (h_role msg) (h_content msg))
        <$> last_n MAX_HISTORY_MESSAGES (chat_history session))
  ++ [mkMsg "user"
        (CParts (_build_user_content (message request) (step_number request)
                                     (image_base64 request)))].

Definition user_entry (request : ChatRequest) : history_entry :=
  if truthy (image_base64 request)
  then mkEntry "user"
         (CParts (_build_user_content (message request) (step_number request)
                                      (image_base64 request)))
         (step_number request) (Some true)
  else mkEntry "user"
         (CStr (step_text (step_number request) (message request)))
         (step_number request) (Some false).

Definition assistant_entry (reply : string) (step_number : Z) : history_entry :=
  mkEntry "assistant" (CStr reply) step_number None.

(** What a successful turn does to the session: two appends to
    [chat_history], then [current_step] and [created_at]. *)
Definition commit_turn (now : Z) (request : ChatRequest) (reply : string)
    (session : Session) : Session :=
  let session :=
    set_chat_history (chat_history session ++ [user_entry request]) session in
  let session :=
    set_chat_history
      (chat_history session ++ [assistant_entry reply (step_number request)])
      session in
  let session := set_current_step (step_number request) session in
  set_created_at now session.

(** [send_message]: the outcome, the table afterwards, and the requests
    sent to the completion endpoint. [now] is the [time.time()] reading
    taken after the reply. *)
Definition send_message `{Env} (create : provider) (now : Z)
    (request : ChatRequest) (cooking_sessions : sessions)
  : result exn ChatResponse * sessions * list (list api_message) :=
  match check_image (image_base64 request) with
  | Raise e => (Raise e, cooking_sessions, [])
  | Ok _ =>
  match _get_session cooking_sessions (session_id request) with
  | Raise e => (Raise e, cooking_sessions, [])
  | Ok session =>
  let steps := steps session in
  let step_number := step_number request in
  match _validate_step_number step_number (Z.of_nat (length steps)) with
  | Raise e => (Raise e, cooking_sessions, [])
  | Ok _ =>
  match getitem steps (step_number - 1) with
  | None => (Raise (Uncaught "IndexError"), cooking_sessions, [])
  | Some step =>
  match _call_chat_api create (turn_messages session step request)
                       API_MAX_RETRIES with
  | (Raise e, log) => (Raise e, cooking_sessions, log)
  | (Ok reply, log) =>
      let session := commit_turn now request reply session in
      let completed := Z.of_nat (length (completed_steps session)) in
      let total := total_steps session in
      (Ok (mkChatResp reply
             (mkStepInfo step_number
                (default ""%string (instruction step))
                (default ""%string (tips step))
                (bool_decide (step_number ∈ completed_steps session)))
             (mkStatusInfo (current_step session) (completed_steps session)
                (_calculate_progress completed total))),
       <[session_id request := session]> cooking_sessions,
       log)
  end end end end end.

(** [send_message_with_image]: the multipart variant. An uploaded file
    object is always truthy, whatever its size. *)
Definition send_message_with_image `{Env} (create : provider) (now : Z)
    (sid : string) (step_number : Z) (message : string)
    (image : option (list Byte.byte)) (cooking_sessions : sessions)
  : result exn ChatResponse * sessions * list (list api_message) :=
  match image with
  | Some contents =>
      match _validate_image_size contents with
      | Raise e => (Raise e, cooking_sessions, [])
      | Ok _ =>
          send_message create now
            (mkChatReq sid step_number message (Some (b64encode contents)))
            cooking_sessions
      end
  | None =>
      send_message create now (mkChatReq sid step_number message None)
                   cooking_sessions
  end.

(** *** The session invariant of the data model *)

Definition step_in_range (session : Session) (n : Z) : Prop :=
  1 <= n <= total_steps session.

Definition session_invariant (session : Session) : Prop :=
  step_in_range session (current_step session)
  /\ Forall (step_in_range session) (completed_steps session).

#[global] Instance step_in_range_dec session n :
  Decision (step_in_range session n).
Proof. unfold step_in_range. apply _. Defined.

#[global] Instance session_invariant_dec session :
  Decision (session_invariant session).
Proof. unfold session_invariant. apply _. Defined.

(** *** Sample data *)

Definition sample_step : Step :=
  mkStep (Some "Chop the onions"%string) None None None.

Definition sample_recipe (n : nat) : Recipe :=
  mkRecipe (Some "Stew"%string) (Some "easy"%string)
           (Some (replicate n sample_step)) None.

(** The table after one session [s1] was started on a recipe of [n]
    steps. *)
Definition started (n : nat) : sessions :=
  (start_cooking_session 0 "s1" (mkStartReq "" (sample_recipe n)) ∅).2.

(** A 15 MB image, and an environment whose decoder yields it. *)
Definition image_15mb : list Byte.byte :=
  replicate (N.to_nat 15728640) Byte.x00.

Definition sample_env (image : list Byte.byte) : Env := {|
  format_assistant_prompt :=
    fun title _ instruction _ _ _ => (title ++ ": " ++ instruction)%string;
  b64decode := fun _ => Some image;
  b64encode := fun _ => "AAAA"%string;
  float_percent := fun completed total => completed * 100 `div` total;
  no_choices_error :=
    (OtherException,
     "APIError.__init__() got an unexpected keyword argument 'response'"%string)
|}.

Definition plain_env : Env := sample_env [].

(** *** Sample providers *)

(** One generic API error, then a reply. *)
Definition flaky_api : provider :=
  fun attempt _ =>
    if bool_decide (attempt = 0)
    then Fails APIError "Internal server error"
    else Response [Some "hi"%string].

Definition rate_limited_api : provider :=
  fun _ _ => Fails RateLimitError "Rate limit reached".

Definition unreachable_api : provider :=
  fun _ _ => Fails APIConnectionError "Connection error.".

Definition echo_api (text : string) : provider :=
  fun _ _ => Response [Some text].

(** *** The other session handlers *)

Record SessionStatus := mkSessionStatus {
  ss_session_id : string;
  ss_recipe_title : string;
  ss_current_step : Z;
  ss_total_steps : Z;
  ss_completed_steps : list Z;
  ss_progress_percent : Z
}.

Definition get_session_status `{Env} (sid : string)
    (cooking_sessions : sessions) : result exn SessionStatus :=
  session ← _get_session cooking_sessions sid;
  let completed := Z.of_nat (length (completed_steps session)) in
  let total := total_steps session in
  Ok (mkSessionStatus sid (default "요리"%string (title (recipe session)))
        (current_step session) total (completed_steps session)
        (_calculate_progress completed total)).

Record ChatHistoryResponse := mkHistoryResp {
  hist_session_id : string;
  hist_recipe_title : string;
  hist_messages : list history_entry
}.

Definition get_chat_history (sid : string) (cooking_sessions : sessions)
  : result exn ChatHistoryResponse :=
  session ← _get_session cooking_sessions sid;
  Ok (mkHistoryResp sid (default ""%string (title (recipe session)))
        (chat_history session)).

Record SessionSummary := mkSummary {
  sum_recipe : string;
  sum_completed_steps : Z;
  sum_total_steps : Z;
  sum_total_messages : Z
}.

(** [end_session]: the session is fetched, then popped from the table;
    the summary is read from the fetched session. *)
Definition end_session (sid : string) (cooking_sessions : sessions)
  : result exn SessionSummary * sessions :=
  match _get_session cooking_sessions sid with
  | Raise e => (Raise e, cooking_sessions)
  | Ok session =>
      (Ok (mkSummary (default ""%string (title (recipe session)))
             (Z.of_nat (length (completed_steps session)))
             (total_steps session)
             (Z.of_nat (length (chat_history session)))),
       delete sid cooking_sessions)
  end.

(** The handlers that write the table, as operations on it. *)
Inductive chat_op :=
| OpStart (now : Z) (new_id : string) (request : StartSessionRequest)
| OpComplete (sid : string) (step_number : Z)
| OpSend (create : provider) (now : Z) (request : ChatRequest)
| OpEnd (sid : string).

Definition run_chat_op `{Env} (cooking_sessions : sessions) (op : chat_op)
  : sessions :=
  match op with
  | OpStart now new_id request =>
      (start_cooking_session now new_id request cooking_sessions).2
  | OpComplete sid n => (complete_step sid n cooking_sessions).2
  | OpSend create now request =>
      (send_message create now request cooking_sessions).1.2
  | OpEnd sid => (end_session sid cooking_sessions).2
  end.

(** The session still holds the snapshot it was created from. *)
Definition snapshot_ok (session : Session) : Prop :=
  steps session = default [] (recipe_steps (recipe session))
  /\ ingredients session = default [] (recipe_ingredients (recipe session))
  /\ total_steps session = Z.of_nat (length (steps session)).

(** A history made of turns: a user entry followed by the assistant entry
    of the same step, the step being one of the recipe's [n] steps. *)
Inductive history_ok (n : Z) : list history_entry -> Prop :=
| history_ok_nil : history_ok n []
| history_ok_turn h u a :
    history_ok n h ->
    h_role u = "user"%string ->
    h_role a = "assistant"%string ->
    h_step_number a = h_step_number u ->
    1 <= h_step_number u <= n ->
    is_Some (h_has_image u) ->
    h_has_image a = None ->
    history_ok n (h ++ [u; a]).

Definition session_good (session : Session) : Prop :=
  snapshot_ok session
  /\ NoDup (completed_steps session)
  /\ history_ok (total_steps session) (chat_history session).

End Chat.

(** ** Job store and pipeline ([app/routers/analyze.py]) *)

Module Analyze.
Import Py.

Definition MIN_TRANSCRIPT_LENGTH : Z := 20.

(** Python values held in job dictionaries and returned by the providers.
    A [datetime] is a count of microseconds. *)
Inductive value :=
| VNone
| VInt (n : Z)
| VFloat (x : float)
| VStr (s : string)
| VDatetime (microseconds : Z)
| VList (items : list value)
| VDict (d : gmap string value).

(** A job record is a dictionary with string keys. *)
Abbreviation job := (gmap string value).

(** Exception classes: the builtins the code can meet and those of
    [app/exceptions.py], with their base class. *)
Inductive exn_class :=
| BaseException
| CancelledError
| Exception
| StopIteration
| KeyError
| TypeError
| AttributeError
| OSError
| RecipeAnalysisError
| YouTubeDownloadError
| SubtitleError
| TranscriptionError
| AudioFileError
| RecipeParseError.

#[global] Instance exn_class_eq_dec : EqDecision exn_class.
Proof. solve_decision. Defined.

Definition base (c : exn_class) : option exn_class :=
  match c with
  | BaseException => None
  | CancelledError | Exception => Some BaseException
  | StopIteration | KeyError | TypeError | AttributeError | OSError
  | RecipeAnalysisError => Some Exception
  | YouTubeDownloadError | SubtitleError | TranscriptionError
  | RecipeParseError => Some RecipeAnalysisError
  | AudioFileError => Some TranscriptionError
  end.

Fixpoint issubclass_upto (depth : nat) (c d : exn_class) : bool :=
  if decide (c = d) then true
  else match depth, base c with
       | S depth, Some b => issubclass_upto depth b d
       | _, _ => false
       end.

Definition issubclass : exn_class -> exn_class -> bool := issubclass_upto 4.

(** An exception object: its class and [str(e)]. *)
Record exn := mkExn { cls : exn_class; text : string }.

(** What the module imports but does not define: the configuration
    ([app/config.py]), the clocks, [round(x, 2)] on floats, the file
    system call of [process_video], and the three providers. The clocks
    are given by their successive readings. *)
Class Env := {
  DATA_DIR : string;
  MAX_JOBS : Z;
  JOB_EXPIRE_HOURS : Z;
  datetime_now : nat -> Z;
  time_time : nat -> float;
  round2 : float -> float;
  mkdir_exist_ok : string -> result exn unit;
  download_video : string -> string -> result exn value;
  transcribe_audio : value -> result exn value;
  parse_recipe : value -> result exn value
}.

(** *** [OrderedDict]: an association list in insertion order *)

Section OrderedDict.
Context {V : Type}.

Fixpoint od_get (k : string) (d : list (string * V)) : option V :=
  match d with
  | [] => None
  | (k', v) :: rest => if decide (k = k') then Some v else od_get k rest
  end.

(** [d[k] = v]: an existing key keeps its position, a new key goes last. *)
Fixpoint od_set (k : string) (v : V) (d : list (string * V))
  : list (string * V) :=
  match d with
  | [] => [(k, v)]
  | (k', v') :: rest =>
      if decide (k = k') then (k, v) :: rest else (k', v') :: od_set k v rest
  end.

(** [del d[k]] on a dictionary that has the key. *)
Fixpoint od_del (k : string) (d : list (string * V)) : list (string * V) :=
  match d with
  | [] => []
  | (k', v') :: rest =>
      if decide (k = k') then rest else (k', v') :: od_del k rest
  end.

Definition od_mem (k : string) (d : list (string * V)) : bool :=
  bool_decide (k ∈ d.*1).

End OrderedDict.

(** *** [JobManager] *)

Record JobManager := mkJobManager {
  _jobs : list (string * job);
  _max_jobs : Z;
  _expire_hours : Z
}.

Definition set_jobs (jobs : list (string * job)) (jm : JobManager)
  : JobManager :=
  mkJobManager jobs (_max_jobs jm) (_expire_hours jm).

(** [JobManager()] with the default arguments. *)
Definition new_manager `{Env} : JobManager :=
  mkJobManager [] MAX_JOBS JOB_EXPIRE_HOURS.

(** Effects on the working directories, in the order they happen. *)
Inductive event :=
| CleanupJobFiles (job_id : string)
| DeleteJob (job_id : string).

Definition new_job (job_id url video_id : string) (created updated : Z)
  : job :=
  list_to_map
    [("job_id", VStr job_id); ("status", VStr "pending");
     ("progress", VInt 0); ("message", VStr "대기 중...");
     ("url", VStr url); ("video_id", VStr video_id); ("result", VNone);
     ("created_at", VDatetime created); ("updated_at", VDatetime updated)]%string.

(** [timedelta(hours=h)] in microseconds. *)
Definition timedelta_hours (h : Z) : Z := h * 3600000000.

(** [job.get("created_at", datetime.now()) < expire_threshold]; comparing
    a [datetime] with anything else raises [TypeError]. *)
Definition is_expired (now expire_threshold : Z) (j : job) : result exn bool :=
  match j !! "created_at"%string with
  | None => Ok (bool_decide (now < expire_threshold))
  | Some (VDatetime t) => Ok (bool_decide (t < expire_threshold))
  | Some _ =>
      Raise (mkExn TypeError "'<' not supported between instances")
  end.

Fixpoint expired_jobs (now expire_threshold : Z) (items : list (string * job))
  : result exn (list string) :=
  match items with
  | [] => Ok []
  | (job_id, j) :: rest =>
      b ← is_expired now expire_threshold j;
      ids ← expired_jobs now expire_threshold rest;
      Ok (if b : bool then job_id :: ids else ids)
  end.

(** The [for] loop over the expired ids. *)
Fixpoint delete_expired (ids : list string) (jobs : list (string * job))
  : result exn (list (string * job) * list event) :=
  match ids with
  | [] => Ok (jobs, [])
  | job_id :: rest =>
      if od_mem job_id jobs then
        '(jobs', events) ← delete_expired rest (od_del job_id jobs);
        Ok (jobs', CleanupJobFiles job_id :: DeleteJob job_id :: events)
      else Raise (mkExn KeyError job_id)
  end.

(** The [while] loop: as long as there are more than [max_jobs] records,
    the first key of the dictionary goes. [next(iter(d))] on an empty
    dictionary raises [StopIteration]. *)
Fixpoint evict_over_capacity (max_jobs : Z) (jobs : list (string * job))
  : result exn (list (string * job) * list event) :=
  if bool_decide (Z.of_nat (length jobs) > max_jobs) then
    match jobs with
    | [] => Raise (mkExn StopIteration "")
    | (oldest_job_id, _) :: rest =>
        '(jobs', events) ← evict_over_capacity max_jobs rest;
        Ok (jobs',
            CleanupJobFiles oldest_job_id :: DeleteJob oldest_job_id :: events)
    end
  else Ok (jobs, []).

Definition _cleanup_old_jobs (now : Z) (jm : JobManager)
  : result exn (JobManager * list event) :=
  let expire_threshold := now - timedelta_hours (_expire_hours jm) in
  ids ← expired_jobs now expire_threshold (_jobs jm);
  '(jobs, events1) ← delete_expired ids (_jobs jm);
  '(jobs, events2) ← evict_over_capacity (_max_jobs jm) jobs;
  Ok (set_jobs jobs jm, events1 ++ events2).

(** [create_job], with the three clock readings it takes: for
    [created_at], for [updated_at], and in the sweep. *)
Definition create_job (created updated now : Z) (job_id url video_id : string)
    (jm : JobManager) : result exn (job * JobManager * list event) :=
  let j := new_job job_id url video_id created updated in
  let jm := set_jobs (od_set job_id j (_jobs jm)) jm in
  '(jm, events) ← _cleanup_old_jobs now jm;
  Ok (j, jm, events).

Definition get_job (job_id : string) (jm : JobManager) : option job :=
  od_get job_id (_jobs jm).

(** [update_job(job_id, **kwargs)]; [self._jobs[job_id]] raises
    [KeyError] on a missing key. *)
Definition update_job (now : Z) (job_id : string) (kwargs : job)
    (jm : JobManager) : result exn JobManager :=
  if od_mem job_id (_jobs jm) then
    match od_get job_id (_jobs jm) with
    | None => Raise (mkExn KeyError job_id)
    | Some j =>
        let j := kwargs ∪ j in
        let j := <["updated_at"%string := VDatetime now]> j in
        Ok (set_jobs (od_set job_id j (_jobs jm)) jm)
    end
  else Ok jm.

Definition delete_job (job_id : string) (jm : JobManager)
  : bool * JobManager :=
  if od_mem job_id (_jobs jm)
  then (true, set_jobs (od_del job_id (_jobs jm)) jm)
  else (false, jm).

(** *** Reading the job table *)

(** The creation time of a record, when it holds a [datetime]. *)
Definition created_at_of (j : job) : option Z :=
  match j !! "created_at"%string with
  | Some (VDatetime t) => Some t
  | _ => None
  end.

Definition created_key (item : string * job) : Z :=
  default 0 (created_at_of item.2).

(** [a] was created no later than [b]. *)
Definition older (a b : string * job) : Prop := created_key a <= created_key b.

(** The record is within the expiry window of a sweep: its creation time
    is not before [expire_threshold]. *)
Definition within_window (expire_threshold : Z) (item : string * job) : bool :=
  match created_at_of item.2 with
  | Some t => bool_decide (expire_threshold <= t)
  | None => false
  end.

(** The effects of removing the records of the given ids, one after the
    other: the files first, then the table entry. *)
Definition removal_events (ids : list string) : list event :=
  ids ≫= fun job_id => [CleanupJobFiles job_id; DeleteJob job_id].

(** A call of [create_job] with its clock readings. *)
Record create_call := mkCall {
  call_job_id : string;
  call_url : string;
  call_video_id : string;
  call_created : Z;
  call_updated : Z;
  call_now : Z
}.

Definition create_job_call (c : create_call) (jm : JobManager)
  : result exn (job * JobManager * list event) :=
  create_job (call_created c) (call_updated c) (call_now c)
             (call_job_id c) (call_url c) (call_video_id c) jm.

Fixpoint run_creates (calls : list create_call) (jm : JobManager)
  : result exn JobManager :=
  match calls with
  | [] => Ok jm
  | c :: rest =>
      '(_, jm', _) ← create_job_call c jm;
      run_creates rest jm'
  end.



(** A table built by such calls: its keys are among [ids] and distinct,
    every record carries a creation time among [readings], and the
    records are in creation order. *)
Record table_ok (ids : list string) (readings : list Z)
    (jobs : list (string * job)) : Prop := mkTableOk {
  ok_keys : forall k, k ∈ jobs.*1 -> k ∈ ids;
  ok_nodup : NoDup jobs.*1;
  ok_created :
    Forall (fun item => exists t, created_at_of item.2 = Some t
                                  /\ t ∈ readings) jobs;
  ok_sorted : StronglySorted older jobs
}.

(** Operations that are neither [create_job] nor [delete_job]. *)
Inductive table_op :=
| OpGet (job_id : string)
| OpUpdate (now : Z) (job_id : string) (kwargs : job).

Definition run_op (jm : JobManager) (op : table_op) : JobManager :=
  match op with
  | OpGet _ => jm
  | OpUpdate now job_id kwargs =>
      match update_job now job_id kwargs jm with
      | Ok jm' => jm'
      | Raise _ => jm
      end
  end.

(** *** The pipeline

    The state the background task runs in: the global [job_manager], the
    number of readings taken from each clock, and the calls of
    [job_manager.update_job] made so far with their keyword arguments. An
    exception leaves the state as it was when it was raised. *)
Record world := mkWorld {
  job_manager : JobManager;
  datetime_reads : nat;
  time_reads : nat;
  update_calls : list (string * job)
}.

Definition M (A : Type) : Type := world -> result exn A * world.

#[global] Instance M_ret : MRet M := fun A a w => (Ok a, w).
#[global] Instance M_bind : MBind M :=
  fun A B k m w =>
    match m w with
    | (Ok a, w') => k a w'
    | (Raise e, w') => (Raise e, w')
    end.

Definition lift {A} (r : result exn A) : M A := fun w => (r, w).

Definition raise {A} (e : exn) : M A := fun w => (Raise e, w).

(** [time.time()] *)
Definition time_time_now `{Env} : M float :=
  fun w =>
    (Ok (time_time (time_reads w)),
     mkWorld (job_manager w) (datetime_reads w) (S (time_reads w))
             (update_calls w)).

(** [job_manager.update_job(job_id, **kwargs)]; the clock is read only
    when the record is there. *)
Definition job_manager_update_job `{Env} (job_id : string) (kwargs : job)
  : M unit :=
  fun w =>
    let now := datetime_now (datetime_reads w) in
    let reads :=
      if od_mem job_id (_jobs (job_manager w))
      then S (datetime_reads w) else datetime_reads w in
    let calls := update_calls w ++ [(job_id, kwargs)] in
    match update_job now job_id kwargs (job_manager w) with
    | Ok jm => (Ok tt, mkWorld jm reads (time_reads w) calls)
    | Raise e => (Raise e, mkWorld (job_manager w) reads (time_reads w) calls)
    end.

(** [try: r except c as e: raise Exception(f"{prefix}{e}")] *)
Definition reraise_as_exception {A} (c : exn_class) (prefix : string)
    (r : result exn A) : result exn A :=
  match r with
  | Ok a => Ok a
  | Raise e =>
      if issubclass (cls e) c
      then Raise (mkExn Exception (prefix ++ text e))
      else Raise e
  end.

(** [try: body except Exception as e: handler(e)] *)
Definition try_except_Exception {A} (body : M A) (handler : exn -> M A)
  : M A :=
  fun w =>
    match body w with
    | (Ok a, w') => (Ok a, w')
    | (Raise e, w') =>
        if issubclass (cls e) Exception then handler e w' else (Raise e, w')
    end.

(** [v[key]] for a string key. *)
Definition subscript (v : value) (key : string) : result exn value :=
  match v with
  | VDict d =>
      match d !! key with
      | Some x => Ok x
      | None => Raise (mkExn KeyError ("'" ++ key ++ "'"))
      end
  | _ => Raise (mkExn TypeError "object is not subscriptable")
  end.

(** Truth value of a Python object. *)
Definition truthy (v : value) : bool :=
  match v with
  | VNone => false
  | VInt n => negb (bool_decide (n = 0))
  | VFloat x => negb (PrimFloat.eqb x 0%float)
  | VStr s => negb (bool_decide (s = ""%string))
  | VDatetime _ => true
  | VList items => negb (bool_decide (length items = 0%nat))
  | VDict d => negb (bool_decide (size d = 0%nat))
  end.

(** [len(v)] *)
Definition len (v : value) : result exn Z :=
  match v with
  | VStr s => Ok (Z.of_nat (String.length s))
  | VList items => Ok (Z.of_nat (length items))
  | VDict d => Ok (Z.of_nat (size d))
  | _ => Raise (mkExn TypeError "object has no len()")
  end.

Definition _is_valid_transcript (transcript : value) : result exn bool :=
  if negb (truthy transcript) then Ok false
  else
    full_text ←
      match transcript with
      | VDict d => Ok (default (VStr "") (d !! "full_text"%string))
      | _ => Raise (mkExn AttributeError "object has no attribute 'get'")
      end;
    n ← len full_text;
    Ok (bool_decide (n >= MIN_TRANSCRIPT_LENGTH)).

Definition job_dir_of `{Env} (job_id : string) : string :=
  (DATA_DIR ++ "/" ++ job_id)%string.

Definition _step_download `{Env} (job_id url job_dir : string) : M value :=
  job_manager_update_job job_id
    (list_to_map
       [("status", VStr "processing"); ("step", VStr "download");
        ("message", VStr "영상 다운로드 중..."); ("progress", VInt 5)]%string);;
  video_info ←
    lift (reraise_as_exception YouTubeDownloadError "영상 다운로드 실패: "
            (download_video url job_dir));
  job_manager_update_job job_id
    (list_to_map
       [("message", VStr "다운로드 완료!"); ("progress", VInt 25);
        ("video_info", video_info)]%string);;
  mret video_info.

Definition _step_extract_transcript `{Env} (job_id url job_dir : string)
    (audio_path : value) : M (value * value) :=
  job_manager_update_job job_id
    (list_to_map
       [("step", VStr "stt"); ("message", VStr "음성 인식 중... (Whisper AI)");
        ("progress", VInt 35)]%string);;
  transcript ←
    lift (reraise_as_exception TranscriptionError "음성 인식 실패: "
            (transcribe_audio audio_path));
  valid ← lift (_is_valid_transcript transcript);
  (if valid : bool then mret tt
   else raise (mkExn Exception
          ("영상에서 텍스트를 추출할 수 없습니다. "
           ++ "음성이나 자막이 포함된 영상인지 확인해주세요.")));;
  job_manager_update_job job_id
    (list_to_map
       [("message", VStr "텍스트 추출 완료!"); ("progress", VInt 50)]%string);;
  mret (transcript, VStr "whisper").

Definition _step_parse_recipe `{Env} (job_id : string) (transcript : value)
  : M value :=
  job_manager_update_job job_id
    (list_to_map
       [("step", VStr "parsing"); ("message", VStr "GPT-4o로 레시피 분석 중...");
        ("progress", VInt 55)]%string);;
  recipe ←
    lift (reraise_as_exception RecipeParseError "레시피 분석 실패: "
            (parse_recipe transcript));
  job_manager_update_job job_id
    (list_to_map
       [("message", VStr "레시피 분석 완료!"); ("progress", VInt 90)]%string);;
  mret recipe.

(** [round(time.time() - start, 2)] *)
Definition elapsed_since `{Env} (start : float) : M value :=
  t ← time_time_now;
  mret (VFloat (round2 (PrimFloat.sub t start))).

(** The keyword arguments of the two final writes. *)
Definition completed_fields (recipe video_info transcript : value)
    (timing : gmap string value) : job :=
  list_to_map
    [("step", VStr "done"); ("message", VStr "레시피 추출 완료!");
     ("progress", VInt 100); ("status", VStr "completed");
     ("result",
      VDict (list_to_map
               [("recipe", recipe); ("video_info", video_info);
                ("transcript", transcript); ("timing", VDict timing)]))]%string.

Definition failed_fields (error_message : string) : job :=
  list_to_map
    [("status", VStr "failed");
     ("message", VStr ("오류 발생: " ++ error_message));
     ("progress", VInt 0)]%string.

(** The suite of the [try] statement of [process_video]. *)
Definition pipeline_stages `{Env} (job_id url job_dir : string)
    (total_start : float) : M unit :=
  let timing : gmap string value := ∅ in
  (* stage 1: download *)
  step_start ← time_time_now;
  video_info ← _step_download job_id url job_dir;
  d ← elapsed_since step_start;
  let timing := <["download"%string := d]> timing in
  (* stage 2: transcript *)
  step_start ← time_time_now;
  audio_path ← lift (subscript video_info "audio_path");
  '(transcript, transcript_source) ←
    _step_extract_transcript job_id url job_dir audio_path;
  d ← elapsed_since step_start;
  let timing := <["transcript"%string := d]> timing in
  let timing := <["transcript_source"%string := transcript_source]> timing in
  (* stage 3: recipe parsing *)
  step_start ← time_time_now;
  recipe ← _step_parse_recipe job_id transcript;
  d ← elapsed_since step_start;
  let timing := <["parsing"%string := d]> timing in
  d ← elapsed_since total_start;
  let timing := <["total"%string := d]> timing in
  job_manager_update_job job_id
    (completed_fields recipe video_info transcript timing).

Definition process_video `{Env} (job_id url : string) : M unit :=
  let job_dir := job_dir_of job_id in
  lift (mkdir_exist_ok job_dir);;
  total_start ← time_time_now;
  try_except_Exception
    (pipeline_stages job_id url job_dir total_start)
    (fun e => job_manager_update_job job_id (failed_fields (text e))).

(** *** Reading the pipeline *)

(** The world and start time the [try] statement of [process_video]
    begins with, and the outcome of its suite. *)
Definition after_time_read (w : world) : world :=
  mkWorld (job_manager w) (datetime_reads w) (S (time_reads w))
          (update_calls w).

Definition stages_outcome `{Env} (job_id url : string) (w : world)
  : result exn unit * world :=
  pipeline_stages job_id url (job_dir_of job_id) (time_time (time_reads w))
                  (after_time_read w).

(** Outcome-indexed specifications of a computation: from a state
    satisfying [P], a normal return satisfies [Q] and a raise [R]. *)
Definition spec {A} (P : world -> Prop) (m : M A)
    (Q : A -> world -> Prop) (R : exn -> world -> Prop) : Prop :=
  forall w, P w ->
    match m w with
    | (Ok a, w') => Q a w'
    | (Raise e, w') => R e w'
    end.

(** The record of [job_id] is in the table with no result attached, and
    no call of [update_job] so far passed a [result]. *)
Definition no_result_yet (job_id : string) (w : world) : Prop :=
  (exists j, get_job job_id (job_manager w) = Some j
             /\ j !! "result"%string = Some VNone)
  /\ Forall (fun call => call.2 !! "result"%string = None) (update_calls w).

(** Every record of the table in [w] is still in the table in [w']. *)
Definition keeps (w w' : world) : Prop :=
  forall job_id, is_Some (get_job job_id (job_manager w)) ->
                 is_Some (get_job job_id (job_manager w')).

(** The [timing] dictionary of a completed run. *)
Definition timing_of (download transcript parsing total : float)
  : gmap string value :=
  list_to_map
    [("total", VFloat total); ("parsing", VFloat parsing);
     ("transcript_source", VStr "whisper");
     ("transcript", VFloat transcript);
     ("download", VFloat download)]%string.

(** What a run measures. [elapsed_between a b] is the rounded difference
    of the readings of index [b] and [a] of [time.time()]. A run that
    starts when [k] readings have been taken reads the clock eight times:
    reading [k] is [total_start]; [k+1] and [k+2] enclose the download,
    [k+3] and [k+4] the transcript, [k+5] and [k+6] the parsing; reading
    [k+7] ends the total. *)
Definition elapsed_between `{Env} (a b : nat) : float :=
  round2 (PrimFloat.sub (time_time b) (time_time a)).

Definition run_timing `{Env} (k : nat) : gmap string value :=
  timing_of (elapsed_between (k + 1) (k + 2))
            (elapsed_between (k + 3) (k + 4))
            (elapsed_between (k + 5) (k + 6))
            (elapsed_between k (k + 7)).

(** *** Sample collaborators *)

Definition sample_video_info : value :=
  VDict (list_to_map
           [("audio_path", VStr "/data/j1/audio.mp3");
            ("title", VStr "Stew")]%string).

Definition sample_transcript : value :=
  VDict (list_to_map
           [("full_text", VStr "Chop the onions, then simmer for an hour.")]%string).

Definition sample_recipe : value :=
  VDict (list_to_map [("title", VStr "Stew")]%string).

(** An environment in which every provider answers, and one in which the
    download fails. *)
Definition working_env : Env := {|
  DATA_DIR := "/data";
  MAX_JOBS := 2;
  JOB_EXPIRE_HOURS := 1;
  datetime_now := fun k => Z.of_nat k;
  time_time := fun _ => 1.5%float;
  round2 := fun x => x;
  mkdir_exist_ok := fun _ => Ok tt;
  download_video := fun _ _ => Ok sample_video_info;
  transcribe_audio := fun _ => Ok sample_transcript;
  parse_recipe := fun _ => Ok sample_recipe
|}.

Definition offline_env : Env := {|
  DATA_DIR := "/data";
  MAX_JOBS := 2;
  JOB_EXPIRE_HOURS := 1;
  datetime_now := fun k => Z.of_nat k;
  time_time := fun _ => 1.5%float;
  round2 := fun x => x;
  mkdir_exist_ok := fun _ => Ok tt;
  download_video :=
    fun _ _ => Raise (mkExn YouTubeDownloadError "Video unavailable");
  transcribe_audio := fun _ => Ok sample_transcript;
  parse_recipe := fun _ => Ok sample_recipe
|}.

(** An environment whose clock moves: the eight readings of a run. *)
Definition ticking_env : Env := {|
  DATA_DIR := "/data";
  MAX_JOBS := 2;
  JOB_EXPIRE_HOURS := 1;
  datetime_now := fun k => Z.of_nat k;
  time_time :=
    fun k => nth k [10%float; 11%float; 13%float; 14%float;
                    19%float; 20%float; 27%float; 28%float] 0%float;
  round2 := fun x => x;
  mkdir_exist_ok := fun _ => Ok tt;
  download_video := fun _ _ => Ok sample_video_info;
  transcribe_audio := fun _ => Ok sample_transcript;
  parse_recipe := fun _ => Ok sample_recipe
|}.

(** An environment in which the video has hardly any speech. *)
Definition mumble : value :=
  VDict (list_to_map [("full_text", VStr "Hm.")]%string).

Definition silent_env : Env := {|
  DATA_DIR := "/data";
  MAX_JOBS := 2;
  JOB_EXPIRE_HOURS := 1;
  datetime_now := fun k => Z.of_nat k;
  time_time := fun _ => 1.5%float;
  round2 := fun x => x;
  mkdir_exist_ok := fun _ => Ok tt;
  download_video := fun _ _ => Ok sample_video_info;
  transcribe_audio := fun _ => Ok mumble;
  parse_recipe := fun _ => Ok sample_recipe
|}.

(** Three creates one second apart, and a fourth. *)
Definition sample_calls : list create_call :=
  [mkCall "a" "https://youtu.be/a" "a" 0 0 0;
   mkCall "b" "https://youtu.be/b" "b" 1000000 1000000 1000000;
   mkCall "c" "https://youtu.be/c" "c" 2000000 2000000 2000000].

Definition sample_call : create_call :=
  mkCall "d" "https://youtu.be/d" "d" 3000000 3000000 3000000.

(** A table holding the freshly created job [j1], and the world of a
    pipeline run that starts on it. *)
Definition one_job : JobManager :=
  mkJobManager [("j1"%string, new_job "j1" "https://youtu.be/x" "x" 0 0)] 2 1.

Definition world_of (jm : JobManager) : world := mkWorld jm 0 0 [].

(** *** The endpoints *)

(** What an endpoint raises: an [HTTPException] with its detail, or an
    exception it does not handle. *)
Inductive http_exn :=
| HTTPError (status_code : Z) (detail : value)
| Unhandled (e : exn).

(** The keyword arguments given to the [JobStatusResponse] model. *)
Record JobStatusResponse := mkJobStatus {
  js_job_id : string;
  js_status : value;
  js_progress : value;
  js_message : value;
  js_video_id : option value
}.

(** [job[key]] inside an endpoint. *)
Definition job_item (j : job) (key : string) : result http_exn value :=
  match j !! key with
  | Some v => Ok v
  | None => Raise (Unhandled (mkExn KeyError ("'" ++ key ++ "'")))
  end.

(** [job_manager.get_job(job_id)] followed by [if not job: raise 404];
    an empty dictionary is falsy too. *)
Definition job_or_404 (job_id : string) (jm : JobManager)
  : result http_exn job :=
  match get_job job_id jm with
  | Some j =>
      if truthy (VDict j) then Ok j
      else Raise (HTTPError 404 (VStr "작업을 찾을 수 없습니다."))
  | None => Raise (HTTPError 404 (VStr "작업을 찾을 수 없습니다."))
  end.

(** [v == s] for a string literal [s]. *)
Definition eq_str (v : value) (s : string) : bool :=
  match v with
  | VStr s' => bool_decide (s' = s)
  | _ => false
  end.

Definition get_job_status (job_id : string) (jm : JobManager)
  : result http_exn JobStatusResponse :=
  j ← job_or_404 job_id jm;
  status ← job_item j "status";
  progress ← job_item j "progress";
  message ← job_item j "message";
  Ok (mkJobStatus job_id status progress message (j !! "video_id"%string)).

Definition get_result (job_id : string) (jm : JobManager)
  : result http_exn value :=
  j ← job_or_404 job_id jm;
  status ← job_item j "status";
  if eq_str status "failed" then
    Raise (HTTPError 400
             (default (VStr "작업이 실패했습니다.") (j !! "message"%string)))
  else
    status ← job_item j "status";
    if negb (eq_str status "completed") then
      Raise (HTTPError 400 (VStr "아직 처리가 완료되지 않았습니다."))
    else job_item j "result".

(** The [DELETE /job/{job_id}] endpoint: the files, then the record. *)
Definition delete_job_endpoint (job_id : string) (jm : JobManager)
  : result http_exn (string * string) * JobManager * list event :=
  match job_or_404 job_id jm with
  | Raise e => (Raise e, jm, [])
  | Ok _ =>
      (Ok ("작업이 삭제되었습니다."%string, job_id),
       (delete_job job_id jm).2, [CleanupJobFiles job_id; DeleteJob job_id])
  end.

(** [analyze_video]. [strip] is [str.strip], [extract_video_id] the
    function of the YouTube service, [job_id] the new UUID. The request
    is rejected with an [HTTPException] before the table is touched, or
    the job is created and the call [process_video(job_id, url)] is added
    to the background tasks, or [create_job] raises. *)
Inductive analyze_outcome :=
| Rejected (status_code : Z) (detail : string)
| Accepted (job_id message : string) (jm : JobManager) (events : list event)
           (background_tasks : list (string * string))
| CreateRaised (e : exn).

Definition analyze_video (strip : string -> string)
    (extract_video_id : string -> option string)
    (created updated now : Z) (job_id : string) (request_url : string)
    (jm : JobManager) : analyze_outcome :=
  let url := strip request_url in
  if bool_decide (url = ""%string) then
    Rejected 400 "URL이 제공되지 않았습니다."
  else
    match extract_video_id url with
    | Some video_id =>
        if bool_decide (video_id = ""%string) then
          Rejected 400 "유효하지 않은 YouTube URL입니다."
        else
          match create_job created updated now job_id url video_id jm with
          | Ok (_, jm', events) =>
              Accepted job_id "분석을 시작합니다." jm' events [(job_id, url)]
          | Raise e => CreateRaised e
          end
    | None => Rejected 400 "유효하지 않은 YouTube URL입니다."
    end.

(** *** Reading the writes of a run *)

(** The [status] and [progress] arguments of a call of [update_job]. *)
Definition write_summary (call : string * job)
  : option value * option value :=
  (call.2 !! "status"%string, call.2 !! "progress"%string).

(** The writes of the three stages, in order, and the two final ones. *)
Definition stage_trace : list (option value * option value) :=
  [(Some (VStr "processing"), Some (VInt 5));
   (None, Some (VInt 25));
   (None, Some (VInt 35));
   (None, Some (VInt 50));
   (None, Some (VInt 55));
   (None, Some (VInt 90))].

Definition completed_summary : option value * option value :=
  (Some (VStr "completed"), Some (VInt 100)).

Definition failed_summary : option value * option value :=
  (Some (VStr "failed"), Some (VInt 0)).

(** The calls of [update_job] made since the table of calls was
    [calls0]: all for [job_id], with the given statuses and progress. *)
Definition wrote (job_id : string) (calls0 : list (string * job))
    (summaries : list (option value * option value)) (w : world) : Prop :=
  exists calls,
    update_calls w = calls0 ++ calls
    /\ Forall (fun call => call.1 = job_id) calls
    /\ write_summary <$> calls = summaries.

(** The keys of a record that identify the job. *)
Definition identity_keys : list string :=
  ["job_id"; "url"; "video_id"; "created_at"]%string.

Definition keeps_identity (kwargs : job) : Prop :=
  Forall (fun key => kwargs !! key = None) identity_keys.

(** The record [j'] identifies the same job as [j]. *)
Definition same_identity (j j' : job) : Prop :=
  Forall (fun key => j' !! key = j !! key) identity_keys.

(** A transcript without enough text: [None], a dictionary without
    [full_text], or one whose [full_text] is a string of fewer than
    [MIN_TRANSCRIPT_LENGTH] characters. *)
Definition short_transcript (transcript : value) : Prop :=
  match transcript with
  | VNone => True
  | VDict d =>
      match d !! "full_text"%string with
      | None => True
      | Some (VStr s) => Z.of_nat (String.length s) < MIN_TRANSCRIPT_LENGTH
      | Some _ => False
      end
  | _ => False
  end.

(** What a record shows to the status endpoint. *)
Definition record_shows (status : string) (progress : Z) (message : string)
    (j : job) : Prop :=
  j !! "status"%string = Some (VStr status)
  /\ j !! "progress"%string = Some (VInt progress)
  /\ j !! "message"%string = Some (VStr message).

(** The record of a job whose stages are running. *)
Definition in_progress (j : job) : Prop :=
  j !! "status"%string = Some (VStr "processing")
  /\ is_Some (j !! "progress"%string)
  /\ is_Some (j !! "message"%string).

(** The record of a completed job: its result holds the four parts. *)
Definition completed_record (j : job) : Prop :=
  record_shows "completed" 100 "레시피 추출 완료!" j
  /\ exists recipe video_info transcript timing,
       j !! "result"%string
       = Some (VDict (list_to_map
                        [("recipe", recipe); ("video_info", video_info);
                         ("transcript", transcript);
                         ("timing", VDict timing)]%string)).

(** The table of [w] compared with the table [jm0] in which the record
    of [job_id] was [j]: the record is there, identifies the same job and
    satisfies [P]; every other record is as it was; the keys are in the
    same order. *)
Definition own_record (job_id : string) (j : job) (jm0 : JobManager)
    (P : job -> Prop) (w : world) : Prop :=
  (exists j', get_job job_id (job_manager w) = Some j'
              /\ same_identity j j' /\ P j')
  /\ (forall other, other <> job_id ->
        get_job other (job_manager w) = get_job other jm0)
  /\ (_jobs (job_manager w)).*1 = (_jobs jm0).*1.

(** The keyword arguments of the [k]-th write of the stages: their
    status and progress are those of [stage_trace], they carry a message,
    and neither an identity key nor a [result]. *)
Definition stage_write (k : nat) (kwargs : job) : Prop :=
  stage_trace !! k
  = Some (kwargs !! "status"%string, kwargs !! "progress"%string)
  /\ is_Some (kwargs !! "message"%string)
  /\ keeps_identity kwargs
  /\ kwargs !! "result"%string = None.

End Analyze.

(** * The recipe parser ([app/services/recipe_parser.py]) *)

Module RecipeParser.
Import Py.
Import Stdlib.Strings.Ascii.

Definition MAX_TRANSCRIPT_LENGTH : nat := 4000.

(** What [json.loads] returns, and what the transcript holds. *)
Inductive json :=
| JNull
| JBool (b : bool)
| JInt (n : Z)
| JFloat (x : float)
| JStr (s : string)
| JList (items : list json)
| JDict (fields : gmap string json).

(** An exception raised inside [parse_recipe], classified by the first
    [except] clause of its loop that catches it; [NotAnException] is a
    [BaseException] outside [Exception], which none of them catches. *)
Inductive exn_kind :=
| JSONDecodeError
| RateLimitError
| APIConnectionError
| APIError
| RecipeParseError
| OtherException
| NotAnException.

(** An exception object: its kind and [str(e)]. *)
Record exn := mkExn { kind : exn_kind; text : string }.

(** What the module uses but does not define: the configured minimum
    length ([app/config.py]), [str.strip], [str()] of floats, lists and
    dictionaries, [float()] of an [int] and of a [str], the format
    [:.1f], the order in which a dictionary yields its keys, the search
    for the fenced block in [_clean_json_response] (group 1 of the
    match), [json.loads], and the text of the [TypeError],
    [AttributeError] or [ValueError] that an operation raises on a value
    it does not accept. *)
Class Env := {
  MIN_TRANSCRIPT_LENGTH : Z;
  strip : string -> string;
  repr : json -> string;
  int_to_float : Z -> result exn float;
  str_to_float : string -> result exn float;
  format_1f : json -> result exn string;
  dict_keys : gmap string json -> list string;
  fence_body : string -> option string;
  json_loads : string -> result exn json;
  raised_text : string -> json -> string
}.

(** [client.chat.completions.create] on the attempt of a given index
    with the given user message: the [content] of each choice, or the
    exception raised. *)
Inductive api_outcome :=
| Response (choices : list (option string))
| Fails (e : exn).

Definition provider := Z -> string -> api_outcome.

(** *** Python operations on these values *)

Definition LF : string := String "010"%char EmptyString.

(** [d.get(key, default)] *)
Definition get (d : gmap string json) (key : string) (default_value : json)
  : json :=
  default default_value (d !! key).

(** [str(v)] *)
Definition str `{Env} (v : json) : string :=
  match v with
  | JStr s => s
  | JNull => "None"
  | JBool true => "True"
  | JBool false => "False"
  | JInt n => pretty n
  | _ => repr v
  end.

(** [float(v)] *)
Definition float_of `{Env} (v : json) : result exn float :=
  match v with
  | JFloat x => Ok x
  | JInt n => int_to_float n
  | JBool b => Ok (if b then 1%float else 0%float)
  | JStr s => str_to_float s
  | _ => Raise (mkExn OtherException (raised_text "float" v))
  end.

(** [max(0, x)] for a float [x]: [x] when [x > 0], the integer [0]
    otherwise, also for a NaN. *)
Definition max0 (x : float) : json :=
  if PrimFloat.ltb 0%float x then JFloat x else JInt 0.

Fixpoint characters (s : string) : list json :=
  match s with
  | EmptyString => []
  | String c rest => JStr (String c EmptyString) :: characters rest
  end.

(** The elements a [for] loop over [v] goes through. *)
Definition iterate `{Env} (v : json) : result exn (list json) :=
  match v with
  | JList items => Ok items
  | JStr s => Ok (characters s)
  | JDict d => Ok (JStr <$> dict_keys d)
  | _ => Raise (mkExn OtherException (raised_text "iter" v))
  end.

(** [s.replace("\\n", "\n")]: every backslash followed by [n] becomes a
    line feed, from left to right. *)
Fixpoint replace_escaped_newlines (s : string) : string :=
  match s with
  | EmptyString => EmptyString
  | String c rest =>
      match rest with
      | String c' rest' =>
          if (Ascii.eqb c "\" && Ascii.eqb c' "n")%char
          then String "010"%char (replace_escaped_newlines rest')
          else String c (replace_escaped_newlines rest)
      | EmptyString => String c EmptyString
      end
  end.

(** *** Helpers *)

Definition _clean_json_response `{Env} (text : string) : string :=
  match fence_body text with
  | Some body => strip body
  | None => strip text
  end.

(** The body of the loop of [_validate_ingredients]: the ingredient to
    append, if any. *)
Definition validated_ingredient `{Env} (ing : json) : option json :=
  match ing with
  | JDict d =>
      let name := str (get d "name" (JStr "")) in
      let amount := str (get d "amount" (JStr "")) in
      let unit := str (get d "unit" (JStr "")) in
      let note := str (get d "note" (JStr "")) in
      if bool_decide (name = ""%string) then None
      else Some (JDict (list_to_map
                          [("name", JStr name); ("amount", JStr amount);
                           ("unit", JStr unit); ("note", JStr note)]%string))
  | _ => None
  end.

Definition _validate_ingredients `{Env} (ingredients : json)
  : result exn json :=
  items ← iterate ingredients;
  Ok (JList (omap validated_ingredient items)).

(** The body of the loop of [_validate_steps] for the element of index
    [i]. *)
Definition validated_step `{Env} (i : Z) (step : json)
  : result exn (option json) :=
  match step with
  | JDict d =>
      let instruction := get d "instruction" (JStr "") in
      let instruction :=
        match instruction with
        | JStr s => JStr (replace_escaped_newlines s)
        | v => v
        end in
      timestamp ← float_of (get d "timestamp" (JInt 0));
      Ok (Some (JDict (list_to_map
                         [("step_number", get d "step_number" (JInt (i + 1)));
                          ("instruction", instruction);
                          ("timestamp", max0 timestamp);
                          ("duration", get d "duration" (JStr ""));
                          ("details", get d "details" (JStr ""));
                          ("tips", get d "tips" (JStr ""))]%string)))
  | _ => Ok None
  end.

Fixpoint validate_steps_from `{Env} (i : Z) (steps : list json)
  : result exn (list json) :=
  match steps with
  | [] => Ok []
  | step :: rest =>
      v ← validated_step i step;
      vs ← validate_steps_from (i + 1) rest;
      Ok (match v with Some s => s :: vs | None => vs end)
  end.

Definition _validate_steps `{Env} (steps : json) : result exn json :=
  items ← iterate steps;
  validated ← validate_steps_from 0 items;
  Ok (JList validated).

Definition defaults : list (string * json) :=
  [("title", JStr "레시피"); ("description", JStr "");
   ("servings", JStr "1인분"); ("total_time", JStr "");
   ("difficulty", JStr "보통"); ("ingredients", JList []);
   ("steps", JList []); ("tips", JList [])]%string.

(** [if key not in recipe_data or recipe_data[key] is None:
       recipe_data[key] = default_value] *)
Definition set_default (d : gmap string json) (item : string * json)
  : gmap string json :=
  match d !! item.1 with
  | None | Some JNull => <[item.1 := item.2]> d
  | Some _ => d
  end.

(** The two assignments that follow the loop over the defaults. *)
Definition validate_fields `{Env} (d : gmap string json) : result exn json :=
  steps ← _validate_steps (get d "steps" (JList []));
  let d := <["steps"%string := steps]> d in
  ingredients ← _validate_ingredients (get d "ingredients" (JList []));
  Ok (JDict (<["ingredients"%string := ingredients]> d)).

(** On anything but a dictionary the first round of the loop over the
    defaults raises a [TypeError]. *)
Definition _validate_recipe_data `{Env} (recipe_data : json)
  : result exn json :=
  match recipe_data with
  | JDict d => validate_fields (foldl set_default d defaults)
  | v => Raise (mkExn OtherException (raised_text "defaults" v))
  end.

(** One round of the loop of [_build_user_message]. *)
Definition segment_line `{Env} (seg : json) : result exn string :=
  match seg with
  | JDict d =>
      start ← format_1f (get d "start" (JInt 0));
      end_ ← format_1f (get d "end" (JInt 0));
      Ok ("[" ++ start ++ "s - " ++ end_ ++ "s]: "
          ++ str (get d "text" (JStr "")) ++ LF)%string
  | v => Raise (mkExn OtherException (raised_text "get" v))
  end.

Fixpoint segment_lines `{Env} (segments : list json) : result exn string :=
  match segments with
  | [] => Ok ""%string
  | seg :: rest =>
      line ← segment_line seg;
      lines ← segment_lines rest;
      Ok (line ++ lines)%string
  end.

Definition _build_user_message `{Env} (full_text : string) (segments : json)
  : result exn string :=
  items ← iterate segments;
  segments_text ← segment_lines items;
  Ok ("다음은 요리 영상의 음성 텍스트입니다:" ++ LF ++ LF
      ++ "## 전체 텍스트" ++ LF ++ full_text ++ LF ++ LF
      ++ "## 타임스탬프별 세그먼트" ++ LF ++ segments_text ++ LF ++ LF
      ++ "이 내용을 분석하여 구조화된 레시피 JSON을 생성해주세요.")%string.

Definition _create_empty_recipe `{Env} (title description raw_text : string)
  : result exn json :=
  _validate_recipe_data
    (JDict (list_to_map
              [("title", JStr title); ("description", JStr description);
               ("ingredients", JList []); ("steps", JList []);
               ("raw_text", JStr raw_text)]%string)).

(** *** The call of the model *)

Definition _call_gpt_api `{Env} (create : provider) (attempt : Z)
    (user_message : string) : result exn json :=
  match create attempt user_message with
  | Fails e => Raise e
  | Response [] => Raise (mkExn RecipeParseError "GPT 응답에 choices가 없습니다")
  | Response (content :: _) =>
      match content with
      | None | Some EmptyString =>
          Raise (mkExn RecipeParseError "GPT 응답이 비어있습니다")
      | Some result_text => json_loads (_clean_json_response result_text)
      end
  end.

(** *** [parse_recipe] *)

(** The [try] suite of one round of the loop. *)
Definition try_suite `{Env} (create : provider) (attempt : Z)
    (user_message : string) : result exn json :=
  recipe_data ← _call_gpt_api create attempt user_message;
  _validate_recipe_data recipe_data.

(** A round of the loop returns the recipe, breaks out of the loop,
    reaches the end of the loop body, or lets the exception through. *)
Inductive iteration :=
| Return (recipe : json)
| Break (last_error : exn)
| EndOfBody (last_error : exn)
| Propagate (e : exn).

(** The [except] clauses, in their order. *)
Definition attempt_once `{Env} (create : provider) (attempt : Z)
    (user_message : string) : iteration :=
  match try_suite create attempt user_message with
  | Ok recipe => Return recipe
  | Raise e =>
      match kind e with
      | JSONDecodeError => EndOfBody e
      | RateLimitError => Break e
      | APIConnectionError => EndOfBody e
      | APIError => Break e
      | RecipeParseError => EndOfBody e
      | OtherException => EndOfBody e
      | NotAnException => Propagate e
      end
  end.

(** How the loop is left: by [return], by an exception, or at its end
    or a [break] with [last_error]. *)
Inductive loop_exit :=
| Returned (recipe : json)
| Propagated (e : exn)
| Finished (last_error : option exn).

(** The loop over the attempts left, with [last_error] and the log of
    the attempts made so far. *)
Fixpoint retry_loop `{Env} (create : provider) (user_message : string)
    (attempts : list Z) (last_error : option exn) (log : list Z)
  : loop_exit * list Z :=
  match attempts with
  | [] => (Finished last_error, log)
  | attempt :: rest =>
      match attempt_once create attempt user_message with
      | Return recipe => (Returned recipe, log ++ [attempt])
      | Break e => (Finished (Some e), log ++ [attempt])
      | EndOfBody e =>
          retry_loop create user_message rest (Some e) (log ++ [attempt])
      | Propagate e => (Propagated e, log ++ [attempt])
      end
  end.

Definition failure_description (last_error : option exn) : string :=
  ("레시피 분석 중 오류가 발생했습니다: "
   ++ match last_error with
      | Some e => str_prefix 100 (text e)
      | None => "알 수 없는 오류"
      end)%string.

(** [transcript_data.get("full_text", "").strip()] *)
Definition stripped_full_text `{Env} (transcript_data : json)
  : result exn string :=
  match transcript_data with
  | JDict d =>
      match get d "full_text" (JStr "") with
      | JStr s => Ok (strip s)
      | v => Raise (mkExn OtherException (raised_text "strip" v))
      end
  | v => Raise (mkExn OtherException (raised_text "get" v))
  end.

(** The transcript is too short to be sent to the model. *)
Definition too_short `{Env} (full_text : string) : bool :=
  bool_decide (full_text = ""%string)
  || bool_decide (Z.of_nat (String.length full_text) < MIN_TRANSCRIPT_LENGTH).

(** The text sent: cut to [MAX_TRANSCRIPT_LENGTH] characters. *)
Definition clipped (full_text : string) : string :=
  if bool_decide (MAX_TRANSCRIPT_LENGTH < String.length full_text)%nat
  then str_prefix MAX_TRANSCRIPT_LENGTH full_text
  else full_text.

(** [transcript_data.get("segments", [])], reached only when
    [transcript_data] is a dictionary. *)
Definition segments_of (transcript_data : json) : json :=
  match transcript_data with
  | JDict d => get d "segments" (JList [])
  | _ => JList []
  end.

(** [parse_recipe]: what it returns or raises, and the attempts made. *)
Definition parse_recipe `{Env} (create : provider) (transcript_data : json)
    (max_retries : Z) : result exn json * list Z :=
  match stripped_full_text transcript_data with
  | Raise e => (Raise e, [])
  | Ok full_text =>
      if too_short full_text then
        (_create_empty_recipe "레시피" "음성 인식 결과가 너무 짧습니다." "", [])
      else
        let full_text := clipped full_text in
        let segments := segments_of transcript_data in
        match _build_user_message full_text segments with
        | Raise e => (Raise e, [])
        | Ok user_message =>
            match retry_loop create user_message (range (max_retries + 1))
                             None [] with
            | (Returned recipe, log) => (Ok recipe, log)
            | (Propagated e, log) => (Raise e, log)
            | (Finished last_error, log) =>
                (_create_empty_recipe "레시피 (파싱 실패)"
                   (failure_description last_error) full_text, log)
            end
        end
  end.

(** *** Reading the parser *)

(** A validated ingredient: the four fields as strings, with a name. *)
Definition well_formed_ingredient (v : json) : Prop :=
  exists name amount unit note,
    v = JDict (list_to_map
                 [("name", JStr name); ("amount", JStr amount);
                  ("unit", JStr unit); ("note", JStr note)]%string)
    /\ name <> ""%string.

(** A validated step: the six fields, with a timestamp that is the
    integer [0] or a positive float. *)
Definition well_formed_step (v : json) : Prop :=
  exists d timestamp,
    v = JDict d
    /\ dom d = list_to_set
                 ["step_number"; "instruction"; "timestamp"; "duration";
                  "details"; "tips"]%string
    /\ d !! "timestamp"%string = Some timestamp
    /\ (timestamp = JInt 0
        \/ exists x, timestamp = JFloat x /\ PrimFloat.ltb 0%float x = true).

(** A validated recipe: every default key is there with a value other
    than [None], and the ingredients and steps are validated lists. *)
Definition well_formed_recipe (v : json) : Prop :=
  exists d ingredients steps,
    v = JDict d
    /\ Forall (fun key => exists x, d !! key = Some x /\ x <> JNull)
              defaults.*1
    /\ d !! "ingredients"%string = Some (JList ingredients)
    /\ Forall well_formed_ingredient ingredients
    /\ d !! "steps"%string = Some (JList steps)
    /\ Forall well_formed_step steps.

(** The recipe returned when nothing was parsed. *)
Definition placeholder_recipe (title description raw_text : string) : json :=
  JDict (list_to_map
           [("title", JStr title); ("description", JStr description);
            ("servings", JStr "1인분"); ("total_time", JStr "");
            ("difficulty", JStr "보통"); ("ingredients", JList []);
            ("steps", JList []); ("tips", JList []);
            ("raw_text", JStr raw_text)]%string).

(** The rounds after which the loop goes on to the next attempt. *)
Definition retried `{Env} (create : provider) (user_message : string)
    (attempt : Z) : Prop :=
  exists e, attempt_once create attempt user_message = EndOfBody e.

(** How the loop is left when the round [it] was its last. *)
Definition exit_of (it : iteration) : loop_exit :=
  match it with
  | Return recipe => Returned recipe
  | Propagate e => Propagated e
  | Break e | EndOfBody e => Finished (Some e)
  end.

(** What [parse_recipe] returns when the round [it] was its last. *)
Definition final_result `{Env} (full_text : string) (it : iteration)
  : result exn json :=
  match it with
  | Return recipe => Ok recipe
  | Propagate e => Raise e
  | Break e | EndOfBody e =>
      Ok (placeholder_recipe "레시피 (파싱 실패)"
            (failure_description (Some e)) full_text)
  end.

(** *** Sample collaborators *)

Definition sample_env : Env := {|
  MIN_TRANSCRIPT_LENGTH := 20;
  strip := fun s => s;
  repr := fun _ => "?"%string;
  int_to_float := fun _ => Ok 0%float;
  str_to_float := fun _ => Raise (mkExn OtherException "could not convert");
  format_1f := fun _ => Ok "0.0"%string;
  dict_keys := fun d => (map_to_list d).*1;
  fence_body := fun _ => None;
  json_loads :=
    fun text =>
      if bool_decide (text = "{}"%string) then Ok (JDict ∅)
      else Raise (mkExn JSONDecodeError "Expecting value");
  raised_text := fun _ _ => "unsupported operand"%string
|}.

Definition sample_transcript : json :=
  JDict (list_to_map
           [("full_text", JStr "Chop the onions, then simmer for an hour.");
            ("segments", JList [])]%string).

Definition short_transcript : json :=
  JDict (list_to_map [("full_text", JStr "Hello.")]%string).

Definition sample_user_message : string :=
  match @_build_user_message sample_env
          "Chop the onions, then simmer for an hour." (JList []) with
  | Ok user_message => user_message
  | Raise _ => ""%string
  end.

(** A model that answers prose on the first attempt and an empty object
    on the second, and one that is always over its quota. *)
Definition chatty_model : provider :=
  fun attempt _ =>
    if bool_decide (attempt = 0) then Response [Some "Sure!"%string]
    else Response [Some "{}"%string].

Definition limited_model : provider :=
  fun _ _ => Fails (mkExn RateLimitError "quota exceeded").

End RecipeParser.

(** * Text helpers ([app/utils/common.py], [app/routers/test.py]) *)

Module Utils.
Import Py.

Definition TEXT_PREVIEW_LENGTH : Z := 500.

(** [s[:k]] for a Python [int] [k]: a negative [k] counts from the
    end. *)
Definition slice_to (s : string) (k : Z) : string :=
  if bool_decide (0 <= k) then String.substring 0 (Z.to_nat k) s
  else String.substring 0 (Z.to_nat (Z.of_nat (String.length s) + k)) s.

(** [truncate_text] of [app/utils/common.py]. *)
Definition truncate_text (text : string) (max_length : Z) (suffix : string)
  : string :=
  if bool_decide (Z.of_nat (String.length text) <= max_length) then text
  else (slice_to text (max_length - Z.of_nat (String.length suffix))
        ++ suffix)%string.

(** [_truncate_text] of [app/routers/test.py]. *)
Definition _truncate_text (text : string) (max_length : Z) : string :=
  if bool_decide (Z.of_nat (String.length text) > max_length)
  then (slice_to text max_length ++ "...")%string
  else text.

End Utils.

(** * Properties *)

(** ** The retry loop *)

Section RetryLoop.
Import Py Chat.
Context `{Env} (create : provider) (messages : list api_message)
  (max_retries : Z).

Lemma attempt_once_retriable index :
  retriable (attempt create messages index) = true ->
  attempt_once create messages max_retries index
    = Continue (error_text (attempt create messages index))
  \/ attempt_once create messages max_retries index
    = EndOfBody (error_text (attempt create messages index)).
Proof.
  unfold attempt_once, continue_if_retries_left.
  destruct (attempt create messages index) as [r|[] msg]; simpl;
    try discriminate; intros _; case_bool_decide; auto.
Qed.

Lemma attempt_once_decisive index :
  retriable (attempt create messages index) = false ->
  match final_result (attempt create messages index) with
  | Ok r => attempt_once create messages max_retries index = Return r
  | Raise _ =>
      attempt_once create messages max_retries index
        = Break (error_text (attempt create messages index))
  end.
Proof.
  unfold attempt_once.
  destruct (attempt create messages index) as [r|[] msg]; simpl;
    try discriminate; reflexivity.
Qed.

(** The loop stops at the first result that is not retriable. *)
Lemma retry_loop_decisive k : forall a n last_error log,
  (k < n)%nat ->
  (forall j, (j < k)%nat ->
     retriable (attempt create messages (Z.of_nat (a + j))) = true) ->
  retriable (attempt create messages (Z.of_nat (a + k))) = false ->
  retry_loop create messages max_retries (Z.of_nat <$> seq a n) last_error log
  = (match final_result (attempt create messages (Z.of_nat (a + k))) with
     | Ok r => inl r
     | Raise _ =>
         inr (Some (error_text (attempt create messages (Z.of_nat (a + k)))))
     end,
     log ++ replicate (S k) messages).
Proof.
  induction k as [|k IH]; intros a n last_error log Hlt Hre Hdec.
  - destruct n as [|n]; [lia|]. simpl.
    replace (a + 0)%nat with a in * by lia.
    pose proof (attempt_once_decisive _ Hdec) as Hd.
    destruct (final_result (attempt create messages (Z.of_nat a)));
      rewrite Hd; reflexivity.
  - destruct n as [|n]; [lia|]. simpl.
    assert (Hr0 : retriable (attempt create messages (Z.of_nat a)) = true).
    { specialize (Hre 0%nat). replace (a + 0)%nat with a in Hre by lia.
      apply Hre. lia. }
    assert (Hstep :
      retry_loop create messages max_retries (Z.of_nat <$> seq (S a) n)
        (Some (error_text (attempt create messages (Z.of_nat a))))
        (log ++ [messages])
      = (match final_result (attempt create messages (Z.of_nat (a + S k)))
         with
         | Ok r => inl r
         | Raise _ =>
             inr (Some (error_text
                          (attempt create messages (Z.of_nat (a + S k)))))
         end,
         log ++ replicate (S (S k)) messages)).
    { rewrite (IH (S a) n _ (log ++ [messages])).
      - replace (S a + k)%nat with (a + S k)%nat by lia.
        rewrite <- app_assoc. reflexivity.
      - lia.
      - intros j Hj. replace (S a + j)%nat with (a + S j)%nat by lia.
        apply Hre. lia.
      - replace (S a + k)%nat with (a + S k)%nat by lia. exact Hdec. }
    destruct (attempt_once_retriable _ Hr0) as [-> | ->]; exact Hstep.
Qed.

(** When every result is retriable the loop uses the whole range. *)
Lemma retry_loop_exhausted n : forall a last_error log,
  (forall j, (j < n)%nat ->
     retriable (attempt create messages (Z.of_nat (a + j))) = true) ->
  retry_loop create messages max_retries (Z.of_nat <$> seq a n) last_error log
  = (inr (match n with
          | O => last_error
          | S m =>
              Some (error_text (attempt create messages (Z.of_nat (a + m))))
          end),
     log ++ replicate n messages).
Proof.
  induction n as [|n IH]; intros a last_error log Hre.
  - simpl. rewrite app_nil_r. reflexivity.
  - simpl.
    assert (Hr0 : retriable (attempt create messages (Z.of_nat a)) = true).
    { specialize (Hre 0%nat). replace (a + 0)%nat with a in Hre by lia.
      apply Hre. lia. }
    assert (Hstep :
      retry_loop create messages max_retries (Z.of_nat <$> seq (S a) n)
        (Some (error_text (attempt create messages (Z.of_nat a))))
        (log ++ [messages])
      = (inr (Some (error_text
                      (attempt create messages (Z.of_nat (a + n))))),
         log ++ messages :: replicate n messages)).
    { rewrite IH.
      - rewrite <- app_assoc. simpl.
        destruct n as [|m].
        + by replace (a + 0)%nat with a by lia.
        + by replace (S (a + m)) with (a + S m)%nat by lia.
      - intros j Hj. replace (S a + j)%nat with (a + S j)%nat by lia.
        apply Hre. lia. }
    destruct (attempt_once_retriable _ Hr0) as [-> | ->]; exact Hstep.
Qed.

(** C4, amended: the retry classification of [_call_chat_api].
    An attempt is retriable when it raises a connection error or any
    other [APIError] of the provider; a rate limit error, an exception
    outside the API error classes, and a reply end the loop at once. The
    call stops at the first attempt that is not retriable, returning its
    reply (or the summarized HTTP 500 error), and makes at most
    [max_retries] further attempts, each with the same messages; when
    every attempt is retriable it fails with the last error text, cut to
    100 characters. *)
Theorem call_chat_api_policy :
  0 <= max_retries ->
  (forall k : nat,
     Z.of_nat k <= max_retries ->
     (forall j : nat, (j < k)%nat ->
        retriable (attempt create messages (Z.of_nat j)) = true) ->
     retriable (attempt create messages (Z.of_nat k)) = false ->
     _call_chat_api create messages max_retries
     = (final_result (attempt create messages (Z.of_nat k)),
        replicate (S k) messages))
  /\ ((forall j : nat, Z.of_nat j <= max_retries ->
         retriable (attempt create messages (Z.of_nat j)) = true) ->
      _call_chat_api create messages max_retries
      = (Raise (turn_failure
                  (Some (error_text (attempt create messages max_retries)))),
         replicate (S (Z.to_nat max_retries)) messages)).
Proof.
  intros Hmr. unfold _call_chat_api, range.
  replace (Z.to_nat (max_retries + 1)) with (S (Z.to_nat max_retries)) by lia.
  split.
  - intros k Hk Hre Hdec.
    rewrite (retry_loop_decisive k 0 (S (Z.to_nat max_retries)) None []);
      simpl; auto; [|lia].
    pose proof Hdec as Hdec'. unfold retriable in Hdec'.
    destruct (attempt create messages (Z.of_nat k)) as [r|[] msg];
      simpl in *; try discriminate; reflexivity.
  - intros Hre.
    rewrite (retry_loop_exhausted (S (Z.to_nat max_retries)) 0 None []);
      simpl.
    + rewrite Z2Nat.id by lia. reflexivity.
    + intros j Hj. apply Hre. lia.
Qed.

End RetryLoop.

Section RetryPolicy.
Import Py Chat.

(** C4 as stated fails: a provider error that is neither a rate limit nor
    a connection error is not always fatal. An [APIError] on the first
    attempt is followed by a second attempt, whose reply is returned. *)
Lemma other_provider_error_is_retried :
  ~ (forall (env : Env) (create : provider) (messages : list api_message)
            (msg : string),
       create 0 messages = Fails APIError msg ->
       _call_chat_api create messages API_MAX_RETRIES
       = (Raise (turn_failure (Some msg)), [messages])).
Proof.
  intros H.
  specialize (H plain_env flaky_api [] "Internal server error"%string eq_refl).
  vm_compute in H. discriminate H.
Qed.

Lemma call_chat_api_policy_witness :
  @_call_chat_api plain_env flaky_api [] API_MAX_RETRIES
  = (Ok "hi"%string, [[]; []])
  /\ @_call_chat_api plain_env rate_limited_api [] API_MAX_RETRIES
     = (Raise (turn_failure (Some "Rate limit reached"%string)), [[]])
  /\ @_call_chat_api plain_env unreachable_api [] API_MAX_RETRIES
     = (Raise (turn_failure (Some "Connection error."%string)), [[]; []; []]).
Proof.
  assert (H2 : 0 <= API_MAX_RETRIES) by (unfold API_MAX_RETRIES; lia).
  split; [|split].
  - apply (proj1 (@call_chat_api_policy plain_env flaky_api []
                    API_MAX_RETRIES H2) 1%nat).
    + unfold API_MAX_RETRIES; lia.
    + intros j Hj. assert (j = 0%nat) as -> by lia. reflexivity.
    + reflexivity.
  - apply (proj1 (@call_chat_api_policy plain_env rate_limited_api []
                    API_MAX_RETRIES H2) 0%nat).
    + unfold API_MAX_RETRIES; lia.
    + intros j Hj. lia.
    + reflexivity.
  - apply (proj2 (@call_chat_api_policy plain_env unreachable_api []
                    API_MAX_RETRIES H2)).
    intros j _. reflexivity.
Defined.

End RetryPolicy.

(** ** Step completion *)

Section StepCompletion.
Import Py Chat.

Lemma complete_step_found sid n (cs : sessions) session :
  cs !! sid = Some session ->
  exists resp,
    complete_step sid n cs
    = (Ok resp, <[sid := complete_step_session n session]> cs)
    /\ next_step resp = current_step (complete_step_session n session).
Proof.
  intros Hs. unfold complete_step, _get_session. rewrite Hs.
  eexists. split; reflexivity.
Qed.

Lemma complete_step_session_total n session :
  total_steps (complete_step_session n session) = total_steps session.
Proof.
  destruct session. unfold complete_step_session. simpl.
  repeat case_bool_decide; simpl in *; (reflexivity || contradiction).
Qed.

Lemma complete_step_session_completed n session :
  completed_steps (complete_step_session n session)
  = if bool_decide (n ∈ completed_steps session)
    then completed_steps session
    else completed_steps session ++ [n].
Proof.
  destruct session. unfold complete_step_session. simpl.
  repeat case_bool_decide; simpl in *; (reflexivity || contradiction).
Qed.

Lemma complete_step_session_current n session :
  current_step (complete_step_session n session)
  = if bool_decide (n < total_steps session)
    then n + 1
    else current_step session.
Proof.
  destruct session. unfold complete_step_session. simpl.
  repeat case_bool_decide; simpl in *; (reflexivity || contradiction).
Qed.

(** Two calls in a row do what one call does. *)
Lemma complete_step_session_idem n session :
  complete_step_session n (complete_step_session n session)
  = complete_step_session n session.
Proof.
  destruct session as [r c t st done h i ca].
  unfold complete_step_session; simpl.
  destruct (decide (n ∈ done)) as [Hin|Hin],
           (decide (n < t)) as [Hlt|Hlt];
    repeat first
      [ rewrite (bool_decide_eq_true_2 (n ∈ done)) by done
      | rewrite (bool_decide_eq_false_2 (n ∈ done)) by done
      | rewrite (bool_decide_eq_true_2 (n < t)) by done
      | rewrite (bool_decide_eq_false_2 (n < t)) by done
      | rewrite (bool_decide_eq_true_2 (n ∈ done ++ [n])) by set_solver
      | progress simpl ];
    reflexivity.
Qed.

(** With a step number in range, [complete_step] keeps the invariant. *)
Lemma complete_step_session_invariant n session :
  step_in_range session n ->
  session_invariant session ->
  session_invariant (complete_step_session n session).
Proof.
  unfold session_invariant, step_in_range.
  intros Hn [Hcur Hdone].
  rewrite complete_step_session_current, complete_step_session_completed.
  setoid_rewrite complete_step_session_total.
  split.
  - case_bool_decide; lia.
  - case_bool_decide; [exact Hdone|].
    apply Forall_app. split; [exact Hdone|]. by apply Forall_singleton.
Qed.

(** C1, at the failing inputs: [complete_step] takes any integer. On a
    session started from a three-step recipe, which satisfies the
    invariant, completing step 7 succeeds and records 7 as completed;
    completing step -4 succeeds and moves [current_step] to -3. In both
    cases the call returns normally and the invariant is broken. *)
Theorem complete_step_accepts_out_of_range :
  (forall session, started 3 !! "s1"%string = Some session ->
     session_invariant session /\ total_steps session = 3)
  /\ is_ok (complete_step "s1" 7 (started 3)).1 = true
  /\ completed_steps <$> (complete_step "s1" 7 (started 3)).2 !! "s1"%string
     = Some [7]
  /\ is_ok (complete_step "s1" (-4) (started 3)).1 = true
  /\ current_step <$> (complete_step "s1" (-4) (started 3)).2 !! "s1"%string
     = Some (-3)
  /\ (forall session,
        (complete_step "s1" 7 (started 3)).2 !! "s1"%string = Some session
        \/ (complete_step "s1" (-4) (started 3)).2 !! "s1"%string
           = Some session ->
        ~ session_invariant session).
Proof.
  split; [|split; [|split; [|split; [|split]]]].
  - intros session Hs. vm_compute in Hs. injection Hs as <-.
    split; [|reflexivity].
    split; [unfold step_in_range; simpl; lia | constructor].
  - vm_compute. reflexivity.
  - vm_compute. reflexivity.
  - vm_compute. reflexivity.
  - vm_compute. reflexivity.
  - intros session [Hs | Hs]; vm_compute in Hs; injection Hs as <-;
      intros [Hcur Hdone]; unfold step_in_range in *; simpl in *.
    + apply Forall_inv in Hdone. simpl in Hdone. lia.
    + lia.
Qed.

(** C3 as stated fails: completing an already completed step does move
    [current_step]. After steps 2 and 1 of a three-step recipe were
    completed, [current_step] is 2 and step 2 is in [completed_steps];
    completing step 2 again sets [current_step] to 3. *)
Lemma repeated_completion_moves_current_step :
  ~ (forall (cs : sessions) (sid : string) (n : Z) (session : Session),
       cs !! sid = Some session ->
       n ∈ completed_steps session ->
       current_step <$> (complete_step sid n cs).2 !! sid
       = Some (current_step session)).
Proof.
  intros H.
  pose (cs := (complete_step "s1" 1 (complete_step "s1" 2 (started 3)).2).2).
  specialize (H cs "s1"%string 2
    (mkSession (sample_recipe 3) 2 3 (replicate 3 sample_step) [2; 1] [] [] 0)).
  assert (Hcs : cs !! "s1"%string
    = Some (mkSession (sample_recipe 3) 2 3 (replicate 3 sample_step)
                      [2; 1] [] [] 0)) by (vm_compute; reflexivity).
  specialize (H Hcs). simpl in H.
  assert (Hin : (2:Z) ∈ [2; 1]) by (apply list_elem_of_here).
  specialize (H Hin). vm_compute in H. discriminate H.
Qed.

(** C3, amended: completing a step that is already in [completed_steps]
    leaves [completed_steps] as it is (so no duplicate appears), and sets
    [current_step] to [step_number + 1] whenever
    [step_number < total_steps], whatever it was before; repeating the
    same call right away changes nothing more. *)
Theorem complete_step_again (cs : sessions) (sid : string) (n : Z)
    (session : Session) :
  cs !! sid = Some session ->
  n ∈ completed_steps session ->
  exists resp session',
    complete_step sid n cs = (Ok resp, <[sid := session']> cs)
    /\ completed_steps session' = completed_steps session
    /\ (NoDup (completed_steps session) -> NoDup (completed_steps session'))
    /\ current_step session'
       = (if bool_decide (n < total_steps session)
          then n + 1 else current_step session)
    /\ (complete_step sid n (<[sid := session']> cs)).2
       = <[sid := session']> cs.
Proof.
  intros Hs Hin.
  destruct (complete_step_found sid n cs session Hs) as (resp & Hc & _).
  exists resp, (complete_step_session n session).
  assert (Hdone : completed_steps (complete_step_session n session)
                  = completed_steps session).
  { rewrite complete_step_session_completed. by rewrite bool_decide_eq_true_2. }
  split; [exact Hc|]. split; [exact Hdone|].
  split; [by rewrite Hdone|].
  split; [apply complete_step_session_current|].
  destruct (complete_step_found sid n
              (<[sid := complete_step_session n session]> cs)
              (complete_step_session n session)) as (resp' & Hc' & _).
  { apply lookup_insert_eq. }
  rewrite Hc'. simpl. rewrite insert_insert_eq.
  by rewrite complete_step_session_idem.
Qed.

Lemma complete_step_again_witness :
  exists resp session',
    complete_step "s1" 2 (complete_step "s1" 2 (started 3)).2
    = (Ok resp, <["s1"%string := session']> (complete_step "s1" 2 (started 3)).2)
    /\ completed_steps session' = [2]
    /\ current_step session' = 3.
Proof.
  destruct (complete_step_again (complete_step "s1" 2 (started 3)).2 "s1" 2
              (mkSession (sample_recipe 3) 3 3 (replicate 3 sample_step)
                         [2] [] [] 0))
    as (resp & session' & Hc & Hdone & _ & Hcur & _).
  - vm_compute. reflexivity.
  - apply list_elem_of_here.
  - exists resp, session'. split; [exact Hc|]. split; [exact Hdone|].
    exact Hcur.
Defined.

End StepCompletion.

(** ** The chat turn *)

Section ChatTurn.
Import Py Chat.
Context `{Env}.


Lemma validate_step_number_raises n total :
  ~ (1 <= n <= total) ->
  _validate_step_number n total
  = Raise (HTTPException 400 "잘못된 단계 번호입니다.").
Proof.
  intros Hn. unfold _validate_step_number.
  rewrite bool_decide_eq_true_2; [reflexivity | lia].
Qed.


Lemma commit_turn_history now request reply session :
  chat_history (commit_turn now request reply session)
  = chat_history session
    ++ [user_entry request; assistant_entry reply (step_number request)].
Proof.
  unfold commit_turn. simpl. rewrite <- app_assoc. reflexivity.
Qed.

(** A turn whose step number is out of range is rejected with no request
    sent and the table untouched: the chat path validates what
    [complete_step] does not. *)
Lemma send_message_rejects_bad_step create now request
    (cs : sessions) session :
  cs !! session_id request = Some session ->
  ~ (1 <= step_number request <= Z.of_nat (length (steps session))) ->
  exists e, send_message create now request cs = (Raise e, cs, []).
Proof.
  intros Hs Hn. unfold send_message.
  destruct (check_image (image_base64 request)); [|eauto].
  unfold _get_session. rewrite Hs.
  rewrite validate_step_number_raises by exact Hn. eauto.
Qed.

Lemma get_step_detail_rejects_bad_step sid n (cs : sessions) session :
  cs !! sid = Some session ->
  ~ (1 <= n <= Z.of_nat (length (steps session))) ->
  get_step_detail sid n cs
  = Raise (HTTPException 400 "잘못된 단계 번호입니다.").
Proof.
  intros Hs Hn. unfold get_step_detail, _get_session. rewrite Hs.
  cbn [mbind result_bind bind].
  by rewrite validate_step_number_raises by exact Hn.
Qed.

(** A committed turn keeps the invariant of a session whose [total_steps]
    is the length of its step list. *)
Lemma commit_turn_invariant now request reply session :
  total_steps session = Z.of_nat (length (steps session)) ->
  1 <= step_number request <= Z.of_nat (length (steps session)) ->
  session_invariant session ->
  session_invariant (commit_turn now request reply session).
Proof.
  unfold session_invariant, step_in_range, commit_turn. simpl.
  intros Htot Hn [_ Hdone]. split; [lia | exact Hdone].
Qed.

(** Whatever a turn raises, it raises before the table is written. *)
Lemma send_message_failure_frame create now request (cs cs' : sessions) e log :
  send_message create now request cs = (Raise e, cs', log) -> cs' = cs.
Proof.
  unfold send_message.
  destruct (check_image (image_base64 request)); [|congruence].
  destruct (_get_session cs (session_id request)); [|congruence].
  destruct (_validate_step_number _ _); [|congruence].
  destruct (getitem _ _); [|congruence].
  destruct (_call_chat_api _ _ _) as [[reply|e'] log']; congruence.
Qed.


(** C9: a turn whose image decodes to more than 10 MB is rejected with
    HTTP 400 before the session is even looked up: no request is sent to
    the provider and the session table is returned as it was. *)
Theorem oversized_image_rejected create now request (cs : sessions)
    (data : string) (image_bytes : list Byte.byte) :
  image_base64 request = Some data ->
  data <> ""%string ->
  b64decode data = Some image_bytes ->
  Z.of_nat (length image_bytes) > 10 * 1024 * 1024 ->
  exists detail,
    send_message create now request cs
    = (Raise (HTTPException 400 detail), cs, []).
Proof.
  intros Himg Hne Hdec Hsize.
  unfold send_message, check_image, truthy. rewrite Himg. simpl.
  rewrite bool_decide_eq_false_2 by exact Hne. simpl. rewrite Hdec.
  unfold _validate_image_size.
  rewrite bool_decide_eq_true_2 by exact Hsize. eauto.
Qed.

(** The multipart variant checks the raw upload first. *)
Lemma oversized_upload_rejected create now sid n text contents
    (cs : sessions) :
  Z.of_nat (length contents) > 10 * 1024 * 1024 ->
  exists detail,
    send_message_with_image create now sid n text (Some contents) cs
    = (Raise (HTTPException 400 detail), cs, []).
Proof.
  intros Hsize. unfold send_message_with_image, _validate_image_size.
  rewrite bool_decide_eq_true_2 by exact Hsize. eauto.
Qed.

End ChatTurn.

Section ChatTurnWitnesses.
Import Py Chat.

Lemma image_15mb_length : Z.of_nat (length image_15mb) = 15728640.
Proof. unfold image_15mb. rewrite length_replicate. apply N_nat_Z. Qed.


Lemma oversized_image_rejected_witness :
  exists detail,
    @send_message (sample_env image_15mb) (echo_api "unused") 5
      (mkChatReq "s1" 1 "Is this done?" (Some "AAAA"%string)) (started 3)
    = (Raise (HTTPException 400 detail), started 3, []).
Proof.
  apply (@oversized_image_rejected (sample_env image_15mb) (echo_api "unused")
           5 (mkChatReq "s1" 1 "Is this done?" (Some "AAAA"%string))
           (started 3) "AAAA"%string image_15mb).
  - reflexivity.
  - discriminate.
  - reflexivity.
  - rewrite image_15mb_length. lia.
Defined.

End ChatTurnWitnesses.

(** ** The job table *)

Section OrderedDictFacts.
Import Py Analyze.
Context {V : Type}.
Implicit Types (d : list (string * V)) (k : string) (v : V).

Lemma od_get_None k d : od_get k d = None <-> k ∉ d.*1.
Proof.
  induction d as [|[k' v'] d IH]; simpl.
  - split; [intros _; apply not_elem_of_nil | done].
  - rewrite not_elem_of_cons. destruct (decide (k = k')) as [->|Hne].
    + split; [done | intros [? _]; done].
    + rewrite IH. tauto.
Qed.

Lemma od_mem_true k d : od_mem k d = true <-> is_Some (od_get k d).
Proof.
  unfold od_mem. rewrite bool_decide_eq_true.
  destruct (od_get k d) as [v|] eqn:Hg.
  - split; [eauto|]. intros _.
    destruct (decide (k ∈ d.*1)) as [|Hn]; [done|].
    apply od_get_None in Hn. congruence.
  - apply od_get_None in Hg. split; [done | intros [? ?]; done].
Qed.

Lemma od_mem_false k d : od_mem k d = false <-> od_get k d = None.
Proof. unfold od_mem. rewrite bool_decide_eq_false. symmetry. apply od_get_None. Qed.

Lemma od_get_set_eq k v d : od_get k (od_set k v d) = Some v.
Proof.
  induction d as [|[k' v'] d IH]; simpl.
  - by rewrite decide_True.
  - destruct (decide (k = k')) as [->|Hne]; simpl.
    + by rewrite decide_True.
    + by rewrite decide_False.
Qed.

Lemma od_get_set_ne k k' v d :
  k <> k' -> od_get k' (od_set k v d) = od_get k' d.
Proof.
  intros Hne. induction d as [|[k'' v''] d IH]; simpl.
  - by rewrite decide_False.
  - destruct (decide (k = k'')) as [->|Hne']; simpl.
    + by rewrite !decide_False.
    + destruct (decide (k' = k'')); [done | exact IH].
Qed.

Lemma od_set_fresh k v d : k ∉ d.*1 -> od_set k v d = d ++ [(k, v)].
Proof.
  induction d as [|[k' v'] d IH]; simpl; [done|].
  rewrite not_elem_of_cons. intros [Hne Hn].
  rewrite decide_False by done. by rewrite IH.
Qed.

Lemma od_set_keys k v d : k ∈ d.*1 -> (od_set k v d).*1 = d.*1.
Proof.
  induction d as [|[k' v'] d IH]; simpl.
  - intros Hin. by apply elem_of_nil in Hin.
  - intros Hin. destruct (decide (k = k')) as [->|Hne]; simpl; [done|].
    apply elem_of_cons in Hin as [?|Hin]; [done|]. f_equal. by apply IH.
Qed.

Lemma od_del_head k v d : od_del k ((k, v) :: d) = d.
Proof. simpl. by rewrite decide_True. Qed.

Lemma od_del_keys k d : NoDup d.*1 -> k ∉ (od_del k d).*1.
Proof.
  induction d as [|[k' v'] d IH]; simpl.
  - intros _. apply not_elem_of_nil.
  - intros Hnd. apply NoDup_cons in Hnd as [Hk' Hnd].
    destruct (decide (k = k')) as [->|Hne]; simpl; [done|].
    rewrite not_elem_of_cons. split; [done | by apply IH].
Qed.

Lemma od_del_get_ne k k' d : k <> k' -> od_get k' (od_del k d) = od_get k' d.
Proof.
  intros Hne. induction d as [|[k'' v''] d IH]; simpl; [done|].
  destruct (decide (k = k'')) as [->|Hne']; simpl.
  - by rewrite decide_False.
  - destruct (decide (k' = k'')); [done | exact IH].
Qed.

End OrderedDictFacts.

Section JobTable.
Import Py Analyze.

Lemma update_job_absent now job_id kwargs jm :
  get_job job_id jm = None -> update_job now job_id kwargs jm = Ok jm.
Proof.
  unfold get_job, update_job. intros Hg.
  apply od_mem_false in Hg. by rewrite Hg.
Qed.

Lemma update_job_present now job_id kwargs jm j :
  get_job job_id jm = Some j ->
  update_job now job_id kwargs jm
  = Ok (set_jobs (od_set job_id
                    (<["updated_at"%string := VDatetime now]> (kwargs ∪ j))
                    (_jobs jm)) jm).
Proof.
  unfold get_job, update_job. intros Hg.
  assert (Hm : od_mem job_id (_jobs jm) = true) by (apply od_mem_true; eauto).
  by rewrite Hm, Hg.
Qed.

(** [update_job] never raises. *)
Lemma update_job_total now job_id kwargs jm :
  exists jm', update_job now job_id kwargs jm = Ok jm'.
Proof.
  destruct (get_job job_id jm) as [j|] eqn:Hg.
  - rewrite (update_job_present _ _ _ _ _ Hg). eauto.
  - rewrite (update_job_absent _ _ _ _ Hg). eauto.
Qed.

(** A record present before an update is present after it. *)
Lemma update_job_keeps now job_id kwargs jm jm' other :
  update_job now job_id kwargs jm = Ok jm' ->
  is_Some (get_job other jm) -> is_Some (get_job other jm').
Proof.
  intros Hu Hs. destruct (get_job job_id jm) as [j|] eqn:Hg.
  - rewrite (update_job_present _ _ _ _ _ Hg) in Hu. injection Hu as <-.
    unfold get_job in *. simpl.
    destruct (decide (job_id = other)) as [->|Hne].
    + rewrite od_get_set_eq. eauto.
    + by rewrite od_get_set_ne.
  - rewrite (update_job_absent _ _ _ _ Hg) in Hu. by injection Hu as <-.
Qed.

Lemma delete_job_absent job_id jm :
  NoDup (_jobs jm).*1 -> get_job job_id (delete_job job_id jm).2 = None.
Proof.
  intros Hnd. unfold delete_job, get_job.
  destruct (od_mem job_id (_jobs jm)) eqn:Hm; simpl.
  - apply od_get_None. by apply od_del_keys.
  - by apply od_mem_false.
Qed.

End JobTable.

(** ** The pipeline *)

Section PipelineRules.
Import Py Analyze.
Context `{Env}.

Lemma spec_ret {A} (P : world -> Prop) (a : A) Q R :
  (forall w, P w -> Q a w) -> spec P (mret a) Q R.
Proof. intros HQ w HP. simpl. unfold mret, M_ret. by apply HQ. Qed.

Lemma spec_bind {A B} (P : world -> Prop) (m : M A) (k : A -> M B) Q Q' R :
  spec P m Q R -> (forall a, spec (Q a) (k a) Q' R) -> spec P (m ≫= k) Q' R.
Proof.
  intros Hm Hk w HP. specialize (Hm w HP).
  unfold mbind, M_bind. destruct (m w) as [[a|e] w']; [|exact Hm].
  by apply Hk.
Qed.

Lemma spec_lift {A} (P : world -> Prop) (r : result exn A) Q R :
  (forall w, P w -> match r with Ok a => Q a w | Raise e => R e w end) ->
  spec P (lift r) Q R.
Proof.
  intros Hr w HP. specialize (Hr w HP). unfold lift. by destruct r.
Qed.

Lemma spec_raise {A} (P : world -> Prop) (e : exn) (Q : A -> _) R :
  (forall w, P w -> R e w) -> spec P (raise e) Q R.
Proof. intros Hr w HP. unfold raise. by apply Hr. Qed.

Lemma spec_time (P : world -> Prop) Q R :
  (forall w, P w -> Q (time_time (time_reads w)) (after_time_read w)) ->
  spec P time_time_now Q R.
Proof. intros HQ w HP. unfold time_time_now. by apply HQ. Qed.

(** The rules at an invariant. *)
Lemma spec_bind_inv {A B} (P : world -> Prop) (m : M A) (k : A -> M B) Q R :
  spec P m (fun _ => P) R -> (forall a, spec P (k a) Q R) ->
  spec P (m ≫= k) Q R.
Proof. intros Hm Hk. by apply (spec_bind P m k (fun _ => P)). Qed.

Lemma spec_time_inv (P : world -> Prop) R :
  (forall w, P w -> P (after_time_read w)) ->
  spec P time_time_now (fun _ => P) R.
Proof. intros Ht. by apply spec_time. Qed.

Lemma spec_elapsed_since (P : world -> Prop) start R :
  (forall w, P w -> P (after_time_read w)) ->
  spec P (elapsed_since start) (fun _ => P) R.
Proof.
  intros Ht. unfold elapsed_since.
  apply spec_bind_inv; [by apply spec_time_inv|].
  intros t. apply spec_ret. auto.
Qed.

(** The state after [job_manager.update_job(job_id, **kwargs)], which
    always returns. *)
Lemma update_run job_id kwargs w :
  exists jm' reads,
    update_job (datetime_now (datetime_reads w)) job_id kwargs (job_manager w)
    = Ok jm'
    /\ job_manager_update_job job_id kwargs w
       = (Ok tt, mkWorld jm' reads (time_reads w)
                         (update_calls w ++ [(job_id, kwargs)])).
Proof.
  unfold job_manager_update_job.
  destruct (update_job_total (datetime_now (datetime_reads w)) job_id kwargs
              (job_manager w)) as [jm' Hu].
  rewrite Hu. eauto.
Qed.

(** The stages under an invariant [P] that the clock readings and the
    writes without a [result] keep: if the suite raises, [P] still holds;
    if it returns, the last thing it did was the write of
    [completed_fields]. *)
Lemma pipeline_stages_spec (P : world -> Prop) (Q : world -> Prop)
    job_id url job_dir total_start :
  (forall w, P w -> P (after_time_read w)) ->
  (forall kwargs, kwargs !! "result"%string = None ->
     spec P (job_manager_update_job job_id kwargs)
          (fun _ => P) (fun _ => P)) ->
  (forall recipe video_info transcript timing,
     spec P (job_manager_update_job job_id
               (completed_fields recipe video_info transcript timing))
          (fun _ => Q) (fun _ => P)) ->
  spec P (pipeline_stages job_id url job_dir total_start)
       (fun _ => Q) (fun _ => P).
Proof.
  intros Ht Hu Hfinal.
  assert (Hr : forall A (r : result exn A),
             spec P (lift r) (fun _ => P) (fun _ => P)).
  { intros A r. apply spec_lift. intros w HP. by destruct r. }
  unfold pipeline_stages.
  apply spec_bind_inv; [by apply spec_time_inv|]. intros step_start1.
  apply spec_bind_inv.
  { unfold _step_download.
    apply spec_bind_inv; [apply Hu; reflexivity|]. intros _.
    apply spec_bind_inv; [apply Hr|]. intros video_info.
    apply spec_bind_inv; [apply Hu; reflexivity|]. intros _.
    apply spec_ret. auto. }
  intros video_info.
  apply spec_bind_inv; [apply spec_elapsed_since; exact Ht|]. intros d1.
  apply spec_bind_inv; [by apply spec_time_inv|]. intros step_start2.
  apply spec_bind_inv; [apply Hr|]. intros audio_path.
  apply spec_bind_inv.
  { unfold _step_extract_transcript.
    apply spec_bind_inv; [apply Hu; reflexivity|]. intros _.
    apply spec_bind_inv; [apply Hr|]. intros transcript.
    apply spec_bind_inv; [apply Hr|]. intros valid.
    apply spec_bind_inv.
    { destruct valid; [apply spec_ret | apply spec_raise]; auto. }
    intros _.
    apply spec_bind_inv; [apply Hu; reflexivity|]. intros _.
    apply spec_ret. auto. }
  intros [transcript transcript_source].
  apply spec_bind_inv; [apply spec_elapsed_since; exact Ht|]. intros d2.
  apply spec_bind_inv; [by apply spec_time_inv|]. intros step_start3.
  apply spec_bind_inv.
  { unfold _step_parse_recipe.
    apply spec_bind_inv; [apply Hu; reflexivity|]. intros _.
    apply spec_bind_inv; [apply Hr|]. intros recipe.
    apply spec_bind_inv; [apply Hu; reflexivity|]. intros _.
    apply spec_ret. auto. }
  intros recipe.
  apply spec_bind_inv; [apply spec_elapsed_since; exact Ht|]. intros d3.
  apply spec_bind_inv; [apply spec_elapsed_since; exact Ht|]. intros d4.
  apply Hfinal.
Qed.

End PipelineRules.

Section PipelineRuns.
Import Py Analyze.
Context `{Env}.

Lemma bind_run {A B} (m : M A) (k : A -> M B) w :
  (m ≫= k) w
  = match m w with
    | (Ok a, w') => k a w'
    | (Raise e, w') => (Raise e, w')
    end.
Proof. reflexivity. Qed.

Lemma keeps_refl w : keeps w w.
Proof. by intros job_id. Qed.

Lemma keeps_trans w1 w2 w3 : keeps w1 w2 -> keeps w2 w3 -> keeps w1 w3.
Proof. intros H12 H23 job_id Hs. by apply H23, H12. Qed.

Lemma keeps_time w : keeps w (after_time_read w).
Proof. by intros job_id. Qed.

(** A write always returns, and keeps every record. *)
Lemma update_keeps job_id kwargs w :
  exists w', job_manager_update_job job_id kwargs w = (Ok tt, w')
             /\ keeps w w'.
Proof.
  destruct (update_run job_id kwargs w) as (jm' & reads & Hu & Hrun).
  eexists. split; [exact Hrun|].
  intros other Hs. simpl. by eapply update_job_keeps.
Qed.

Lemma time_time_now_run w :
  time_time_now w = (Ok (time_time (time_reads w)), after_time_read w).
Proof. reflexivity. Qed.

Lemma elapsed_since_run start w :
  elapsed_since start w
  = (Ok (VFloat (round2 (PrimFloat.sub (time_time (time_reads w)) start))),
     after_time_read w).
Proof. reflexivity. Qed.

(** Each stage returns what its provider returned, or raises. *)
Lemma step_download_run job_id url job_dir w :
  exists w',
    keeps w w'
    /\ _step_download job_id url job_dir w
       = (reraise_as_exception YouTubeDownloadError "영상 다운로드 실패: "
            (download_video url job_dir), w').
Proof.
  unfold _step_download. rewrite bind_run.
  destruct (update_keeps job_id
    (list_to_map
       [("status", VStr "processing"); ("step", VStr "download");
        ("message", VStr "영상 다운로드 중..."); ("progress", VInt 5)]%string) w)
    as (w1 & -> & Hk1).
  rewrite bind_run. unfold lift at 1.
  destruct (reraise_as_exception _ _ _) as [video_info|e]; [|eauto].
  rewrite bind_run.
  destruct (update_keeps job_id
    (list_to_map
       [("message", VStr "다운로드 완료!"); ("progress", VInt 25);
        ("video_info", video_info)]%string) w1) as (w2 & -> & Hk2).
  exists w2. split; [by eapply keeps_trans|reflexivity].
Qed.

Lemma step_extract_transcript_run job_id url job_dir audio_path w :
  exists w',
    keeps w w'
    /\ _step_extract_transcript job_id url job_dir audio_path w
       = (transcript ←
            reraise_as_exception TranscriptionError "음성 인식 실패: "
              (transcribe_audio audio_path);
          valid ← _is_valid_transcript transcript;
          if valid : bool then Ok (transcript, VStr "whisper")
          else Raise (mkExn Exception
                 ("영상에서 텍스트를 추출할 수 없습니다. "
                  ++ "음성이나 자막이 포함된 영상인지 확인해주세요.")),
          w').
Proof.
  unfold _step_extract_transcript. rewrite bind_run.
  destruct (update_keeps job_id
    (list_to_map
       [("step", VStr "stt"); ("message", VStr "음성 인식 중... (Whisper AI)");
        ("progress", VInt 35)]%string) w) as (w1 & -> & Hk1).
  rewrite bind_run. unfold lift at 1.
  destruct (reraise_as_exception _ _ _) as [transcript|e];
    cbn [mbind result_bind bind]; [|eauto].
  rewrite bind_run. unfold lift at 1.
  destruct (_is_valid_transcript transcript) as [[|]|e];
    cbn [mbind result_bind bind]; [| rewrite bind_run; eauto | eauto].
  rewrite bind_run. unfold mret at 1, M_ret at 1. rewrite bind_run.
  destruct (update_keeps job_id
    (list_to_map
       [("message", VStr "텍스트 추출 완료!"); ("progress", VInt 50)]%string) w1)
    as (w2 & -> & Hk2).
  exists w2. split; [by eapply keeps_trans|reflexivity].
Qed.

Lemma step_parse_recipe_run job_id transcript w :
  exists w',
    keeps w w'
    /\ _step_parse_recipe job_id transcript w
       = (reraise_as_exception RecipeParseError "레시피 분석 실패: "
            (parse_recipe transcript), w').
Proof.
  unfold _step_parse_recipe. rewrite bind_run.
  destruct (update_keeps job_id
    (list_to_map
       [("step", VStr "parsing"); ("message", VStr "GPT-4o로 레시피 분석 중...");
        ("progress", VInt 55)]%string) w) as (w1 & -> & Hk1).
  rewrite bind_run. unfold lift at 1.
  destruct (reraise_as_exception _ _ _) as [recipe|e]; [|eauto].
  rewrite bind_run.
  destruct (update_keeps job_id
    (list_to_map
       [("message", VStr "레시피 분석 완료!"); ("progress", VInt 90)]%string) w1)
    as (w2 & -> & Hk2).
  exists w2. split; [by eapply keeps_trans|reflexivity].
Qed.

End PipelineRuns.

Section PipelineOutcome.
Import Py Analyze.
Context `{Env}.

Lemma reraise_ok {A} c prefix (r : result exn A) a :
  reraise_as_exception c prefix r = Ok a -> r = Ok a.
Proof.
  destruct r as [a'|e]; simpl; [done|]. by destruct (issubclass _ _).
Qed.

(** What the suite raises when a provider fails with its own error class:
    an [Exception] whose text names the stage and carries the provider's
    error text. *)
Lemma download_failure_outcome job_id url w err :
  download_video url (job_dir_of job_id) = Raise err ->
  issubclass (cls err) YouTubeDownloadError = true ->
  (stages_outcome job_id url w).1
  = Raise (mkExn Exception ("영상 다운로드 실패: " ++ text err)).
Proof.
  intros Hdl Hcls. unfold stages_outcome, pipeline_stages.
  rewrite bind_run, time_time_now_run. lazy beta iota. rewrite bind_run.
  destruct (step_download_run job_id url (job_dir_of job_id)
              (after_time_read (after_time_read w))) as (w1 & _ & ->).
  rewrite Hdl. simpl. rewrite Hcls. reflexivity.
Qed.

Lemma transcription_failure_outcome job_id url w video_info audio_path err :
  download_video url (job_dir_of job_id) = Ok video_info ->
  subscript video_info "audio_path" = Ok audio_path ->
  transcribe_audio audio_path = Raise err ->
  issubclass (cls err) TranscriptionError = true ->
  (stages_outcome job_id url w).1
  = Raise (mkExn Exception ("음성 인식 실패: " ++ text err)).
Proof.
  intros Hdl Hsub Htr Hcls. unfold stages_outcome, pipeline_stages.
  rewrite bind_run, time_time_now_run. lazy beta iota. rewrite bind_run.
  destruct (step_download_run job_id url (job_dir_of job_id)
              (after_time_read (after_time_read w))) as (w1 & _ & ->).
  rewrite Hdl. cbn [reraise_as_exception].
  rewrite bind_run, elapsed_since_run. lazy beta iota.
  rewrite bind_run, time_time_now_run. lazy beta iota.
  rewrite bind_run. unfold lift at 1. rewrite Hsub.
  rewrite bind_run.
  destruct (step_extract_transcript_run job_id url (job_dir_of job_id)
              audio_path (after_time_read (after_time_read w1)))
    as (w2 & _ & ->).
  rewrite Htr. simpl. rewrite Hcls. reflexivity.
Qed.

Lemma parse_failure_outcome job_id url w video_info audio_path transcript err :
  download_video url (job_dir_of job_id) = Ok video_info ->
  subscript video_info "audio_path" = Ok audio_path ->
  transcribe_audio audio_path = Ok transcript ->
  _is_valid_transcript transcript = Ok true ->
  parse_recipe transcript = Raise err ->
  issubclass (cls err) RecipeParseError = true ->
  (stages_outcome job_id url w).1
  = Raise (mkExn Exception ("레시피 분석 실패: " ++ text err)).
Proof.
  intros Hdl Hsub Htr Hvalid Hpa Hcls. unfold stages_outcome, pipeline_stages.
  rewrite bind_run, time_time_now_run. lazy beta iota. rewrite bind_run.
  destruct (step_download_run job_id url (job_dir_of job_id)
              (after_time_read (after_time_read w))) as (w1 & _ & ->).
  rewrite Hdl. cbn [reraise_as_exception].
  rewrite bind_run, elapsed_since_run. lazy beta iota.
  rewrite bind_run, time_time_now_run. lazy beta iota.
  rewrite bind_run. unfold lift at 1. rewrite Hsub.
  rewrite bind_run.
  destruct (step_extract_transcript_run job_id url (job_dir_of job_id)
              audio_path (after_time_read (after_time_read w1)))
    as (w2 & _ & ->).
  rewrite Htr. cbn [reraise_as_exception mbind result_bind bind].
  rewrite Hvalid. cbn [mbind result_bind bind].
  rewrite bind_run, elapsed_since_run. lazy beta iota.
  rewrite bind_run, time_time_now_run. lazy beta iota.
  rewrite bind_run.
  destruct (step_parse_recipe_run job_id transcript
              (after_time_read (after_time_read w2))) as (w3 & _ & ->).
  rewrite Hpa. simpl. rewrite Hcls. reflexivity.
Qed.

End PipelineOutcome.

Section PipelineClock.
Import Py Analyze.
Context `{Env}.

(** A write keeps every record and does not read [time.time()]. *)
Lemma update_clock job_id kwargs w :
  exists w',
    job_manager_update_job job_id kwargs w = (Ok tt, w')
    /\ keeps w w' /\ time_reads w' = time_reads w.
Proof.
  destruct (update_run job_id kwargs w) as (jm' & reads & Hu & Hrun).
  eexists. split; [exact Hrun|]. split; [|reflexivity].
  intros other Hs. simpl. by eapply update_job_keeps.
Qed.

Lemma step_download_clock job_id url job_dir w :
  exists w',
    keeps w w' /\ time_reads w' = time_reads w
    /\ _step_download job_id url job_dir w
       = (reraise_as_exception YouTubeDownloadError "영상 다운로드 실패: "
            (download_video url job_dir), w').
Proof.
  unfold _step_download. rewrite bind_run.
  destruct (update_clock job_id
    (list_to_map
       [("status", VStr "processing"); ("step", VStr "download");
        ("message", VStr "영상 다운로드 중..."); ("progress", VInt 5)]%string) w)
    as (w1 & -> & Hk1 & Hc1).
  rewrite bind_run. unfold lift at 1.
  destruct (reraise_as_exception _ _ _) as [video_info|e]; [|eauto].
  rewrite bind_run.
  destruct (update_clock job_id
    (list_to_map
       [("message", VStr "다운로드 완료!"); ("progress", VInt 25);
        ("video_info", video_info)]%string) w1) as (w2 & -> & Hk2 & Hc2).
  exists w2. split; [by eapply keeps_trans|].
  split; [congruence|reflexivity].
Qed.

Lemma step_extract_transcript_clock job_id url job_dir audio_path w :
  exists w',
    keeps w w' /\ time_reads w' = time_reads w
    /\ _step_extract_transcript job_id url job_dir audio_path w
       = (transcript ←
            reraise_as_exception TranscriptionError "음성 인식 실패: "
              (transcribe_audio audio_path);
          valid ← _is_valid_transcript transcript;
          if valid : bool then Ok (transcript, VStr "whisper")
          else Raise (mkExn Exception
                 ("영상에서 텍스트를 추출할 수 없습니다. "
                  ++ "음성이나 자막이 포함된 영상인지 확인해주세요.")),
          w').
Proof.
  unfold _step_extract_transcript. rewrite bind_run.
  destruct (update_clock job_id
    (list_to_map
       [("step", VStr "stt"); ("message", VStr "음성 인식 중... (Whisper AI)");
        ("progress", VInt 35)]%string) w) as (w1 & -> & Hk1 & Hc1).
  rewrite bind_run. unfold lift at 1.
  destruct (reraise_as_exception _ _ _) as [transcript|e];
    cbn [mbind result_bind bind]; [|eauto].
  rewrite bind_run. unfold lift at 1.
  destruct (_is_valid_transcript transcript) as [[|]|e];
    cbn [mbind result_bind bind]; [| rewrite bind_run; eauto | eauto].
  rewrite bind_run. unfold mret at 1, M_ret at 1. rewrite bind_run.
  destruct (update_clock job_id
    (list_to_map
       [("message", VStr "텍스트 추출 완료!"); ("progress", VInt 50)]%string) w1)
    as (w2 & -> & Hk2 & Hc2).
  exists w2. split; [by eapply keeps_trans|].
  split; [congruence|reflexivity].
Qed.

Lemma step_parse_recipe_clock job_id transcript w :
  exists w',
    keeps w w' /\ time_reads w' = time_reads w
    /\ _step_parse_recipe job_id transcript w
       = (reraise_as_exception RecipeParseError "레시피 분석 실패: "
            (parse_recipe transcript), w').
Proof.
  unfold _step_parse_recipe. rewrite bind_run.
  destruct (update_clock job_id
    (list_to_map
       [("step", VStr "parsing"); ("message", VStr "GPT-4o로 레시피 분석 중...");
        ("progress", VInt 55)]%string) w) as (w1 & -> & Hk1 & Hc1).
  rewrite bind_run. unfold lift at 1.
  destruct (reraise_as_exception _ _ _) as [recipe|e]; [|eauto].
  rewrite bind_run.
  destruct (update_clock job_id
    (list_to_map
       [("message", VStr "레시피 분석 완료!"); ("progress", VInt 90)]%string) w1)
    as (w2 & -> & Hk2 & Hc2).
  exists w2. split; [by eapply keeps_trans|].
  split; [congruence|reflexivity].
Qed.

Lemma pipeline_stages_timed job_id url job_dir total_start w :
  (pipeline_stages job_id url job_dir total_start w).1 = Ok tt ->
  exists video_info audio_path transcript recipe w',
    download_video url job_dir = Ok video_info
    /\ subscript video_info "audio_path" = Ok audio_path
    /\ transcribe_audio audio_path = Ok transcript
    /\ _is_valid_transcript transcript = Ok true
    /\ parse_recipe transcript = Ok recipe
    /\ keeps w w'
    /\ time_reads w' = (time_reads w + 7)%nat
    /\ pipeline_stages job_id url job_dir total_start w
       = job_manager_update_job job_id
           (completed_fields recipe video_info transcript
              (timing_of
                 (round2 (PrimFloat.sub (time_time (time_reads w + 1))
                                        (time_time (time_reads w))))
                 (round2 (PrimFloat.sub (time_time (time_reads w + 3))
                                        (time_time (time_reads w + 2))))
                 (round2 (PrimFloat.sub (time_time (time_reads w + 5))
                                        (time_time (time_reads w + 4))))
                 (round2 (PrimFloat.sub (time_time (time_reads w + 6))
                                        total_start)))) w'.
Proof.
  unfold pipeline_stages. intros Hok.
  rewrite bind_run, time_time_now_run in Hok |- *.
  lazy beta iota in Hok |- *.
  rewrite bind_run in Hok |- *.
  destruct (step_download_clock job_id url job_dir (after_time_read w))
    as (w1 & Hk1 & Hc1 & Hrun1).
  rewrite Hrun1 in Hok |- *.
  destruct (reraise_as_exception YouTubeDownloadError _ _)
    as [video_info|e] eqn:Hdl; [|discriminate Hok].
  apply reraise_ok in Hdl.
  rewrite bind_run, elapsed_since_run in Hok |- *.
  lazy beta iota in Hok |- *.
  rewrite bind_run, time_time_now_run in Hok |- *.
  lazy beta iota in Hok |- *.
  rewrite bind_run in Hok |- *. unfold lift at 1 in Hok. unfold lift at 1.
  destruct (subscript video_info "audio_path") as [audio_path|e] eqn:Hsub;
    [|discriminate Hok].
  rewrite bind_run in Hok |- *.
  destruct (step_extract_transcript_clock job_id url job_dir audio_path
              (after_time_read (after_time_read w1)))
    as (w2 & Hk2 & Hc2 & Hrun2).
  rewrite Hrun2 in Hok |- *.
  destruct (reraise_as_exception TranscriptionError _ _)
    as [transcript|e] eqn:Htr; cbn [mbind result_bind bind] in Hok |- *;
    [|discriminate Hok].
  apply reraise_ok in Htr.
  destruct (_is_valid_transcript transcript) as [[|]|e] eqn:Hvalid;
    cbn [mbind result_bind bind] in Hok |- *; try discriminate Hok.
  rewrite bind_run, elapsed_since_run in Hok |- *.
  lazy beta iota in Hok |- *.
  rewrite bind_run, time_time_now_run in Hok |- *.
  lazy beta iota in Hok |- *.
  rewrite bind_run in Hok |- *.
  destruct (step_parse_recipe_clock job_id transcript
              (after_time_read (after_time_read w2)))
    as (w3 & Hk3 & Hc3 & Hrun3).
  rewrite Hrun3 in Hok |- *.
  destruct (reraise_as_exception RecipeParseError _ _)
    as [recipe|e] eqn:Hpa; [|discriminate Hok].
  apply reraise_ok in Hpa.
  rewrite bind_run, elapsed_since_run in Hok |- *.
  lazy beta iota in Hok |- *.
  rewrite bind_run, elapsed_since_run in Hok |- *.
  lazy beta iota in Hok |- *.
  exists video_info, audio_path, transcript, recipe,
    (after_time_read (after_time_read w3)).
  do 5 (split; [eassumption|]).
  cbn [after_time_read time_reads] in Hc1, Hc2, Hc3.
  split; [|split].
  - repeat (eapply keeps_trans; [|apply keeps_time]).
    eapply keeps_trans; [|exact Hk3].
    repeat (eapply keeps_trans; [|apply keeps_time]).
    eapply keeps_trans; [|exact Hk2].
    repeat (eapply keeps_trans; [|apply keeps_time]).
    eapply keeps_trans; [|exact Hk1].
    apply keeps_time.
  - cbn [after_time_read time_reads]. rewrite Hc3, Hc2, Hc1. lia.
  - replace (time_reads (after_time_read w3)) with (time_reads w + 6)%nat
      by (cbn [after_time_read time_reads]; lia).
    replace (time_reads w3) with (time_reads w + 5)%nat by lia.
    replace (time_reads (after_time_read w2)) with (time_reads w + 4)%nat
      by (cbn [after_time_read time_reads]; lia).
    replace (time_reads w2) with (time_reads w + 3)%nat by lia.
    replace (time_reads (after_time_read w1)) with (time_reads w + 2)%nat
      by (cbn [after_time_read time_reads]; lia).
    replace (time_reads w1) with (time_reads w + 1)%nat by lia.
    reflexivity.
Qed.

End PipelineClock.

Section PipelineResults.
Import Py Analyze.
Context `{Env}.

(** [process_video] once the working directory exists: the suite of the
    [try] statement, then the handler when an [Exception] was raised. *)
Lemma process_video_run job_id url w :
  mkdir_exist_ok (job_dir_of job_id) = Ok tt ->
  process_video job_id url w
  = match stages_outcome job_id url w with
    | (Ok a, w') => (Ok a, w')
    | (Raise e, w') =>
        if issubclass (cls e) Exception
        then job_manager_update_job job_id (failed_fields (text e)) w'
        else (Raise e, w')
    end.
Proof.
  intros Hmk. unfold process_video, stages_outcome.
  rewrite bind_run. unfold lift at 1. rewrite Hmk.
  rewrite bind_run, time_time_now_run. reflexivity.
Qed.

(** The record after a write that found it. *)
Lemma update_written job_id kwargs w j :
  get_job job_id (job_manager w) = Some j ->
  exists w',
    job_manager_update_job job_id kwargs w = (Ok tt, w')
    /\ get_job job_id (job_manager w')
       = Some (<["updated_at"%string
                 := VDatetime (datetime_now (datetime_reads w))]> (kwargs ∪ j))
    /\ update_calls w' = update_calls w ++ [(job_id, kwargs)].
Proof.
  intros Hg. unfold job_manager_update_job.
  rewrite (update_job_present _ _ _ _ _ Hg).
  eexists. split; [reflexivity|]. split; [|reflexivity].
  unfold get_job. simpl. apply od_get_set_eq.
Qed.

Lemma no_result_yet_time job_id w :
  no_result_yet job_id w -> no_result_yet job_id (after_time_read w).
Proof. done. Qed.

Lemma no_result_yet_update job_id kwargs :
  kwargs !! "result"%string = None ->
  spec (no_result_yet job_id) (job_manager_update_job job_id kwargs)
       (fun _ => no_result_yet job_id) (fun _ => no_result_yet job_id).
Proof.
  intros Hkw w [(j & Hg & Hres) Hcalls].
  destruct (update_written job_id kwargs w j Hg) as (w' & -> & Hg' & Hc').
  split.
  - eexists. split; [exact Hg'|].
    rewrite lookup_insert_ne by done.
    rewrite lookup_union_r by exact Hkw. exact Hres.
  - rewrite Hc'. apply Forall_app. split; [exact Hcalls|].
    by apply Forall_singleton.
Qed.

(** A field of the record that the last write has just set. *)
Ltac written_field :=
  rewrite lookup_insert_ne by done;
  apply lookup_union_Some_l; reflexivity.

(** C6: a run whose stages raise an exception. Started on a record with
    no result attached, with the working directory in place, a run whose
    [try] suite raises an [Exception] [e] returns normally and leaves
    the record with [status = "failed"], [progress = 0], a message that
    ends with the text of [e], and [result] still [None]; no call of
    [update_job] made during the run carried a [result]. *)
Theorem failed_run_marks_job_failed job_id url w e :
  mkdir_exist_ok (job_dir_of job_id) = Ok tt ->
  no_result_yet job_id w ->
  (stages_outcome job_id url w).1 = Raise e ->
  issubclass (cls e) Exception = true ->
  exists w' j',
    process_video job_id url w = (Ok tt, w')
    /\ get_job job_id (job_manager w') = Some j'
    /\ j' !! "status"%string = Some (VStr "failed")
    /\ j' !! "progress"%string = Some (VInt 0)
    /\ j' !! "message"%string = Some (VStr ("오류 발생: " ++ text e))
    /\ j' !! "result"%string = Some VNone
    /\ Forall (fun call => call.2 !! "result"%string = None)
              (update_calls w').
Proof.
  intros Hmk Hstart Hraise Hexc.
  rewrite (process_video_run _ _ _ Hmk).
  assert (Hspec := pipeline_stages_spec (no_result_yet job_id)
            (fun _ => True) job_id url (job_dir_of job_id)
            (time_time (time_reads w)) (no_result_yet_time job_id)
            (no_result_yet_update job_id)).
  unfold stages_outcome in *.
  specialize (Hspec ltac:(
    intros recipe video_info transcript timing w0 _;
    destruct (update_run job_id
      (completed_fields recipe video_info transcript timing) w0)
      as (jm' & reads & _ & ->); exact I)).
  specialize (Hspec (after_time_read w) (no_result_yet_time _ _ Hstart)).
  destruct (pipeline_stages job_id url (job_dir_of job_id)
              (time_time (time_reads w)) (after_time_read w))
    as [[[]|e'] w1]; simpl in Hraise; [discriminate Hraise|].
  injection Hraise as ->. rewrite Hexc.
  destruct Hspec as [(j & Hg & Hres) Hcalls].
  destruct (update_written job_id (failed_fields (text e)) w1 j Hg)
    as (w' & -> & Hg' & Hc').
  exists w'. eexists. split; [reflexivity|]. split; [exact Hg'|].
  split; [written_field|].
  split; [written_field|].
  split; [written_field|].
  split.
  - rewrite lookup_insert_ne by done.
    rewrite lookup_union_r by reflexivity. exact Hres.
  - rewrite Hc'. apply Forall_app. split; [exact Hcalls|].
    by apply Forall_singleton.
Qed.

(** C7: a run whose three stages complete. With the working directory in
    place and the record in the table, a run whose [try] suite returns
    leaves the record with [progress = 100], [status = "completed"],
    [step = "done"] and a [result] holding the recipe, the video info and
    the transcript that the providers returned, together with the
    [timing] dictionary of the run: when the run starts after [k]
    readings of [time.time()], it takes eight readings, and the download,
    transcript and parsing times are the rounded differences of readings
    [k+2] and [k+1], [k+4] and [k+3], [k+6] and [k+5], the total time
    that of readings [k+7] and [k]. *)
Theorem completed_run_records_result job_id url w :
  mkdir_exist_ok (job_dir_of job_id) = Ok tt ->
  is_Some (get_job job_id (job_manager w)) ->
  (stages_outcome job_id url w).1 = Ok tt ->
  exists w' j' video_info audio_path transcript recipe,
    process_video job_id url w = (Ok tt, w')
    /\ get_job job_id (job_manager w') = Some j'
    /\ j' !! "progress"%string = Some (VInt 100)
    /\ j' !! "status"%string = Some (VStr "completed")
    /\ j' !! "step"%string = Some (VStr "done")
    /\ j' !! "result"%string
       = Some (VDict (list_to_map
                 [("recipe", recipe); ("video_info", video_info);
                  ("transcript", transcript);
                  ("timing", VDict (run_timing (time_reads w)))]%string))
    /\ time_reads w' = (time_reads w + 8)%nat
    /\ download_video url (job_dir_of job_id) = Ok video_info
    /\ subscript video_info "audio_path" = Ok audio_path
    /\ transcribe_audio audio_path = Ok transcript
    /\ parse_recipe transcript = Ok recipe.
Proof.
  intros Hmk Hs Hok.
  rewrite (process_video_run _ _ _ Hmk). unfold stages_outcome in *.
  destruct (pipeline_stages_timed _ _ _ _ _ Hok)
    as (video_info & audio_path & transcript & recipe & w1
        & Hdl & Hsub & Htr & _ & Hpa & Hk & Hclock & Hrun).
  rewrite Hrun. cbn [after_time_read time_reads] in Hclock |- *.
  replace (S (time_reads w) + 1)%nat with (time_reads w + 2)%nat by lia.
  replace (S (time_reads w) + 2)%nat with (time_reads w + 3)%nat by lia.
  replace (S (time_reads w) + 3)%nat with (time_reads w + 4)%nat by lia.
  replace (S (time_reads w) + 4)%nat with (time_reads w + 5)%nat by lia.
  replace (S (time_reads w) + 5)%nat with (time_reads w + 6)%nat by lia.
  replace (S (time_reads w) + 6)%nat with (time_reads w + 7)%nat by lia.
  replace (S (time_reads w)) with (time_reads w + 1)%nat by lia.
  fold (elapsed_between (time_reads w + 1) (time_reads w + 2)).
  fold (elapsed_between (time_reads w + 3) (time_reads w + 4)).
  fold (elapsed_between (time_reads w + 5) (time_reads w + 6)).
  fold (elapsed_between (time_reads w) (time_reads w + 7)).
  fold (run_timing (time_reads w)).
  destruct (Hk job_id Hs) as [j Hg].
  destruct (update_written job_id
              (completed_fields recipe video_info transcript
                 (run_timing (time_reads w))) w1 j Hg)
    as (w' & Hw' & Hg' & _).
  destruct (update_clock job_id
              (completed_fields recipe video_info transcript
                 (run_timing (time_reads w))) w1)
    as (w'' & Hw'' & _ & Hclock').
  rewrite Hw' in Hw'' |- *. injection Hw'' as <-.
  exists w'. eexists. exists video_info, audio_path, transcript, recipe.
  split; [reflexivity|]. split; [exact Hg'|].
  split; [written_field|].
  split; [written_field|].
  split; [written_field|].
  split; [written_field|].
  split; [lia|].
  done.
Qed.

(** C8: updating a record that is not in the table. [update_job] returns
    without raising and leaves the table as it is; so does every write of
    a pipeline run, and a whole run of [process_video] on a deleted job
    ends with the table it started with, whatever the providers do. *)
Theorem update_job_missing_is_noop job_id (jm : JobManager) :
  get_job job_id jm = None ->
  (forall now kwargs, update_job now job_id kwargs jm = Ok jm)
  /\ (forall kwargs w, job_manager w = jm ->
        exists w', job_manager_update_job job_id kwargs w = (Ok tt, w')
                   /\ job_manager w' = jm)
  /\ (forall url w, job_manager w = jm ->
        job_manager (process_video job_id url w).2 = jm).
Proof.
  intros Hg.
  assert (Hupd : forall kwargs w, job_manager w = jm ->
            exists w', job_manager_update_job job_id kwargs w = (Ok tt, w')
                       /\ job_manager w' = jm).
  { intros kwargs w Hw. unfold job_manager_update_job.
    rewrite Hw, (update_job_absent _ _ _ _ Hg). eauto. }
  split; [intros now kwargs; by apply update_job_absent|].
  split; [exact Hupd|].
  intros url w Hw.
  assert (Hspec := pipeline_stages_spec (fun w => job_manager w = jm)
            (fun w => job_manager w = jm) job_id url (job_dir_of job_id)
            (time_time (time_reads w))).
  assert (Hsteady : forall kwargs,
            spec (fun w => job_manager w = jm)
                 (job_manager_update_job job_id kwargs)
                 (fun _ w => job_manager w = jm)
                 (fun _ w => job_manager w = jm)).
  { intros kwargs w0 Hw0. by destruct (Hupd kwargs w0 Hw0) as (w' & -> & ?). }
  specialize (Hspec ltac:(done) ltac:(intros; apply Hsteady)
                    ltac:(intros; apply Hsteady) (after_time_read w) Hw).
  unfold process_video. rewrite bind_run. unfold lift at 1.
  destruct (mkdir_exist_ok (job_dir_of job_id)) as [[]|e]; [|exact Hw].
  rewrite bind_run, time_time_now_run. lazy beta iota.
  unfold try_except_Exception.
  destruct (pipeline_stages job_id url (job_dir_of job_id)
              (time_time (time_reads w)) (after_time_read w))
    as [[[]|e] w1]; [exact Hspec|].
  destruct (issubclass (cls e) Exception); [|exact Hspec].
  by destruct (Hupd (failed_fields (text e)) w1 Hspec) as (w' & -> & ?).
Qed.

End PipelineResults.

Section PipelineWitnesses.
Import Py Analyze.

Lemma failed_run_marks_job_failed_witness :
  exists w' j',
    @process_video offline_env "j1" "https://youtu.be/x" (world_of one_job)
    = (Ok tt, w')
    /\ get_job "j1" (job_manager w') = Some j'
    /\ j' !! "status"%string = Some (VStr "failed")
    /\ j' !! "progress"%string = Some (VInt 0)
    /\ j' !! "message"%string
       = Some (VStr ("오류 발생: "
                     ++ text (mkExn Exception
                                "영상 다운로드 실패: Video unavailable")))
    /\ j' !! "result"%string = Some VNone
    /\ Forall (fun call => call.2 !! "result"%string = None)
              (update_calls w').
Proof.
  apply (@failed_run_marks_job_failed offline_env "j1" "https://youtu.be/x"
           (world_of one_job)
           (mkExn Exception "영상 다운로드 실패: Video unavailable")).
  - vm_compute. reflexivity.
  - split; [|constructor].
    exists (new_job "j1" "https://youtu.be/x" "x" 0 0).
    split; [reflexivity | vm_compute; reflexivity].
  - vm_compute. reflexivity.
  - vm_compute. reflexivity.
Defined.

Lemma completed_run_records_result_witness :
  exists w' j' video_info audio_path transcript recipe,
    @process_video ticking_env "j1" "https://youtu.be/x" (world_of one_job)
    = (Ok tt, w')
    /\ get_job "j1" (job_manager w') = Some j'
    /\ j' !! "progress"%string = Some (VInt 100)
    /\ j' !! "status"%string = Some (VStr "completed")
    /\ j' !! "step"%string = Some (VStr "done")
    /\ j' !! "result"%string
       = Some (VDict (list_to_map
                 [("recipe", recipe); ("video_info", video_info);
                  ("transcript", transcript);
                  ("timing",
                   VDict (timing_of 2%float 5%float 7%float 18%float))]%string))
    /\ time_reads w' = (time_reads (world_of one_job) + 8)%nat
    /\ @download_video ticking_env "https://youtu.be/x"
         (@job_dir_of ticking_env "j1") = Ok video_info
    /\ subscript video_info "audio_path" = Ok audio_path
    /\ @transcribe_audio ticking_env audio_path = Ok transcript
    /\ @parse_recipe ticking_env transcript = Ok recipe.
Proof.
  change (timing_of 2%float 5%float 7%float 18%float)
    with (@run_timing ticking_env (time_reads (world_of one_job))).
  apply (@completed_run_records_result ticking_env "j1" "https://youtu.be/x"
           (world_of one_job)).
  - vm_compute. reflexivity.
  - exists (new_job "j1" "https://youtu.be/x" "x" 0 0). reflexivity.
  - vm_compute. reflexivity.
Defined.

Lemma update_job_missing_is_noop_witness :
  (forall now kwargs,
     update_job now "j1" kwargs (delete_job "j1" one_job).2
     = Ok (delete_job "j1" one_job).2)
  /\ (forall kwargs w, job_manager w = (delete_job "j1" one_job).2 ->
        exists w',
          @job_manager_update_job working_env "j1" kwargs w = (Ok tt, w')
          /\ job_manager w' = (delete_job "j1" one_job).2)
  /\ (forall url w, job_manager w = (delete_job "j1" one_job).2 ->
        job_manager (@process_video working_env "j1" url w).2
        = (delete_job "j1" one_job).2).
Proof.
  apply (@update_job_missing_is_noop working_env "j1"
           (delete_job "j1" one_job).2).
  apply delete_job_absent. vm_compute.
  apply NoDup_cons. split; [apply not_elem_of_nil | apply NoDup_nil_2].
Defined.

End PipelineWitnesses.

(** ** The sweep of [create_job] *)

Section Sweep.
Import Py Analyze.
Implicit Types (jobs kept : list (string * job)) (th now : Z).

Lemma od_mem_app_mid {V} k (v : V) (kept rest : list (string * V)) :
  od_mem k (kept ++ (k, v) :: rest) = true.
Proof.
  unfold od_mem. apply bool_decide_eq_true.
  rewrite fmap_app, elem_of_app. right. simpl. apply list_elem_of_here.
Qed.

Lemma od_del_app_mid {V} k (v : V) (kept rest : list (string * V)) :
  k ∉ kept.*1 -> od_del k (kept ++ (k, v) :: rest) = kept ++ rest.
Proof.
  induction kept as [|[k' v'] kept IH]; simpl.
  - intros _. by rewrite decide_True.
  - rewrite not_elem_of_cons. intros [Hne Hn].
    rewrite decide_False by done. by rewrite IH.
Qed.

Lemma is_expired_created now th j t :
  created_at_of j = Some t ->
  is_expired now th j = Ok (bool_decide (t < th)).
Proof.
  unfold created_at_of, is_expired.
  destruct (j !! "created_at"%string) as [[]|]; try discriminate.
  by intros [= ->].
Qed.

Lemma within_window_created th k j t :
  created_at_of j = Some t ->
  within_window th (k, j) = negb (bool_decide (t < th)).
Proof.
  unfold within_window. simpl. intros ->.
  repeat case_bool_decide; simpl; try reflexivity; lia.
Qed.

(** The list comprehension collects the ids of the records outside the
    window. *)
Lemma expired_jobs_filter now th jobs :
  Forall (fun item => is_Some (created_at_of item.2)) jobs ->
  expired_jobs now th jobs
  = Ok (filter (fun item => ~ within_window th item) jobs).*1.
Proof.
  induction jobs as [|[k j] jobs IH]; intros Hc; simpl; [done|].
  apply Forall_cons in Hc as [[t Ht] Hc]. simpl in Ht.
  rewrite (is_expired_created _ _ _ _ Ht), (IH Hc).
  cbn [mbind result_bind bind].
  rewrite filter_cons, (within_window_created _ k _ _ Ht).
  case_bool_decide; simpl; reflexivity.
Qed.

(** The [for] loop removes exactly those records. *)
Lemma delete_expired_filter th jobs : forall kept,
  NoDup (kept ++ jobs).*1 ->
  delete_expired (filter (fun item => ~ within_window th item) jobs).*1
                 (kept ++ jobs)
  = Ok (kept ++ filter (fun item => within_window th item) jobs,
        removal_events
          (filter (fun item => ~ within_window th item) jobs).*1).
Proof.
  induction jobs as [|[k j] jobs IH]; intros kept Hnd; simpl; [done|].
  rewrite !filter_cons.
  destruct (within_window th (k, j)) eqn:Hw; simpl.
  - replace (kept ++ (k, j) :: jobs) with ((kept ++ [(k, j)]) ++ jobs)
      by (by rewrite <- app_assoc).
    rewrite IH by (by rewrite <- app_assoc).
    by rewrite <- app_assoc.
  - rewrite od_mem_app_mid.
    assert (Hk : k ∉ kept.*1).
    { rewrite fmap_app in Hnd. apply NoDup_app in Hnd as (_ & Hd & _).
      intros Hin. apply (Hd k Hin). simpl. apply list_elem_of_here. }
    rewrite (od_del_app_mid _ _ _ _ Hk).
    rewrite IH.
    + reflexivity.
    + rewrite fmap_app in Hnd |- *. simpl in Hnd.
      apply NoDup_app in Hnd as (Hn1 & Hd & Hn2).
      apply NoDup_cons in Hn2 as [_ Hn2].
      apply NoDup_app. split; [done|]. split; [|done].
      intros x Hx Hx'. apply (Hd x Hx). by apply list_elem_of_further.
Qed.

(** The [while] loop drops records from the front until at most
    [max_jobs] are left. *)
Lemma evict_over_capacity_drop max_jobs jobs :
  0 <= max_jobs ->
  evict_over_capacity max_jobs jobs
  = Ok (drop (length jobs - Z.to_nat max_jobs) jobs,
        removal_events (take (length jobs - Z.to_nat max_jobs) jobs).*1).
Proof.
  intros Hm. induction jobs as [|[k j] jobs IH]; simpl.
  - rewrite bool_decide_eq_false_2 by lia. reflexivity.
  - case_bool_decide as Hlen.
    + rewrite IH. cbn [mbind result_bind bind].
      replace (S (length jobs) - Z.to_nat max_jobs)%nat
        with (S (length jobs - Z.to_nat max_jobs)) by lia.
      reflexivity.
    + replace (S (length jobs) - Z.to_nat max_jobs)%nat with 0%nat by lia.
      reflexivity.
Qed.

(** The whole sweep, on a table whose records carry creation times. *)
Lemma cleanup_old_jobs_result now jm :
  0 <= _max_jobs jm ->
  NoDup (_jobs jm).*1 ->
  Forall (fun item => is_Some (created_at_of item.2)) (_jobs jm) ->
  let th := now - timedelta_hours (_expire_hours jm) in
  let candidates := filter (fun item => within_window th item) (_jobs jm) in
  let over := (length candidates - Z.to_nat (_max_jobs jm))%nat in
  _cleanup_old_jobs now jm
  = Ok (set_jobs (drop over candidates) jm,
        removal_events
          (filter (fun item => ~ within_window th item) (_jobs jm)).*1
        ++ removal_events (take over candidates).*1).
Proof.
  intros Hm Hnd Hc th candidates over. unfold _cleanup_old_jobs.
  fold th. rewrite (expired_jobs_filter now th _ Hc).
  cbn [mbind result_bind bind].
  pose proof (delete_expired_filter th (_jobs jm) [] Hnd) as Hdel.
  simpl in Hdel. rewrite Hdel. fold candidates.
  cbn [mbind result_bind bind].
  rewrite (evict_over_capacity_drop _ candidates Hm). reflexivity.
Qed.

End Sweep.

(** ** Capacity and expiry over a sequence of creates *)

Section Capacity.
Import Py Analyze.
Implicit Types (jobs : list (string * job)) (ids : list string)
  (readings : list Z).

Lemma created_at_new_job job_id url video_id created updated :
  created_at_of (new_job job_id url video_id created updated) = Some created.
Proof. reflexivity. Qed.

Lemma sublist_keys jobs jobs' :
  jobs' `sublist_of` jobs -> jobs'.*1 `sublist_of` jobs.*1.
Proof.
  induction 1 as [|x l1 l2 _ IH|x l1 l2 _ IH]; simpl.
  - constructor.
  - by apply sublist_skip.
  - by apply sublist_cons.
Qed.

Lemma StronglySorted_sublist {A} (R : relation A) (l l' : list A) :
  l' `sublist_of` l -> StronglySorted R l -> StronglySorted R l'.
Proof.
  induction 1 as [|x l1 l2 Hsub IH|x l1 l2 Hsub IH]; intros Hs.
  - constructor.
  - apply StronglySorted_cons in Hs as [Hx Hs].
    apply StronglySorted_cons. split; [|by apply IH].
    rewrite Forall_forall in Hx |- *. intros y Hy.
    apply Hx. by eapply elem_of_sublist.
  - apply StronglySorted_cons in Hs as [_ Hs]. by apply IH.
Qed.

Lemma table_ok_sublist ids readings jobs jobs' :
  jobs' `sublist_of` jobs ->
  table_ok ids readings jobs -> table_ok ids readings jobs'.
Proof.
  intros Hsub [Hk Hnd Hc Hs]. split.
  - intros k Hin. apply Hk.
    eapply elem_of_sublist; [exact Hin | by apply sublist_keys].
  - apply (sublist_NoDup jobs'.*1 jobs.*1 Hnd). by apply sublist_keys.
  - rewrite Forall_forall in Hc |- *. intros item Hin.
    apply Hc. by eapply elem_of_sublist.
  - by eapply StronglySorted_sublist.
Qed.

Lemma table_ok_nil ids readings : table_ok ids readings [].
Proof.
  split; simpl.
  - intros k Hin. by apply elem_of_nil in Hin.
  - apply NoDup_nil_2.
  - constructor.
  - constructor.
Qed.

(** Appending a record with a fresh id and the latest creation time. *)
Lemma table_ok_snoc ids readings jobs job_id url video_id created updated now :
  table_ok ids readings jobs ->
  job_id ∉ ids ->
  (forall r, r ∈ readings -> r <= created) ->
  table_ok (ids ++ [job_id]) (readings ++ [created; updated; now])
           (jobs ++ [(job_id, new_job job_id url video_id created updated)]).
Proof.
  intros [Hk Hnd Hc Hs] Hfresh Hlate. split.
  - intros k. rewrite fmap_app, !elem_of_app. simpl.
    intros [Hin|Hin]; [left; by apply Hk | by right].
  - rewrite fmap_app. apply NoDup_app. split; [exact Hnd|]. split.
    + intros k Hin Hin'. simpl in Hin'.
      apply list_elem_of_singleton in Hin' as ->. by apply Hfresh, Hk.
    + simpl. apply NoDup_singleton.
  - apply Forall_app. split.
    + eapply Forall_impl; [exact Hc|]. intros item (t & Ht & Hin).
      exists t. split; [exact Ht|]. apply elem_of_app. by left.
    + apply Forall_singleton. exists created. split; [reflexivity|].
      apply elem_of_app. right. apply list_elem_of_here.
  - apply StronglySorted_app_2; [|exact Hs|].
    + intros a b Ha Hb. apply list_elem_of_singleton in Hb as ->.
      rewrite Forall_forall in Hc. destruct (Hc a Ha) as (t & Ht & Hin).
      unfold older, created_key. simpl. rewrite Ht. simpl. by apply Hlate.
    + repeat constructor.
Qed.

(** One [create_job] on a table built by earlier calls. The new record
    goes last; the records within the expiry window are the candidates;
    the table keeps the last [max_jobs] candidates and the others, which
    are the earliest created, are removed from the front. *)
Lemma create_job_step ids readings jobs max_jobs expire_hours
    created updated now job_id url video_id :
  table_ok ids readings jobs ->
  0 <= max_jobs ->
  job_id ∉ ids ->
  (forall r, r ∈ readings -> r <= created) ->
  let j := new_job job_id url video_id created updated in
  let th := now - timedelta_hours expire_hours in
  let all := jobs ++ [(job_id, j)] in
  let candidates := filter (fun item => within_window th item) all in
  let over := (length candidates - Z.to_nat max_jobs)%nat in
  create_job created updated now job_id url video_id
             (mkJobManager jobs max_jobs expire_hours)
  = Ok (j, mkJobManager (drop over candidates) max_jobs expire_hours,
        removal_events (filter (fun item => ~ within_window th item) all).*1
        ++ removal_events (take over candidates).*1)
  /\ table_ok (ids ++ [job_id]) (readings ++ [created; updated; now])
              (drop over candidates)
  /\ (length (drop over candidates) <= Z.to_nat max_jobs)%nat
  /\ (forall a b, a ∈ take over candidates -> b ∈ drop over candidates ->
        older a b).
Proof.
  intros Hok Hm Hfresh Hlate j th all candidates over.
  pose proof (table_ok_snoc ids readings jobs job_id url video_id created
                updated now Hok Hfresh Hlate) as Hall.
  fold j in Hall. fold all in Hall.
  assert (Hcand : table_ok (ids ++ [job_id])
                    (readings ++ [created; updated; now]) candidates).
  { eapply table_ok_sublist; [|exact Hall]. apply sublist_filter. }
  split; [|split; [|split]].
  - unfold create_job. fold j. simpl.
    rewrite od_set_fresh by (intros Hin; by apply Hfresh, (ok_keys _ _ _ Hok)).
    fold all.
    pose proof (cleanup_old_jobs_result now
                  (mkJobManager all max_jobs expire_hours)) as Hsweep.
    simpl in Hsweep. fold th in Hsweep. fold candidates in Hsweep.
    fold over in Hsweep. unfold set_jobs at 1. simpl.
    rewrite Hsweep; [reflexivity | exact Hm | exact (ok_nodup _ _ _ Hall) |].
    eapply Forall_impl; [exact (ok_created _ _ _ Hall)|].
    intros item (t & Ht & _). eauto.
  - eapply table_ok_sublist; [apply sublist_drop | exact Hcand].
  - rewrite length_drop. unfold over. lia.
  - intros a b Ha Hb.
    eapply (StronglySorted_app_1_elem_of older (take over candidates)
              (drop over candidates)); [|exact Ha|exact Hb].
    rewrite take_drop. exact (ok_sorted _ _ _ Hcand).
Qed.

End Capacity.

Section CreateSequences.
Import Py Analyze.






End CreateSequences.

Section CreateSequenceWitness.
Import Py Analyze.



(** On the sample, the fourth create evicts [b] and keeps [c] and [d]. *)
Example fourth_create_evicts_oldest :
  (jm ← run_creates sample_calls (mkJobManager [] 2 1);
   '(_, jm', events) ← create_job_call sample_call jm;
   Ok ((_jobs jm).*1, (_jobs jm').*1, events))
  = Ok (["b"; "c"], ["c"; "d"], [CleanupJobFiles "b"; DeleteJob "b"])%string.
Proof. vm_compute. reflexivity. Qed.

End CreateSequenceWitness.

(** ** Expiry happens only in the sweep *)

Section Expiry.
Import Py Analyze.

Lemma od_get_elem {V} (d : list (string * V)) k v :
  NoDup d.*1 -> (k, v) ∈ d -> od_get k d = Some v.
Proof.
  induction d as [|[k' v'] d IH]; simpl; intros Hnd Hin.
  - by apply elem_of_nil in Hin.
  - apply NoDup_cons in Hnd as [Hk' Hnd].
    apply elem_of_cons in Hin as [[= <- <-]|Hin].
    + by rewrite decide_True.
    + rewrite decide_False; [by apply IH|].
      intros <-. apply Hk'. by apply (list_elem_of_fmap_2 fst d (k, v)).
Qed.

Lemma od_get_Some_elem {V} (d : list (string * V)) k v :
  od_get k d = Some v -> (k, v) ∈ d.
Proof.
  induction d as [|[k' v'] d IH]; simpl; [done|].
  destruct (decide (k = k')) as [->|Hne].
  - intros [= ->]. apply list_elem_of_here.
  - intros Hg. apply list_elem_of_further. by apply IH.
Qed.

Lemma run_ops_keep jm ops job_id :
  is_Some (get_job job_id jm) ->
  is_Some (get_job job_id (foldl run_op jm ops)).
Proof.
  revert jm. induction ops as [|op ops IH]; intros jm Hs; simpl; [done|].
  apply IH. destruct op as [other|now other kwargs]; simpl; [done|].
  destruct (update_job now other kwargs jm) as [jm'|e] eqn:Hu; [|done].
  by eapply update_job_keeps.
Qed.

Lemma run_gets_same jm ops :
  Forall (fun op => exists job_id, op = OpGet job_id) ops ->
  foldl run_op jm ops = jm.
Proof.
  induction 1 as [|op ops [job_id ->] _ IH]; simpl; [done | exact IH].
Qed.

Lemma removal_events_elem job_id ids :
  job_id ∈ ids ->
  CleanupJobFiles job_id ∈ removal_events ids
  /\ DeleteJob job_id ∈ removal_events ids.
Proof.
  intros Hin. unfold removal_events. rewrite !list_elem_of_bind.
  split; exists job_id; (split; [|exact Hin]).
  - apply list_elem_of_here.
  - apply list_elem_of_further, list_elem_of_here.
Qed.

(** C10: expiry is enforced only by the sweep of [create_job]. Let the
    table hold a record whose creation time is older than the expiry
    window at time [now]. [get_job] does not read the clock and returns
    the record; it stays in the table through any sequence of lookups and
    updates, unchanged if these are lookups only. The next [create_job]
    (of a fresh id, with its sweep at [now]) cleans the record's files and
    removes it, after which [get_job] finds nothing; [delete_job] removes
    it as well. *)
Theorem expired_job_served_until_sweep (jm : JobManager) (job_id : string)
    (j : job) (t now : Z) :
  NoDup (_jobs jm).*1 ->
  Forall (fun item => is_Some (created_at_of item.2)) (_jobs jm) ->
  0 <= _max_jobs jm ->
  get_job job_id jm = Some j ->
  created_at_of j = Some t ->
  t < now - timedelta_hours (_expire_hours jm) ->
  get_job job_id jm = Some j
  /\ (forall ops, is_Some (get_job job_id (foldl run_op jm ops)))
  /\ (forall ops, Forall (fun op => exists other, op = OpGet other) ops ->
        get_job job_id (foldl run_op jm ops) = Some j)
  /\ (forall created updated new_id url video_id,
        get_job new_id jm = None ->
        exists j' jm' events,
          create_job created updated now new_id url video_id jm
          = Ok (j', jm', events)
          /\ get_job job_id jm' = None
          /\ CleanupJobFiles job_id ∈ events
          /\ DeleteJob job_id ∈ events)
  /\ get_job job_id (delete_job job_id jm).2 = None.
Proof.
  intros Hnd Hc Hm Hg Ht Hexp.
  split; [exact Hg|]. split; [intros ops; apply run_ops_keep; eauto|].
  split; [intros ops Hops; by rewrite run_gets_same|].
  split; [|by apply delete_job_absent].
  intros created updated new_id url video_id Hnew.
  unfold create_job.
  set (j' := new_job new_id url video_id created updated).
  assert (Hfresh : new_id ∉ (_jobs jm).*1) by (by apply od_get_None).
  rewrite (od_set_fresh _ _ _ Hfresh).
  set (all := _jobs jm ++ [(new_id, j')]).
  assert (Hnd' : NoDup all.*1).
  { unfold all. rewrite fmap_app. apply NoDup_app.
    split; [exact Hnd|]. split; [|apply NoDup_singleton].
    intros k Hin Hin'. apply list_elem_of_singleton in Hin' as ->. done. }
  assert (Hc' : Forall (fun item => is_Some (created_at_of item.2)) all).
  { apply Forall_app. split; [exact Hc|]. apply Forall_singleton. simpl.
    unfold j'. rewrite created_at_new_job. eauto. }
  pose proof (cleanup_old_jobs_result now (set_jobs all jm) Hm Hnd' Hc')
    as Hsweep.
  simpl in Hsweep. rewrite Hsweep. cbn [mbind result_bind bind].
  eexists _, _, _. split; [reflexivity|].
  assert (Hin : (job_id, j) ∈ all).
  { unfold all. apply elem_of_app. left. by apply od_get_Some_elem. }
  assert (Hout : within_window (now - timedelta_hours (_expire_hours jm))
                   (job_id, j) = false).
  { rewrite (within_window_created _ _ _ _ Ht).
    by rewrite bool_decide_eq_true_2 by lia. }
  split.
  - unfold get_job. simpl. apply od_get_None. intros Hk.
    apply list_elem_of_fmap in Hk as ([k v] & -> & Hkv). simpl in *.
    assert (Hkv' : (k, v) ∈ filter
              (fun item => within_window
                 (now - timedelta_hours (_expire_hours jm)) item) all).
    { eapply elem_of_sublist; [exact Hkv | apply sublist_drop]. }
    apply list_elem_of_filter in Hkv' as [Hw Hkv'].
    assert (v = j) as ->.
    { pose proof (od_get_elem all k v Hnd' Hkv') as H1.
      pose proof (od_get_elem all k j Hnd' Hin) as H2. congruence. }
    rewrite Hout in Hw. exact Hw.
  - assert (Hid : job_id ∈ (filter
              (fun item => ~ within_window
                 (now - timedelta_hours (_expire_hours jm)) item) all).*1).
    { apply (list_elem_of_fmap_2 fst _ (job_id, j)).
      apply list_elem_of_filter. split; [|exact Hin].
      rewrite Hout. simpl. auto. }
    destruct (removal_events_elem _ _ Hid) as [H1 H2].
    split; apply elem_of_app; by left.
Qed.

End Expiry.

Section ExpiryWitness.
Import Py Analyze.

Lemma expired_job_served_until_sweep_witness :
  get_job "j1" one_job = Some (new_job "j1" "https://youtu.be/x" "x" 0 0)
  /\ (forall ops, is_Some (get_job "j1" (foldl run_op one_job ops)))
  /\ (forall ops, Forall (fun op => exists other, op = OpGet other) ops ->
        get_job "j1" (foldl run_op one_job ops)
        = Some (new_job "j1" "https://youtu.be/x" "x" 0 0))
  /\ (forall created updated new_id url video_id,
        get_job new_id one_job = None ->
        exists j' jm' events,
          create_job created updated 3600000001 new_id url video_id one_job
          = Ok (j', jm', events)
          /\ get_job "j1" jm' = None
          /\ CleanupJobFiles "j1" ∈ events
          /\ DeleteJob "j1" ∈ events)
  /\ get_job "j1" (delete_job "j1" one_job).2 = None.
Proof.
  apply (expired_job_served_until_sweep one_job "j1"
           (new_job "j1" "https://youtu.be/x" "x" 0 0) 0 3600000001).
  - apply (bool_decide_unpack _). vm_compute. exact I.
  - apply Forall_singleton. exists 0. reflexivity.
  - simpl. lia.
  - reflexivity.
  - reflexivity.
  - vm_compute. reflexivity.
Defined.

End ExpiryWitness.

(** * Further properties of the chat sessions *)

Section ChatSessionInvariants.
Import Py Chat.
Context `{Env}.

Lemma complete_step_session_nodup n session :
  NoDup (completed_steps session) ->
  NoDup (completed_steps (complete_step_session n session)).
Proof.
  intros Hnd. rewrite complete_step_session_completed.
  case_bool_decide as Hin; [exact Hnd|].
  apply NoDup_app. split; [exact Hnd|]. split; [|apply NoDup_singleton].
  intros x Hx Hx'. apply list_elem_of_singleton in Hx' as ->. done.
Qed.

Lemma complete_step_session_frame n session :
  recipe (complete_step_session n session) = recipe session
  /\ steps (complete_step_session n session) = steps session
  /\ ingredients (complete_step_session n session) = ingredients session
  /\ chat_history (complete_step_session n session) = chat_history session
  /\ created_at (complete_step_session n session) = created_at session.
Proof.
  destruct session. unfold complete_step_session. simpl.
  repeat case_bool_decide; simpl; auto.
Qed.

Lemma complete_step_session_good n session :
  session_good session -> session_good (complete_step_session n session).
Proof.
  intros ((Hst & Hing & Htot) & Hnd & Hh).
  destruct (complete_step_session_frame n session)
    as (Hr & Hs & Hi & Hc & _).
  split; [|split].
  - unfold snapshot_ok.
    rewrite Hr, Hs, Hi, complete_step_session_total. auto.
  - by apply complete_step_session_nodup.
  - by rewrite Hc, complete_step_session_total.
Qed.

(** What a successful turn did. *)
Lemma send_message_ok_inv create now request (cs cs' : sessions) resp log :
  send_message create now request cs = (Ok resp, cs', log) ->
  exists session,
    cs !! session_id request = Some session
    /\ 1 <= step_number request <= Z.of_nat (length (steps session))
    /\ cs' = <[session_id request
               := commit_turn now request (reply resp) session]> cs.
Proof.
  unfold send_message.
  destruct (check_image (image_base64 request)); [|congruence].
  unfold _get_session.
  destruct (cs !! session_id request) as [session|] eqn:Hs; [|congruence].
  unfold _validate_step_number. case_bool_decide as Hn; [congruence|].
  destruct (getitem _ _); [|congruence].
  destruct (_call_chat_api _ _ _) as [[text|e] log']; [|congruence].
  intros [= <- <- <-]. exists session. split; [done|]. split; [lia|done].
Qed.

Lemma commit_turn_good now request text session :
  1 <= step_number request <= Z.of_nat (length (steps session)) ->
  session_good session ->
  session_good (commit_turn now request text session).
Proof.
  intros Hn ((Hst & Hing & Htot) & Hnd & Hh).
  split; [|split].
  - unfold snapshot_ok, commit_turn. simpl. auto.
  - unfold commit_turn. simpl. exact Hnd.
  - rewrite commit_turn_history.
    replace (total_steps (commit_turn now request text session))
      with (total_steps session) by reflexivity.
    apply history_ok_turn; try done;
      unfold user_entry; destruct (truthy _); simpl; eauto; lia.
Qed.

Lemma run_chat_op_good (cs : sessions) op :
  (forall sid session, cs !! sid = Some session -> session_good session) ->
  forall sid session,
    run_chat_op cs op !! sid = Some session -> session_good session.
Proof.
  intros Hcs sid session.
  destruct op as [now new_id request|sid' n|create now request|sid']; simpl.
  - unfold start_cooking_session. simpl.
    destruct (decide (new_id = sid)) as [->|Hne].
    + rewrite lookup_insert_eq. intros [= <-].
      split; [|split]; simpl; [by unfold snapshot_ok | constructor
                                | constructor].
    + rewrite lookup_insert_ne by done. unfold _cleanup_expired_sessions.
      intros [Hs _]%map_lookup_filter_Some. by eapply Hcs.
  - unfold complete_step, _get_session.
    destruct (cs !! sid') as [s'|] eqn:Hs'; simpl; [|by apply Hcs].
    destruct (decide (sid' = sid)) as [->|Hne].
    + rewrite lookup_insert_eq. intros [= <-].
      apply complete_step_session_good. by eapply Hcs.
    + rewrite lookup_insert_ne by done. by apply Hcs.
  - destruct (send_message create now request cs) as [[[resp|e] cs'] log]
      eqn:Hsend; simpl.
    + apply send_message_ok_inv in Hsend as (s' & Hs' & Hn & ->).
      destruct (decide (session_id request = sid)) as [<-|Hne].
      * rewrite lookup_insert_eq. intros [= <-].
        apply commit_turn_good; [exact Hn | by eapply Hcs].
      * rewrite lookup_insert_ne by done. by apply Hcs.
    + apply send_message_failure_frame in Hsend as ->. by apply Hcs.
  - unfold end_session, _get_session.
    destruct (cs !! sid') as [s'|] eqn:Hs'; simpl; [|by apply Hcs].
    intros [_ Hs]%lookup_delete_Some. by eapply Hcs.
Qed.

(** X1: whatever the handlers are called with, a session keeps the
    snapshot it was created from ([steps], [ingredients] and
    [total_steps] are those of its recipe), [completed_steps] has no
    duplicate, and [chat_history] is a sequence of turns: a user entry
    followed by the assistant entry for the same step, that step being
    one of the recipe's steps. *)
Theorem sessions_keep_snapshot_and_turns (ops : list chat_op)
    (sid : string) (session : Session) :
  foldl run_chat_op ∅ ops !! sid = Some session ->
  snapshot_ok session
  /\ NoDup (completed_steps session)
  /\ history_ok (total_steps session) (chat_history session).
Proof.
  assert (Hall : forall (cs : sessions),
            (forall sid session, cs !! sid = Some session ->
               session_good session) ->
            forall sid session,
              foldl run_chat_op cs ops !! sid = Some session ->
              session_good session).
  { induction ops as [|op ops IH]; intros cs Hcs; simpl; [exact Hcs|].
    apply IH. by apply run_chat_op_good. }
  intros Hs. eapply Hall; [|exact Hs].
  intros sid' s'. by rewrite lookup_empty.
Qed.

End ChatSessionInvariants.

Section ChatSessionWitness.
Import Py Chat.

Lemma sessions_keep_snapshot_and_turns_witness :
  snapshot_ok
    (commit_turn 5 (mkChatReq "s1" 2 "How long?" None) "Stir gently."
       (mkSession (sample_recipe 3) 2 3 (replicate 3 sample_step)
                  [1] [] [] 0))
  /\ NoDup (completed_steps
      (commit_turn 5 (mkChatReq "s1" 2 "How long?" None) "Stir gently."
         (mkSession (sample_recipe 3) 2 3 (replicate 3 sample_step)
                    [1] [] [] 0)))
  /\ history_ok
       (total_steps
          (commit_turn 5 (mkChatReq "s1" 2 "How long?" None) "Stir gently."
             (mkSession (sample_recipe 3) 2 3 (replicate 3 sample_step)
                        [1] [] [] 0)))
       (chat_history
          (commit_turn 5 (mkChatReq "s1" 2 "How long?" None) "Stir gently."
             (mkSession (sample_recipe 3) 2 3 (replicate 3 sample_step)
                        [1] [] [] 0))).
Proof.
  apply (@sessions_keep_snapshot_and_turns plain_env
           [OpStart 0 "s1" (mkStartReq "" (sample_recipe 3));
            OpComplete "s1" 1;
            OpSend (echo_api "Stir gently.") 5
                   (mkChatReq "s1" 2 "How long?" None);
            OpEnd "other"]
           "s1").
  vm_compute. reflexivity.
Defined.

End ChatSessionWitness.

Section StepProgress.
Import Py Chat.

(** X2: on a session whose completed steps are distinct steps of the
    recipe, completing one more step of the recipe reports
    [is_finished] exactly when every step from 1 to [total_steps] is then
    completed. *)
Theorem is_finished_iff_all_completed (cs : sessions) (sid : string) (n : Z)
    (session : Session) :
  cs !! sid = Some session ->
  NoDup (completed_steps session) ->
  Forall (step_in_range session) (completed_steps session) ->
  step_in_range session n ->
  exists resp session',
    complete_step sid n cs = (Ok resp, <[sid := session']> cs)
    /\ (is_finished resp = true <->
        forall k, 1 <= k <= total_steps session ->
                  k ∈ completed_steps session').
Proof.
  intros Hs Hnd Hall Hn. unfold complete_step, _get_session. rewrite Hs.
  eexists _, (complete_step_session n session). split; [reflexivity|].
  simpl. rewrite complete_step_session_total.
  set (done' := completed_steps (complete_step_session n session)).
  assert (Hnd' : NoDup done').
  { unfold done'. rewrite complete_step_session_completed.
    case_bool_decide as Hin; [exact Hnd|].
    apply NoDup_app. split; [exact Hnd|]. split; [|apply NoDup_singleton].
    intros x Hx Hx'. apply list_elem_of_singleton in Hx' as ->. done. }
  assert (Hall' : forall k, k ∈ done' -> 1 <= k <= total_steps session).
  { intros k. unfold done'. rewrite complete_step_session_completed.
    rewrite Forall_forall in Hall.
    case_bool_decide; [apply Hall|].
    rewrite elem_of_app, list_elem_of_singleton.
    intros [Hk| ->]; [by apply Hall | exact Hn]. }
  assert (Hsub : done' ⊆+ seqZ 1 (total_steps session)).
  { apply NoDup_submseteq; [exact Hnd'|].
    intros k Hk. apply elem_of_seqZ. specialize (Hall' k Hk). lia. }
  rewrite bool_decide_eq_true. split.
  - intros Hlen k Hk.
    assert (Hperm : done' ≡ₚ seqZ 1 (total_steps session)).
    { apply submseteq_length_Permutation; [exact Hsub|].
      rewrite length_seqZ. lia. }
    rewrite Hperm. apply elem_of_seqZ. lia.
  - intros Hfull.
    assert (Hsup : seqZ 1 (total_steps session) ⊆+ done').
    { apply NoDup_submseteq; [apply NoDup_seqZ|].
      intros k Hk%elem_of_seqZ. apply Hfull. lia. }
    apply submseteq_length in Hsub. apply submseteq_length in Hsup.
    rewrite length_seqZ in Hsub, Hsup.
    unfold step_in_range in Hn. lia.
Qed.

Lemma is_finished_iff_all_completed_witness :
  exists resp session',
    complete_step "s1" 3 (complete_step "s1" 1
                            (complete_step "s1" 2 (started 3)).2).2
    = (Ok resp,
       <["s1"%string := session']>
         (complete_step "s1" 1 (complete_step "s1" 2 (started 3)).2).2)
    /\ (is_finished resp = true <->
        forall k, 1 <= k <= 3 -> k ∈ completed_steps session').
Proof.
  apply (is_finished_iff_all_completed
           (complete_step "s1" 1 (complete_step "s1" 2 (started 3)).2).2
           "s1" 3
           (mkSession (sample_recipe 3) 2 3 (replicate 3 sample_step)
                      [2; 1] [] [] 0)).
  - vm_compute. reflexivity.
  - apply (bool_decide_unpack _). vm_compute. exact I.
  - apply (bool_decide_unpack _). vm_compute. exact I.
  - unfold step_in_range. simpl. lia.
Defined.

End StepProgress.

Section ChatRequests.
Import Py Chat.
Context `{Env}.

(** Every request of the retry loop carries the same messages, and there
    is at most one per element of the range. *)
Lemma retry_loop_log create messages max_retries attempts :
  forall last_error log,
  exists k,
    (k <= length attempts)%nat
    /\ (retry_loop create messages max_retries attempts last_error log).2
       = log ++ replicate k messages.
Proof.
  induction attempts as [|index rest IH]; intros last_error log; simpl.
  - exists 0%nat. split; [lia|]. by rewrite app_nil_r.
  - destruct (attempt_once create messages max_retries index) as [r|e|e|e];
      simpl.
    + exists 1%nat. split; [lia|done].
    + exists 1%nat. split; [lia|done].
    + destruct (IH (Some e) (log ++ [messages])) as (k & Hk & ->).
      exists (S k). split; [lia|]. by rewrite <- app_assoc.
    + destruct (IH (Some e) (log ++ [messages])) as (k & Hk & ->).
      exists (S k). split; [lia|]. by rewrite <- app_assoc.
Qed.

Lemma call_chat_api_log create messages :
  exists k,
    (k <= 3)%nat
    /\ (_call_chat_api create messages API_MAX_RETRIES).2
       = replicate k messages.
Proof.
  unfold _call_chat_api.
  destruct (retry_loop_log create messages API_MAX_RETRIES
              (range (API_MAX_RETRIES + 1)) None []) as (k & Hk & Hlog).
  exists k. split; [exact Hk|].
  destruct (retry_loop _ _ _ _ _ _) as [[r|e] log]; exact Hlog.
Qed.

Lemma turn_messages_length session step request :
  length (turn_messages session step request)
  = (2 + Nat.min MAX_HISTORY_MESSAGES (length (chat_history session)))%nat.
Proof.
  unfold turn_messages, last_n.
  rewrite !length_app, length_fmap, length_drop.
  unfold MAX_HISTORY_MESSAGES. cbn [length]. lia.
Qed.

(** X3: the cost of a turn is bounded. [send_message] sends at most three
    requests to the completion endpoint, all with the same messages, and
    these are at most eight: the system prompt, at most six entries of
    the history, and the new user message. *)
Theorem send_message_requests_bounded create now request (cs : sessions) :
  exists k messages,
    (send_message create now request cs).2 = replicate k messages
    /\ (k <= 3)%nat
    /\ (length messages <= 8)%nat.
Proof.
  unfold send_message.
  destruct (check_image (image_base64 request));
    [|exists 0%nat, []; simpl; split; [done|split; lia]].
  destruct (_get_session cs (session_id request)) as [session|];
    [|exists 0%nat, []; simpl; split; [done|split; lia]].
  destruct (_validate_step_number _ _);
    [|exists 0%nat, []; simpl; split; [done|split; lia]].
  destruct (getitem _ _) as [step|];
    [|exists 0%nat, []; simpl; split; [done|split; lia]].
  destruct (call_chat_api_log create (turn_messages session step request))
    as (k & Hk & Hlog).
  exists k, (turn_messages session step request).
  split; [|split; [exact Hk|]].
  - destruct (_call_chat_api _ _ _) as [[text|e] log]; exact Hlog.
  - rewrite turn_messages_length. unfold MAX_HISTORY_MESSAGES. lia.
Qed.

(** X4: ending a session. For a session in the table, [end_session]
    returns the summary of that session (its title, the numbers of
    completed steps, of steps and of history entries) and removes it,
    leaving the other sessions alone; every handler then answers 404 for
    that id. For an id that is not in the table it raises 404 and the
    table is unchanged. *)
Theorem end_session_removes (cs : sessions) (sid : string) :
  match cs !! sid with
  | Some session =>
      end_session sid cs
      = (Ok (mkSummary (default ""%string (title (recipe session)))
               (Z.of_nat (length (completed_steps session)))
               (total_steps session)
               (Z.of_nat (length (chat_history session)))),
         delete sid cs)
  | None =>
      end_session sid cs
      = (Raise (HTTPException 404 "세션을 찾을 수 없습니다."), cs)
  end
  /\ (forall other, other <> sid ->
        (end_session sid cs).2 !! other = cs !! other)
  /\ (forall n create now request,
        session_id request = sid ->
        let cs' := (end_session sid cs).2 in
        complete_step sid n cs'
        = (Raise (HTTPException 404 "세션을 찾을 수 없습니다."), cs')
        /\ get_session_status sid cs'
           = Raise (HTTPException 404 "세션을 찾을 수 없습니다.")
        /\ get_chat_history sid cs'
           = Raise (HTTPException 404 "세션을 찾을 수 없습니다.")
        /\ (check_image (image_base64 request) = Ok tt ->
            send_message create now request cs'
            = (Raise (HTTPException 404 "세션을 찾을 수 없습니다."), cs', []))).
Proof.
  assert (Hgone : (end_session sid cs).2 !! sid = None).
  { unfold end_session, _get_session.
    destruct (cs !! sid) eqn:Hs; simpl; [apply lookup_delete_eq | exact Hs]. }
  split; [|split].
  - unfold end_session, _get_session. by destruct (cs !! sid).
  - intros other Hne. unfold end_session, _get_session.
    destruct (cs !! sid); simpl; [by rewrite lookup_delete_ne | done].
  - intros n create now request Hsid cs'.
    unfold complete_step, get_session_status, get_chat_history,
      send_message, _get_session.
    rewrite Hsid. fold cs'. unfold cs'. rewrite Hgone.
    repeat split; try reflexivity.
    intros ->. reflexivity.
Qed.

End ChatRequests.

Section ChatExpiry.
Import Py Chat.
Context `{Env}.

Lemma cleanup_expired_lookup now (cs : sessions) sid :
  _cleanup_expired_sessions now cs !! sid
  = match cs !! sid with
    | Some session =>
        if bool_decide (now - created_at session > SESSION_EXPIRY_SECONDS)
        then None else Some session
    | None => None
    end.
Proof.
  unfold _cleanup_expired_sessions.
  destruct (cs !! sid) as [session|] eqn:Hs.
  - case_bool_decide as Hage.
    + apply map_lookup_filter_None. right. intros s' Hs' Hkeep.
      simpl in Hkeep. rewrite Hs in Hs'. injection Hs' as <-. done.
    + apply map_lookup_filter_Some. done.
  - apply map_lookup_filter_None. by left.
Qed.

(** X5: starting a session. The new session is stored under the new id
    with [current_step = 1], [total_steps] the number of steps of the
    recipe, and nothing completed or said yet; the response reports that
    id and that number. Of the other sessions, those idle for more than
    3600 seconds are dropped and the others are kept as they were. *)
Theorem start_cooking_session_sweeps now new_id request (cs : sessions) :
  let recipe := start_recipe request in
  let steps := default [] (recipe_steps recipe) in
  let started := start_cooking_session now new_id request cs in
  resp_session_id started.1 = new_id
  /\ resp_total_steps started.1 = Z.of_nat (length steps)
  /\ started.2 !! new_id
     = Some (mkSession recipe 1 (Z.of_nat (length steps)) steps [] []
                       (default [] (recipe_ingredients recipe)) now)
  /\ (forall sid, sid <> new_id ->
        started.2 !! sid
        = match cs !! sid with
          | Some session =>
              if bool_decide (now - created_at session > 3600)
              then None else Some session
          | None => None
          end).
Proof.
  simpl. split; [reflexivity|]. split; [reflexivity|].
  split; [apply lookup_insert_eq|].
  intros sid Hne. rewrite lookup_insert_ne by done.
  apply cleanup_expired_lookup.
Qed.

(** X6: a chat turn keeps its session alive. After a turn that was
    answered at time [now], a session start within the next 3600 seconds
    finds the session of that turn still in the table, with the turn in
    its history. *)
Theorem turn_refreshes_session create now request (cs cs' : sessions)
    resp log later new_id start_request :
  send_message create now request cs = (Ok resp, cs', log) ->
  new_id <> session_id request ->
  later - now <= 3600 ->
  exists session,
    (start_cooking_session later new_id start_request cs').2
      !! session_id request = Some session
    /\ created_at session = now
    /\ exists earlier,
         chat_history session
         = earlier ++ [user_entry request;
                       assistant_entry (reply resp) (step_number request)].
Proof.
  intros Hsend Hne Hage.
  apply send_message_ok_inv in Hsend as (session & Hs & Hn & ->).
  exists (commit_turn now request (reply resp) session).
  split; [|split; [reflexivity|]].
  - unfold start_cooking_session. simpl.
    rewrite lookup_insert_ne by done.
    rewrite cleanup_expired_lookup, lookup_insert_eq.
    rewrite bool_decide_eq_false_2; [done|].
    unfold SESSION_EXPIRY_SECONDS. simpl. lia.
  - exists (chat_history session). apply commit_turn_history.
Qed.

Lemma complete_steps_created_at sid (ns : list Z) : forall (cs : sessions)
    session,
  cs !! sid = Some session ->
  exists session',
    foldl (fun cs n => (complete_step sid n cs).2) cs ns !! sid
    = Some session'
    /\ created_at session' = created_at session.
Proof.
  induction ns as [|n ns IH]; intros cs session Hs; simpl; [eauto|].
  destruct (complete_step_found sid n cs session Hs) as (resp & -> & _).
  simpl.
  destruct (IH (<[sid := complete_step_session n session]> cs)
              (complete_step_session n session)) as (s' & Hs' & Hc).
  { apply lookup_insert_eq. }
  exists s'. split; [exact Hs'|]. rewrite Hc.
  apply complete_step_session_frame.
Qed.

(** X7: completing steps does not count as activity. However many steps
    of a session are completed, the activity timestamp stays what it was,
    and a session start more than 3600 seconds after it drops the
    session. *)
Theorem completions_do_not_refresh (cs : sessions) sid session
    (ns : list Z) later new_id start_request :
  cs !! sid = Some session ->
  new_id <> sid ->
  later - created_at session > 3600 ->
  (start_cooking_session later new_id start_request
     (foldl (fun cs n => (complete_step sid n cs).2) cs ns)).2 !! sid
  = None.
Proof.
  intros Hs Hne Hage.
  destruct (complete_steps_created_at sid ns cs session Hs)
    as (s' & Hs' & Hc).
  unfold start_cooking_session. simpl.
  rewrite lookup_insert_ne by done.
  rewrite cleanup_expired_lookup, Hs'.
  rewrite bool_decide_eq_true_2; [done|].
  unfold SESSION_EXPIRY_SECONDS. lia.
Qed.

End ChatExpiry.

Section ChatExpiryWitnesses.
Import Py Chat.

Lemma turn_refreshes_session_witness :
  exists session,
    (start_cooking_session 3605 "s2" (mkStartReq "" (sample_recipe 1))
       (<["s1"%string
          := commit_turn 5 (mkChatReq "s1" 2 "How long?" None) "Stir gently."
               (mkSession (sample_recipe 3) 1 3 (replicate 3 sample_step)
                          [] [] [] 0)]> (started 3))).2
      !! session_id (mkChatReq "s1" 2 "How long?" None) = Some session
    /\ created_at session = 5
    /\ exists earlier,
         chat_history session
         = earlier ++ [user_entry (mkChatReq "s1" 2 "How long?" None);
                       assistant_entry "Stir gently." 2].
Proof.
  apply (@turn_refreshes_session plain_env (echo_api "Stir gently.") 5
           (mkChatReq "s1" 2 "How long?" None) (started 3) _
           (mkChatResp "Stir gently."
              (mkStepInfo 2 "Chop the onions" "" false)
              (mkStatusInfo 2 [] 0))
           [@turn_messages plain_env
              (mkSession (sample_recipe 3) 1 3 (replicate 3 sample_step)
                         [] [] [] 0)
              sample_step (mkChatReq "s1" 2 "How long?" None)]
           3605 "s2" (mkStartReq "" (sample_recipe 1))).
  - vm_compute. reflexivity.
  - discriminate.
  - lia.
Defined.

Lemma completions_do_not_refresh_witness :
  (start_cooking_session 3601 "s2" (mkStartReq "" (sample_recipe 1))
     (foldl (fun cs n => (complete_step "s1" n cs).2) (started 3) [1; 2])).2
    !! "s1"%string
  = None.
Proof.
  apply (@completions_do_not_refresh (started 3) "s1"
           (mkSession (sample_recipe 3) 1 3 (replicate 3 sample_step)
                      [] [] [] 0)
           [1; 2] 3601 "s2" (mkStartReq "" (sample_recipe 1))).
  - vm_compute. reflexivity.
  - discriminate.
  - simpl. lia.
Defined.

End ChatExpiryWitnesses.

(** * Further properties of the job table and its endpoints *)

Section JobEndpoints.
Import Py Analyze.

Lemma truthy_insert (j : job) key v : truthy (VDict (<[key := v]> j)) = true.
Proof.
  simpl. apply negb_true_iff, bool_decide_eq_false.
  intros Hz. apply map_size_empty_iff in Hz.
  by apply insert_non_empty in Hz.
Qed.

Lemma truthy_new_job job_id url video_id created updated :
  truthy (VDict (new_job job_id url video_id created updated)) = true.
Proof. unfold new_job. simpl. apply truthy_insert. Qed.

(** The record that [create_job] has just stored is in the table when
    the capacity is at least one and the record is within the window. *)
Lemma create_job_stores ids readings jobs max_jobs expire_hours
    created updated now job_id url video_id :
  table_ok ids readings jobs ->
  1 <= max_jobs ->
  job_id ∉ ids ->
  (forall r, r ∈ readings -> r <= created) ->
  now - timedelta_hours expire_hours <= created ->
  exists jm' events,
    create_job created updated now job_id url video_id
               (mkJobManager jobs max_jobs expire_hours)
    = Ok (new_job job_id url video_id created updated, jm', events)
    /\ get_job job_id jm'
       = Some (new_job job_id url video_id created updated)
    /\ Z.of_nat (length (_jobs jm')) <= max_jobs.
Proof.
  intros Hok Hm Hfresh Hlate Hwin.
  destruct (create_job_step ids readings jobs max_jobs expire_hours
              created updated now job_id url video_id Hok ltac:(lia)
              Hfresh Hlate) as (Hc & Hok' & Hlen & _).
  eexists _, _. split; [exact Hc|]. split; [|simpl; lia].
  unfold get_job. simpl. apply od_get_elem; [exact (ok_nodup _ _ _ Hok')|].
  set (th := now - timedelta_hours expire_hours).
  set (j := new_job job_id url video_id created updated).
  rewrite filter_app.
  assert (Hlast : filter (fun item => within_window th item) [(job_id, j)]
                  = [(job_id, j)]).
  { rewrite filter_cons_True; [done|].
    unfold within_window. simpl. unfold j.
    rewrite created_at_new_job. apply bool_decide_pack. unfold th. lia. }
  rewrite Hlast.
  set (cand := filter (fun item => within_window th item) jobs).
  rewrite length_app. simpl.
  rewrite drop_app_le by lia.
  apply elem_of_app. right. apply list_elem_of_here.
Qed.

(** X8: accepting a video. On a table built by earlier creates, with a
    capacity of at least one, a request whose URL is recognised creates
    the job under the new id, adds exactly one background run for it,
    and leaves at most [max_jobs] records; a status request that follows
    finds the job pending with progress 0, and a result request is
    refused with 400 as not completed yet. *)
Theorem analyze_video_creates_pending strip extract_video_id
    ids readings jobs max_jobs expire_hours
    created updated now job_id request_url video_id :
  table_ok ids readings jobs ->
  1 <= max_jobs ->
  job_id ∉ ids ->
  (forall r, r ∈ readings -> r <= created) ->
  now - timedelta_hours expire_hours <= created ->
  strip request_url <> ""%string ->
  extract_video_id (strip request_url) = Some video_id ->
  video_id <> ""%string ->
  exists jm' events,
    analyze_video strip extract_video_id created updated now job_id
                  request_url (mkJobManager jobs max_jobs expire_hours)
    = Accepted job_id "분석을 시작합니다." jm' events
               [(job_id, strip request_url)]
    /\ Z.of_nat (length (_jobs jm')) <= max_jobs
    /\ get_job_status job_id jm'
       = Ok (mkJobStatus job_id (VStr "pending") (VInt 0)
                         (VStr "대기 중...") (Some (VStr video_id)))
    /\ get_result job_id jm'
       = Raise (HTTPError 400 (VStr "아직 처리가 완료되지 않았습니다.")).
Proof.
  intros Hok Hm Hfresh Hlate Hwin Hurl Hid Hvid.
  destruct (create_job_stores ids readings jobs max_jobs expire_hours
              created updated now job_id (strip request_url) video_id
              Hok Hm Hfresh Hlate Hwin) as (jm' & events & Hc & Hg & Hlen).
  exists jm', events. split; [|split; [exact Hlen|]].
  - unfold analyze_video.
    rewrite bool_decide_eq_false_2 by exact Hurl. rewrite Hid.
    rewrite bool_decide_eq_false_2 by exact Hvid. by rewrite Hc.
  - unfold get_job_status, get_result, job_or_404. rewrite Hg.
    rewrite truthy_new_job. split; reflexivity.
Qed.

(** X9: deleting a job through the endpoint. For a record in the table
    the files are cleaned, the record is removed and the other records
    stay; status and result requests for the id then answer 404, and so
    does a second delete, which cleans nothing. *)
Theorem delete_job_endpoint_removes (jm : JobManager) (job_id : string)
    (j : job) :
  NoDup (_jobs jm).*1 ->
  get_job job_id jm = Some j ->
  truthy (VDict j) = true ->
  exists jm',
    delete_job_endpoint job_id jm
    = (Ok ("작업이 삭제되었습니다."%string, job_id), jm',
       [CleanupJobFiles job_id; DeleteJob job_id])
    /\ (forall other, other <> job_id ->
          get_job other jm' = get_job other jm)
    /\ get_job_status job_id jm'
       = Raise (HTTPError 404 (VStr "작업을 찾을 수 없습니다."))
    /\ get_result job_id jm'
       = Raise (HTTPError 404 (VStr "작업을 찾을 수 없습니다."))
    /\ delete_job_endpoint job_id jm'
       = (Raise (HTTPError 404 (VStr "작업을 찾을 수 없습니다.")), jm', []).
Proof.
  intros Hnd Hg Ht.
  exists (delete_job job_id jm).2.
  pose proof (delete_job_absent job_id jm Hnd) as Hgone.
  split; [|split; [|split; [|split]]].
  - unfold delete_job_endpoint, job_or_404. by rewrite Hg, Ht.
  - intros other Hne. unfold delete_job, get_job.
    assert (Hm : od_mem job_id (_jobs jm) = true)
      by (apply od_mem_true; unfold get_job in Hg; eauto).
    rewrite Hm. simpl. by apply od_del_get_ne.
  - unfold get_job_status, job_or_404. by rewrite Hgone.
  - unfold get_result, job_or_404. by rewrite Hgone.
  - unfold delete_job_endpoint, job_or_404. by rewrite Hgone.
Qed.

End JobEndpoints.

Section JobEndpointWitnesses.
Import Py Analyze.

Lemma analyze_video_creates_pending_witness :
  exists jm' events,
    analyze_video (fun url => url) (fun _ => Some "x"%string) 0 0 0 "j1"
                  "https://youtu.be/x" (mkJobManager [] 2 1)
    = Accepted "j1" "분석을 시작합니다." jm' events
               [("j1"%string, "https://youtu.be/x"%string)]
    /\ Z.of_nat (length (_jobs jm')) <= 2
    /\ get_job_status "j1" jm'
       = Ok (mkJobStatus "j1" (VStr "pending") (VInt 0)
                         (VStr "대기 중...") (Some (VStr "x")))
    /\ get_result "j1" jm'
       = Raise (HTTPError 400 (VStr "아직 처리가 완료되지 않았습니다.")).
Proof.
  apply (analyze_video_creates_pending (fun url => url)
           (fun _ => Some "x"%string) [] [] [] 2 1 0 0 0 "j1"
           "https://youtu.be/x" "x").
  - apply table_ok_nil.
  - lia.
  - apply not_elem_of_nil.
  - intros r Hr. by apply elem_of_nil in Hr.
  - unfold timedelta_hours. lia.
  - discriminate.
  - reflexivity.
  - discriminate.
Defined.

Lemma delete_job_endpoint_removes_witness :
  exists jm',
    delete_job_endpoint "j1" one_job
    = (Ok ("작업이 삭제되었습니다."%string, "j1"%string), jm',
       [CleanupJobFiles "j1"; DeleteJob "j1"])
    /\ (forall other, other <> "j1"%string ->
          get_job other jm' = get_job other one_job)
    /\ get_job_status "j1" jm'
       = Raise (HTTPError 404 (VStr "작업을 찾을 수 없습니다."))
    /\ get_result "j1" jm'
       = Raise (HTTPError 404 (VStr "작업을 찾을 수 없습니다."))
    /\ delete_job_endpoint "j1" jm'
       = (Raise (HTTPError 404 (VStr "작업을 찾을 수 없습니다.")), jm', []).
Proof.
  apply (delete_job_endpoint_removes one_job "j1"
           (new_job "j1" "https://youtu.be/x" "x" 0 0)).
  - apply (bool_decide_unpack _). vm_compute. exact I.
  - reflexivity.
  - apply truthy_new_job.
Defined.

End JobEndpointWitnesses.

(** * The writes of a pipeline run *)

Section PipelineTrace.
Import Py Analyze.
Context `{Env}.

Lemma spec_weaken {A} (P : world -> Prop) (m : M A) Q R
    (Q' : A -> world -> Prop) (R' : exn -> world -> Prop) :
  spec P m Q R ->
  (forall a w, Q a w -> Q' a w) ->
  (forall e w, R e w -> R' e w) ->
  spec P m Q' R'.
Proof.
  intros Hm HQ HR w HP. specialize (Hm w HP).
  destruct (m w) as [[a|e] w']; auto.
Qed.

Ltac stage_write_here :=
  split; [reflexivity|];
  split; [eexists; reflexivity|];
  split; [repeat constructor|reflexivity].

(** The stages under an assertion [T k] indexed by the number of writes
    made so far: the clock readings keep it, the [k]-th write leads from
    [T k] to [T (k+1)]. If the suite raises, it does so after one to
    five writes; if it returns, it made the six writes and ended with
    the write of [completed_fields]. *)
Lemma pipeline_stages_indexed (T : nat -> world -> Prop) (Q : world -> Prop)
    job_id url job_dir total_start :
  (forall k w, T k w -> T k (after_time_read w)) ->
  (forall k kwargs, stage_write k kwargs ->
     spec (T k) (job_manager_update_job job_id kwargs)
          (fun _ => T (S k)) (fun _ _ => False)) ->
  (forall recipe video_info transcript timing,
     spec (T 6%nat)
          (job_manager_update_job job_id
             (completed_fields recipe video_info transcript timing))
          (fun _ => Q) (fun _ _ => False)) ->
  spec (T 0%nat) (pipeline_stages job_id url job_dir total_start)
       (fun _ => Q)
       (fun _ w => exists k, (1 <= k <= 5)%nat /\ T k w).
Proof.
  intros Ht Hu Hfinal.
  set (R := fun (_ : exn) w => exists k, (1 <= k <= 5)%nat /\ T k w).
  assert (Htime : forall k, spec (T k) time_time_now (fun _ => T k) R).
  { intros k. apply spec_time_inv. apply Ht. }
  assert (Hel : forall k start,
             spec (T k) (elapsed_since start) (fun _ => T k) R).
  { intros k start. apply spec_elapsed_since. apply Ht. }
  assert (Hw : forall k kwargs, stage_write k kwargs ->
             spec (T k) (job_manager_update_job job_id kwargs)
                  (fun _ => T (S k)) R).
  { intros k kwargs Hk.
    apply (spec_weaken _ _ _ _ _ _ (Hu k kwargs Hk)); [done|].
    by intros e w []. }
  assert (Hr : forall k A (r : result exn A), (1 <= k <= 5)%nat ->
             spec (T k) (lift r) (fun _ => T k) R).
  { intros k A r Hk. apply spec_lift. intros w HT.
    destruct r; [exact HT|]. by exists k. }
  unfold pipeline_stages.
  apply (spec_bind (T 0%nat) _ _ (fun _ => T 0%nat)); [apply Htime|].
  intros step_start1.
  apply (spec_bind (T 0%nat) _ _ (fun _ => T 2%nat)).
  { unfold _step_download.
    apply (spec_bind (T 0%nat) _ _ (fun _ => T 1%nat));
      [apply Hw; stage_write_here|]. intros _.
    apply (spec_bind (T 1%nat) _ _ (fun _ => T 1%nat));
      [apply Hr; lia|]. intros video_info.
    apply (spec_bind (T 1%nat) _ _ (fun _ => T 2%nat));
      [apply Hw; stage_write_here|]. intros _.
    apply spec_ret. auto. }
  intros video_info.
  apply (spec_bind (T 2%nat) _ _ (fun _ => T 2%nat)); [apply Hel|].
  intros d1.
  apply (spec_bind (T 2%nat) _ _ (fun _ => T 2%nat)); [apply Htime|].
  intros step_start2.
  apply (spec_bind (T 2%nat) _ _ (fun _ => T 2%nat)); [apply Hr; lia|].
  intros audio_path.
  apply (spec_bind (T 2%nat) _ _ (fun _ => T 4%nat)).
  { unfold _step_extract_transcript.
    apply (spec_bind (T 2%nat) _ _ (fun _ => T 3%nat));
      [apply Hw; stage_write_here|]. intros _.
    apply (spec_bind (T 3%nat) _ _ (fun _ => T 3%nat));
      [apply Hr; lia|]. intros transcript.
    apply (spec_bind (T 3%nat) _ _ (fun _ => T 3%nat));
      [apply Hr; lia|]. intros valid.
    apply (spec_bind (T 3%nat) _ _ (fun _ => T 3%nat)).
    { destruct valid; [apply spec_ret; auto|].
      apply spec_raise. intros w HT. exists 3%nat. split; [lia|done]. }
    intros _.
    apply (spec_bind (T 3%nat) _ _ (fun _ => T 4%nat));
      [apply Hw; stage_write_here|]. intros _.
    apply spec_ret. auto. }
  intros [transcript transcript_source].
  apply (spec_bind (T 4%nat) _ _ (fun _ => T 4%nat)); [apply Hel|].
  intros d2.
  apply (spec_bind (T 4%nat) _ _ (fun _ => T 4%nat)); [apply Htime|].
  intros step_start3.
  apply (spec_bind (T 4%nat) _ _ (fun _ => T 6%nat)).
  { unfold _step_parse_recipe.
    apply (spec_bind (T 4%nat) _ _ (fun _ => T 5%nat));
      [apply Hw; stage_write_here|]. intros _.
    apply (spec_bind (T 5%nat) _ _ (fun _ => T 5%nat));
      [apply Hr; lia|]. intros recipe.
    apply (spec_bind (T 5%nat) _ _ (fun _ => T 6%nat));
      [apply Hw; stage_write_here|]. intros _.
    apply spec_ret. auto. }
  intros recipe.
  apply (spec_bind (T 6%nat) _ _ (fun _ => T 6%nat)); [apply Hel|].
  intros d3.
  apply (spec_bind (T 6%nat) _ _ (fun _ => T 6%nat)); [apply Hel|].
  intros d4.
  apply (spec_weaken _ _ _ _ _ _ (Hfinal _ _ _ _)); [done|].
  by intros e w [].
Qed.

End PipelineTrace.

Section PipelineWrites.
Import Py Analyze.
Context `{Env}.

Lemma wrote_time job_id calls0 summaries w :
  wrote job_id calls0 summaries w ->
  wrote job_id calls0 summaries (after_time_read w).
Proof. done. Qed.

Lemma wrote_update job_id calls0 summaries kwargs w :
  wrote job_id calls0 summaries w ->
  exists w',
    job_manager_update_job job_id kwargs w = (Ok tt, w')
    /\ wrote job_id calls0
             (summaries ++ [(kwargs !! "status"%string,
                             kwargs !! "progress"%string)]) w'.
Proof.
  intros (calls & Hc & Hid & Hs).
  destruct (update_run job_id kwargs w) as (jm' & reads & _ & Hrun).
  eexists. split; [exact Hrun|].
  exists (calls ++ [(job_id, kwargs)]). simpl.
  split; [by rewrite Hc, app_assoc|].
  split; [apply Forall_app; split; [exact Hid|by apply Forall_singleton]|].
  by rewrite fmap_app, Hs.
Qed.

(** X10: the progress a client can observe. With the working directory
    in place, the calls of [update_job] of one run are all for the job
    of the run, and their status and progress form a prefix of
    processing/5, 25, 35, 50, 55, 90 followed by the final write: all
    six and completed/100 when the stages return; one to five of them
    and failed/0 when they raise an [Exception]; one to five of them and
    no final write when they raise anything else. *)
Theorem process_video_write_trace job_id url w :
  mkdir_exist_ok (job_dir_of job_id) = Ok tt ->
  exists calls,
    update_calls (process_video job_id url w).2 = update_calls w ++ calls
    /\ Forall (fun call => call.1 = job_id) calls
    /\ match (stages_outcome job_id url w).1 with
       | Ok _ =>
           write_summary <$> calls = stage_trace ++ [completed_summary]
       | Raise e =>
           exists k, (1 <= k <= 5)%nat
             /\ write_summary <$> calls
                = take k stage_trace
                  ++ (if issubclass (cls e) Exception
                      then [failed_summary] else [])
       end.
Proof.
  intros Hmk. rewrite (process_video_run job_id url w Hmk).
  set (T := fun k => wrote job_id (update_calls w) (take k stage_trace)).
  assert (Hstages :
    spec (T 0%nat)
      (pipeline_stages job_id url (job_dir_of job_id)
         (time_time (time_reads w)))
      (fun _ => wrote job_id (update_calls w)
                  (stage_trace ++ [completed_summary]))
      (fun _ w' => exists k, (1 <= k <= 5)%nat /\ T k w')).
  { apply pipeline_stages_indexed.
    - intros k w'. apply wrote_time.
    - intros k kwargs (Hk & _) w' HT.
      destruct (wrote_update _ _ _ kwargs _ HT) as (w'' & -> & Hw).
      unfold T. by rewrite (take_S_r _ _ _ Hk).
    - intros recipe video_info transcript timing w' HT.
      destruct (wrote_update _ _ _
                  (completed_fields recipe video_info transcript timing)
                  _ HT) as (w'' & -> & Hw).
      exact Hw. }
  assert (H0 : T 0%nat (after_time_read w)).
  { exists []. simpl. by rewrite app_nil_r. }
  specialize (Hstages _ H0). unfold stages_outcome.
  destruct (pipeline_stages job_id url (job_dir_of job_id)
              (time_time (time_reads w)) (after_time_read w))
    as [[[]|e] w'].
  - destruct Hstages as (calls & Hc & Hid & Hs). by exists calls.
  - destruct Hstages as (k & Hk & HT). cbn [fst].
    destruct (issubclass (cls e) Exception).
    + destruct (wrote_update _ _ _ (failed_fields (text e)) _ HT)
        as (w'' & -> & calls & Hc & Hid & Hs).
      exists calls. simpl. split; [exact Hc|]. split; [exact Hid|].
      exists k. split; [lia|]. rewrite Hs. reflexivity.
    + destruct HT as (calls & Hc & Hid & Hs).
      exists calls. simpl. split; [exact Hc|]. split; [exact Hid|].
      exists k. by rewrite app_nil_r.
Qed.

End PipelineWrites.

Section PipelineRecord.
Import Py Analyze.
Context `{Env}.

Lemma identity_keys_not_updated key :
  key ∈ identity_keys -> key <> "updated_at"%string.
Proof.
  assert (Hn : "updated_at"%string ∉ identity_keys)
    by (apply (bool_decide_unpack _); vm_compute; exact I).
  intros Hin ->. by apply Hn.
Qed.

Lemma same_identity_refl j : same_identity j j.
Proof. unfold same_identity. by apply Forall_forall. Qed.

Lemma same_identity_written now kwargs j j' :
  keeps_identity kwargs -> same_identity j j' ->
  same_identity j (<["updated_at"%string := VDatetime now]> (kwargs ∪ j')).
Proof.
  unfold keeps_identity, same_identity. rewrite !Forall_forall.
  intros Hk Hs key Hin.
  rewrite lookup_insert_ne by (symmetry; by apply identity_keys_not_updated).
  rewrite lookup_union_r by (by apply Hk). by apply Hs.
Qed.

(** A write to a record that is there: the record takes the keyword
    arguments, the other records and the order of the keys stay. *)
Lemma own_record_update job_id j jm0 (P P' : job -> Prop) kwargs w :
  keeps_identity kwargs ->
  (forall now j', P j' ->
     P' (<["updated_at"%string := VDatetime now]> (kwargs ∪ j'))) ->
  own_record job_id j jm0 P w ->
  exists w',
    job_manager_update_job job_id kwargs w = (Ok tt, w')
    /\ own_record job_id j jm0 P' w'.
Proof.
  intros Hk HP ((j' & Hg & Hid & Hj') & Hframe & Hkeys).
  unfold job_manager_update_job.
  rewrite (update_job_present _ _ _ _ _ Hg).
  eexists. split; [reflexivity|]. unfold own_record, get_job. simpl.
  split; [|split].
  - eexists. split; [apply od_get_set_eq|].
    split; [by apply same_identity_written|by apply HP].
  - intros other Hne. rewrite od_get_set_ne by done. by apply Hframe.
  - rewrite <- Hkeys. apply od_set_keys.
    unfold get_job in Hg. apply od_get_Some_elem in Hg.
    by apply (list_elem_of_fmap_2 fst) in Hg.
Qed.

Lemma own_record_time job_id j jm0 P w :
  own_record job_id j jm0 P w -> own_record job_id j jm0 P (after_time_read w).
Proof. done. Qed.

Lemma in_progress_written k now kwargs j' :
  stage_write k kwargs ->
  ((1 <= k)%nat -> in_progress j') ->
  in_progress (<["updated_at"%string := VDatetime now]> (kwargs ∪ j')).
Proof.
  intros (Hk & Hmsg & _ & _) Hj'. unfold in_progress.
  rewrite !lookup_insert_ne by done.
  assert (Hprog : is_Some (kwargs !! "progress"%string)).
  { do 6 (destruct k as [|k]; [injection Hk as _ <-; eauto|]).
    discriminate Hk. }
  split; [|split; apply lookup_union_is_Some; by left].
  destruct k as [|k].
  - injection Hk as Hst _. by apply lookup_union_Some_l.
  - assert (Hst : kwargs !! "status"%string = None).
    { do 5 (destruct k as [|k]; [by injection Hk as <- _|]).
      discriminate Hk. }
    rewrite lookup_union_r by exact Hst. apply Hj'. lia.
Qed.

(** The table after a run that started with the record [j] of [job_id]
    in it, by the outcome of the stages. *)
Lemma process_video_own_record job_id url w j :
  mkdir_exist_ok (job_dir_of job_id) = Ok tt ->
  get_job job_id (job_manager w) = Some j ->
  own_record job_id j (job_manager w)
    (match (stages_outcome job_id url w).1 with
     | Ok _ => completed_record
     | Raise e =>
         if issubclass (cls e) Exception
         then record_shows "failed" 0 ("오류 발생: " ++ text e)
         else in_progress
     end)
    (process_video job_id url w).2.
Proof.
  intros Hmk Hg. rewrite (process_video_run job_id url w Hmk).
  set (jm0 := job_manager w).
  set (T := fun k : nat =>
              own_record job_id j jm0
                (fun j' => (1 <= k)%nat -> in_progress j')).
  assert (Hstages :
    spec (T 0%nat)
      (pipeline_stages job_id url (job_dir_of job_id)
         (time_time (time_reads w)))
      (fun _ => own_record job_id j jm0 completed_record)
      (fun _ w' => exists k, (1 <= k <= 5)%nat /\ T k w')).
  { apply pipeline_stages_indexed.
    - intros k w'. apply own_record_time.
    - intros k kwargs Hk w' HT.
      destruct (own_record_update job_id j jm0 _
                  (fun j' => (1 <= S k)%nat -> in_progress j')
                  kwargs w' (proj1 (proj2 (proj2 Hk)))
                  (fun now j' Hj' _ => in_progress_written k now kwargs j'
                                         Hk Hj') HT)
        as (w'' & -> & Hw). exact Hw.
    - intros recipe video_info transcript timing w' HT.
      assert (HP : forall now j', ((1 <= 6)%nat -> in_progress j') ->
                completed_record
                  (<["updated_at"%string := VDatetime now]>
                     (completed_fields recipe video_info transcript timing
                      ∪ j'))).
      { intros now j' _. split.
        - repeat split; rewrite lookup_insert_ne by done;
            apply lookup_union_Some_l; reflexivity.
        - exists recipe, video_info, transcript, timing.
          rewrite lookup_insert_ne by done.
          apply lookup_union_Some_l. reflexivity. }
      destruct (own_record_update job_id j jm0 _ completed_record
                  (completed_fields recipe video_info transcript timing) w'
                  ltac:(repeat constructor) HP HT)
        as (w'' & -> & Hw). exact Hw. }
  assert (H0 : T 0%nat (after_time_read w)).
  { split; [|done]. exists j. split; [exact Hg|].
    split; [apply same_identity_refl|lia]. }
  specialize (Hstages _ H0). unfold stages_outcome.
  destruct (pipeline_stages job_id url (job_dir_of job_id)
              (time_time (time_reads w)) (after_time_read w))
    as [[[]|e] w']; cbn [fst snd]; [exact Hstages|].
  destruct Hstages as (k & Hk & HT).
  destruct (issubclass (cls e) Exception).
  - assert (HP : forall now j', ((1 <= k)%nat -> in_progress j') ->
              record_shows "failed" 0 ("오류 발생: " ++ text e)
                (<["updated_at"%string := VDatetime now]>
                   (failed_fields (text e) ∪ j'))).
    { intros now j' _.
      repeat split; rewrite lookup_insert_ne by done;
        apply lookup_union_Some_l; reflexivity. }
    destruct (own_record_update job_id j jm0 _
                (record_shows "failed" 0 ("오류 발생: " ++ text e))
                (failed_fields (text e)) w'
                ltac:(repeat constructor) HP HT)
      as (w'' & -> & Hw). exact Hw.
  - destruct HT as ((j' & Hg' & Hid & Hj') & Hrest).
    split; [|exact Hrest]. exists j'. split; [exact Hg'|].
    split; [exact Hid|]. apply Hj'. lia.
Qed.

End PipelineRecord.

Section RunAndEndpoints.
Import Py Analyze.
Context `{Env}.

Lemma truthy_record (j : job) key v :
  j !! key = Some v -> truthy (VDict j) = true.
Proof.
  intros Hk. simpl. apply negb_true_iff, bool_decide_eq_false.
  intros Hz. apply map_size_empty_iff in Hz. by rewrite Hz in Hk.
Qed.

Lemma job_item_Some (j : job) key v :
  j !! key = Some v -> job_item j key = Ok v.
Proof. intros Hk. unfold job_item. by rewrite Hk. Qed.

(** The status endpoint on a record that has the three fields. *)
Lemma get_job_status_shows job_id jm (j : job) status progress message :
  get_job job_id jm = Some j ->
  j !! "status"%string = Some status ->
  j !! "progress"%string = Some progress ->
  j !! "message"%string = Some message ->
  get_job_status job_id jm
  = Ok (mkJobStatus job_id status progress message (j !! "video_id"%string)).
Proof.
  intros Hg Hs Hp Hm. unfold get_job_status, job_or_404, job_item.
  rewrite Hg, (truthy_record _ _ _ Hs). cbn [mbind result_bind bind].
  by rewrite Hs, Hp, Hm.
Qed.

(** The result endpoint by the status of the record. *)
Lemma get_result_by_status job_id jm (j : job) status :
  get_job job_id jm = Some j ->
  j !! "status"%string = Some (VStr status) ->
  get_result job_id jm
  = if bool_decide (status = "failed"%string) then
      Raise (HTTPError 400
               (default (VStr "작업이 실패했습니다.") (j !! "message"%string)))
    else if bool_decide (status = "completed"%string) then
      job_item j "result"
    else Raise (HTTPError 400 (VStr "아직 처리가 완료되지 않았습니다.")).
Proof.
  intros Hg Hs. unfold get_result, job_or_404.
  rewrite Hg, (truthy_record _ _ _ Hs). cbn [mbind result_bind bind].
  rewrite !(job_item_Some _ _ _ Hs). cbn [mbind result_bind bind eq_str].
  destruct (bool_decide (status = "failed"%string)); [done|].
  cbn [mbind result_bind bind eq_str].
  by destruct (bool_decide (status = "completed"%string)).
Qed.

Lemma same_identity_video_id (j j' : job) :
  same_identity j j' -> j' !! "video_id"%string = j !! "video_id"%string.
Proof.
  unfold same_identity. rewrite Forall_forall. intros Hs. apply Hs.
  apply (bool_decide_unpack _). vm_compute. exact I.
Qed.

(** X11: a run touches its own record only. With the working directory
    in place and the record of the job in the table, after the run the
    record is still there with the same [job_id], [url], [video_id] and
    [created_at]; every other record is unchanged; and the keys of the
    table are in the same order, so that the writes of a run do not move
    its job away from the oldest end. *)
Theorem process_video_touches_own_record job_id url w (j : job) :
  mkdir_exist_ok (job_dir_of job_id) = Ok tt ->
  get_job job_id (job_manager w) = Some j ->
  (exists j',
     get_job job_id (job_manager (process_video job_id url w).2) = Some j'
     /\ same_identity j j')
  /\ (forall other, other <> job_id ->
        get_job other (job_manager (process_video job_id url w).2)
        = get_job other (job_manager w))
  /\ (_jobs (job_manager (process_video job_id url w).2)).*1
     = (_jobs (job_manager w)).*1.
Proof.
  intros Hmk Hg.
  destruct (process_video_own_record job_id url w j Hmk Hg)
    as ((j' & Hg' & Hid & _) & Hframe & Hkeys).
  split; [by exists j'|]. by split.
Qed.

(** X12: what the endpoints answer after a run, for a record that was
    in the table and with the working directory in place. If the stages
    returned, the status is completed/100 and the result endpoint returns
    a dictionary with the recipe, the video information, the transcript
    and the timing. If they raised an [Exception], the status is
    failed/0 and the result endpoint answers 400 with the message of the
    record, which ends with the text of the exception. If they raised
    something else, the job stays in processing and the result endpoint
    answers 400 as not completed yet. The video id reported is the one
    the job was created with. *)
Theorem endpoints_after_run job_id url w (j : job) :
  mkdir_exist_ok (job_dir_of job_id) = Ok tt ->
  get_job job_id (job_manager w) = Some j ->
  match (stages_outcome job_id url w).1 with
  | Ok _ =>
      get_job_status job_id (job_manager (process_video job_id url w).2)
      = Ok (mkJobStatus job_id (VStr "completed") (VInt 100)
                        (VStr "레시피 추출 완료!") (j !! "video_id"%string))
      /\ exists recipe video_info transcript timing,
           get_result job_id (job_manager (process_video job_id url w).2)
           = Ok (VDict (list_to_map
                          [("recipe", recipe); ("video_info", video_info);
                           ("transcript", transcript);
                           ("timing", VDict timing)]%string))
  | Raise e =>
      if issubclass (cls e) Exception then
        get_job_status job_id (job_manager (process_video job_id url w).2)
        = Ok (mkJobStatus job_id (VStr "failed") (VInt 0)
                          (VStr ("오류 발생: " ++ text e))
                          (j !! "video_id"%string))
        /\ get_result job_id (job_manager (process_video job_id url w).2)
           = Raise (HTTPError 400 (VStr ("오류 발생: " ++ text e)))
      else
        (exists progress message,
           get_job_status job_id (job_manager (process_video job_id url w).2)
           = Ok (mkJobStatus job_id (VStr "processing") progress message
                             (j !! "video_id"%string)))
        /\ get_result job_id (job_manager (process_video job_id url w).2)
           = Raise (HTTPError 400 (VStr "아직 처리가 완료되지 않았습니다."))
  end.
Proof.
  intros Hmk Hg.
  destruct (process_video_own_record job_id url w j Hmk Hg)
    as ((j' & Hg' & Hid & Hj') & _).
  apply same_identity_video_id in Hid.
  destruct (stages_outcome job_id url w).1 as [[]|e].
  - destruct Hj' as ((Hs & Hp & Hm) & recipe & video_info & transcript
                     & timing & Hres).
    split.
    + rewrite <- Hid. by apply get_job_status_shows.
    + exists recipe, video_info, transcript, timing.
      rewrite (get_result_by_status _ _ _ _ Hg' Hs).
      unfold job_item. by rewrite Hres.
  - destruct (issubclass (cls e) Exception).
    + destruct Hj' as (Hs & Hp & Hm). split.
      * rewrite <- Hid. by apply get_job_status_shows.
      * rewrite (get_result_by_status _ _ _ _ Hg' Hs). by rewrite Hm.
    + destruct Hj' as (Hs & [progress Hp] & [message Hm]). split.
      * exists progress, message. rewrite <- Hid.
        by apply get_job_status_shows.
      * by rewrite (get_result_by_status _ _ _ _ Hg' Hs).
Qed.

End RunAndEndpoints.

Section PipelineTraceWitnesses.
Import Py Analyze.

Lemma process_video_write_trace_witness :
  exists calls,
    update_calls
      (@process_video working_env "j1" "https://youtu.be/x"
         (world_of one_job)).2
    = update_calls (world_of one_job) ++ calls
    /\ Forall (fun call => call.1 = "j1"%string) calls
    /\ match (@stages_outcome working_env "j1" "https://youtu.be/x"
                (world_of one_job)).1 with
       | Ok _ =>
           write_summary <$> calls = stage_trace ++ [completed_summary]
       | Raise e =>
           exists k, (1 <= k <= 5)%nat
             /\ write_summary <$> calls
                = take k stage_trace
                  ++ (if issubclass (cls e) Exception
                      then [failed_summary] else [])
       end.
Proof.
  apply (@process_video_write_trace working_env "j1" "https://youtu.be/x"
           (world_of one_job)).
  reflexivity.
Defined.

Lemma process_video_touches_own_record_witness :
  (exists j',
     get_job "j1"
       (job_manager (@process_video offline_env "j1" "https://youtu.be/x"
                       (world_of one_job)).2) = Some j'
     /\ same_identity (new_job "j1" "https://youtu.be/x" "x" 0 0) j')
  /\ (forall other, other <> "j1"%string ->
        get_job other
          (job_manager (@process_video offline_env "j1" "https://youtu.be/x"
                          (world_of one_job)).2)
        = get_job other (job_manager (world_of one_job)))
  /\ (_jobs (job_manager (@process_video offline_env "j1"
                            "https://youtu.be/x" (world_of one_job)).2)).*1
     = (_jobs (job_manager (world_of one_job))).*1.
Proof.
  apply (@process_video_touches_own_record offline_env "j1"
           "https://youtu.be/x" (world_of one_job)
           (new_job "j1" "https://youtu.be/x" "x" 0 0)); reflexivity.
Defined.

End PipelineTraceWitnesses.

Section RunAndEndpointWitnesses.
Import Py Analyze.

Lemma endpoints_after_run_witness :
  match (@stages_outcome offline_env "j1" "https://youtu.be/x"
           (world_of one_job)).1 with
  | Ok _ =>
      get_job_status "j1"
        (job_manager (@process_video offline_env "j1" "https://youtu.be/x"
                        (world_of one_job)).2)
      = Ok (mkJobStatus "j1" (VStr "completed") (VInt 100)
                        (VStr "레시피 추출 완료!")
                        (new_job "j1" "https://youtu.be/x" "x" 0 0
                           !! "video_id"%string))
      /\ exists recipe video_info transcript timing,
           get_result "j1"
             (job_manager (@process_video offline_env "j1"
                             "https://youtu.be/x" (world_of one_job)).2)
           = Ok (VDict (list_to_map
                          [("recipe", recipe); ("video_info", video_info);
                           ("transcript", transcript);
                           ("timing", VDict timing)]%string))
  | Raise e =>
      if issubclass (cls e) Exception then
        get_job_status "j1"
          (job_manager (@process_video offline_env "j1" "https://youtu.be/x"
                          (world_of one_job)).2)
        = Ok (mkJobStatus "j1" (VStr "failed") (VInt 0)
                          (VStr ("오류 발생: " ++ text e))
                          (new_job "j1" "https://youtu.be/x" "x" 0 0
                             !! "video_id"%string))
        /\ get_result "j1"
             (job_manager (@process_video offline_env "j1"
                             "https://youtu.be/x" (world_of one_job)).2)
           = Raise (HTTPError 400 (VStr ("오류 발생: " ++ text e)))
      else
        (exists progress message,
           get_job_status "j1"
             (job_manager (@process_video offline_env "j1"
                             "https://youtu.be/x" (world_of one_job)).2)
           = Ok (mkJobStatus "j1" (VStr "processing") progress message
                             (new_job "j1" "https://youtu.be/x" "x" 0 0
                                !! "video_id"%string)))
        /\ get_result "j1"
             (job_manager (@process_video offline_env "j1"
                             "https://youtu.be/x" (world_of one_job)).2)
           = Raise (HTTPError 400 (VStr "아직 처리가 완료되지 않았습니다."))
  end.
Proof.
  apply (@endpoints_after_run offline_env "j1" "https://youtu.be/x"
           (world_of one_job) (new_job "j1" "https://youtu.be/x" "x" 0 0));
    reflexivity.
Defined.

End RunAndEndpointWitnesses.

(** * Capacities below one *)

Section DegenerateCapacity.
Import Py Analyze.

Lemma evict_negative max_jobs jobs :
  max_jobs < 0 ->
  evict_over_capacity max_jobs jobs = Raise (mkExn StopIteration "").
Proof.
  intros Hm. induction jobs as [|[k j] jobs IH]; simpl.
  - by rewrite bool_decide_eq_true_2 by lia.
  - rewrite bool_decide_eq_true_2 by lia. by rewrite IH.
Qed.

(** X13: capacities below one. On a table built by earlier creates, a
    create with [max_jobs = 0] returns the new record but removes it,
    and every other record, in its own sweep, cleaning the files of the
    new job, so that the id it returned is not found afterwards; with a
    negative [max_jobs] the create raises [StopIteration]. *)
Theorem create_job_below_capacity_one ids readings jobs max_jobs
    expire_hours created updated now job_id url video_id :
  table_ok ids readings jobs ->
  job_id ∉ ids ->
  (forall r, r ∈ readings -> r <= created) ->
  (max_jobs = 0 ->
     exists events,
       create_job created updated now job_id url video_id
                  (mkJobManager jobs max_jobs expire_hours)
       = Ok (new_job job_id url video_id created updated,
             mkJobManager [] max_jobs expire_hours, events)
       /\ CleanupJobFiles job_id ∈ events
       /\ get_job_status job_id (mkJobManager [] max_jobs expire_hours)
          = Raise (HTTPError 404 (VStr "작업을 찾을 수 없습니다.")))
  /\ (max_jobs < 0 ->
        create_job created updated now job_id url video_id
                   (mkJobManager jobs max_jobs expire_hours)
        = Raise (mkExn StopIteration "")).
Proof.
  intros Hok Hfresh Hlate. split.
  - intros ->.
    destruct (create_job_step ids readings jobs 0 expire_hours created
                updated now job_id url video_id Hok ltac:(lia) Hfresh Hlate)
      as (Hc & _).
    set (j := new_job job_id url video_id created updated) in *.
    set (th := now - timedelta_hours expire_hours) in *.
    set (all := jobs ++ [(job_id, j)]) in *.
    set (candidates := filter (fun item => within_window th item) all) in *.
    change (Z.to_nat 0) with 0%nat in Hc. rewrite Nat.sub_0_r in Hc.
    rewrite drop_all, firstn_all in Hc.
    eexists. split; [exact Hc|]. split; [|reflexivity].
    assert (Hin : (job_id, j) ∈ all)
      by (apply elem_of_app; right; apply list_elem_of_here).
    apply elem_of_app.
    destruct (within_window th (job_id, j)) eqn:Hw.
    + right. apply removal_events_elem.
      apply (list_elem_of_fmap_2 fst candidates (job_id, j)).
      apply list_elem_of_filter. split; [by rewrite Hw|exact Hin].
    + left. apply removal_events_elem.
      apply (list_elem_of_fmap_2 fst _ (job_id, j)).
      apply list_elem_of_filter. split; [|exact Hin].
      rewrite Hw. intros [].
  - intros Hm.
    pose proof (table_ok_snoc ids readings jobs job_id url video_id created
                  updated now Hok Hfresh Hlate) as Hall.
    unfold create_job, _cleanup_old_jobs. simpl.
    rewrite od_set_fresh by (intros Hin; by apply Hfresh, (ok_keys _ _ _ Hok)).
    set (th := now - timedelta_hours expire_hours).
    rewrite (expired_jobs_filter now th).
    2:{ eapply Forall_impl; [exact (ok_created _ _ _ Hall)|].
        intros item (t & Ht & _). eauto. }
    cbn [mbind result_bind bind].
    pose proof (delete_expired_filter th _ [] (ok_nodup _ _ _ Hall)) as Hdel.
    simpl in Hdel. rewrite Hdel. cbn [mbind result_bind bind].
    by rewrite (evict_negative _ _ Hm).
Qed.

End DegenerateCapacity.

Section DegenerateCapacityWitness.
Import Py Analyze.

Lemma create_job_below_capacity_one_witness :
  (0 = 0 ->
     exists events,
       create_job 0 0 0 "j1" "https://youtu.be/x" "x" (mkJobManager [] 0 1)
       = Ok (new_job "j1" "https://youtu.be/x" "x" 0 0,
             mkJobManager [] 0 1, events)
       /\ CleanupJobFiles "j1" ∈ events
       /\ get_job_status "j1" (mkJobManager [] 0 1)
          = Raise (HTTPError 404 (VStr "작업을 찾을 수 없습니다.")))
  /\ (0 < 0 ->
        create_job 0 0 0 "j1" "https://youtu.be/x" "x" (mkJobManager [] 0 1)
        = Raise (mkExn StopIteration "")).
Proof.
  apply (create_job_below_capacity_one [] [] [] 0 1 0 0 0 "j1"
           "https://youtu.be/x" "x").
  - apply table_ok_nil.
  - apply not_elem_of_nil.
  - intros r Hr. by apply elem_of_nil in Hr.
Defined.

End DegenerateCapacityWitness.

(** * Transcripts that are too short *)

Section ShortTranscript.
Import Py Analyze.
Context `{Env}.

Lemma short_transcript_invalid transcript :
  short_transcript transcript -> _is_valid_transcript transcript = Ok false.
Proof.
  destruct transcript as [| | | | | |d]; try done.
  unfold short_transcript, _is_valid_transcript. intros Hshort.
  destruct (truthy (VDict d)); [|done]. cbn [negb mbind result_bind bind].
  destruct (d !! "full_text"%string) as [[| | |s| | |]|]; try done.
  simpl.
  by rewrite bool_decide_eq_false_2 by (unfold MIN_TRANSCRIPT_LENGTH in *; lia).
Qed.

Lemma invalid_transcript_outcome job_id url w video_info audio_path
    transcript :
  download_video url (job_dir_of job_id) = Ok video_info ->
  subscript video_info "audio_path" = Ok audio_path ->
  transcribe_audio audio_path = Ok transcript ->
  _is_valid_transcript transcript = Ok false ->
  (stages_outcome job_id url w).1
  = Raise (mkExn Exception
             ("영상에서 텍스트를 추출할 수 없습니다. "
              ++ "음성이나 자막이 포함된 영상인지 확인해주세요.")).
Proof.
  intros Hdl Hsub Htr Hvalid. unfold stages_outcome, pipeline_stages.
  rewrite bind_run, time_time_now_run. lazy beta iota. rewrite bind_run.
  destruct (step_download_run job_id url (job_dir_of job_id)
              (after_time_read (after_time_read w))) as (w1 & _ & ->).
  rewrite Hdl. cbn [reraise_as_exception].
  rewrite bind_run, elapsed_since_run. lazy beta iota.
  rewrite bind_run, time_time_now_run. lazy beta iota.
  rewrite bind_run. unfold lift at 1. rewrite Hsub.
  rewrite bind_run.
  destruct (step_extract_transcript_run job_id url (job_dir_of job_id)
              audio_path (after_time_read (after_time_read w1)))
    as (w2 & _ & ->).
  rewrite Htr. cbn [reraise_as_exception mbind result_bind bind].
  rewrite Hvalid. reflexivity.
Qed.

(** X14: a transcript that is too short. When the download and the
    transcription succeed but the transcript is [None], has no
    [full_text], or has a [full_text] of fewer than 20 characters, the
    run of a job in the table ends with the job failed, whatever the
    recipe parser would answer: the status endpoint shows failed/0 and
    the result endpoint answers 400, both with the fixed message that no
    text could be extracted. *)
Theorem short_transcript_fails_job job_id url w (j : job) video_info
    audio_path transcript :
  mkdir_exist_ok (job_dir_of job_id) = Ok tt ->
  get_job job_id (job_manager w) = Some j ->
  download_video url (job_dir_of job_id) = Ok video_info ->
  subscript video_info "audio_path" = Ok audio_path ->
  transcribe_audio audio_path = Ok transcript ->
  short_transcript transcript ->
  let message :=
    VStr ("오류 발생: 영상에서 텍스트를 추출할 수 없습니다. "
          ++ "음성이나 자막이 포함된 영상인지 확인해주세요.") in
  (process_video job_id url w).1 = Ok tt
  /\ get_job_status job_id (job_manager (process_video job_id url w).2)
     = Ok (mkJobStatus job_id (VStr "failed") (VInt 0) message
                       (j !! "video_id"%string))
  /\ get_result job_id (job_manager (process_video job_id url w).2)
     = Raise (HTTPError 400 message).
Proof.
  intros Hmk Hg Hdl Hsub Htr Hshort message.
  pose proof (invalid_transcript_outcome job_id url w _ _ _ Hdl Hsub Htr
                (short_transcript_invalid _ Hshort)) as Hout.
  pose proof (process_video_own_record job_id url w j Hmk Hg) as Hrec.
  rewrite Hout in Hrec.
  destruct Hrec as ((j' & Hg' & Hid & Hs & Hp & Hm) & _).
  apply same_identity_video_id in Hid.
  split; [|split].
  - rewrite (process_video_run job_id url w Hmk).
    destruct (stages_outcome job_id url w) as [r w'] eqn:Hso.
    simpl in Hout. subst r.
    change (issubclass (cls _) Exception) with true. cbv iota.
    match goal with
    | |- (job_manager_update_job ?a ?kwargs ?w0).1 = _ =>
        by destruct (update_run a kwargs w0) as (jm' & reads & _ & ->)
    end.
  - rewrite <- Hid. by apply get_job_status_shows.
  - rewrite (get_result_by_status _ _ _ _ Hg' Hs). simpl. by rewrite Hm.
Qed.

End ShortTranscript.

(** * The recipe parser *)

Section RecipeValidation.
Import Py RecipeParser.
Context `{Env}.

Lemma validated_ingredient_well_formed ing v :
  validated_ingredient ing = Some v -> well_formed_ingredient v.
Proof.
  destruct ing as [| | | | | |d]; try done. unfold validated_ingredient.
  case_bool_decide as Hname; [done|]. intros [= <-].
  eexists _, _, _, _. split; [reflexivity|exact Hname].
Qed.

Lemma validate_ingredients_well_formed ingredients v :
  _validate_ingredients ingredients = Ok v ->
  exists items, v = JList items /\ Forall well_formed_ingredient items.
Proof.
  unfold _validate_ingredients.
  destruct (iterate ingredients) as [items|e]; [|done].
  cbn [mbind result_bind bind]. intros [= <-].
  eexists. split; [reflexivity|].
  apply Forall_forall. intros x Hx.
  apply list_elem_of_omap in Hx as (ing & _ & Hing).
  by eapply validated_ingredient_well_formed.
Qed.

Lemma max0_cases x :
  max0 x = JInt 0
  \/ exists y, max0 x = JFloat y /\ PrimFloat.ltb 0%float y = true.
Proof.
  unfold max0. destruct (PrimFloat.ltb 0%float x) eqn:Hx; eauto.
Qed.

Lemma validated_step_well_formed i step v :
  validated_step i step = Ok (Some v) -> well_formed_step v.
Proof.
  destruct step as [| | | | | |d]; try done. unfold validated_step.
  destruct (float_of _) as [timestamp|e]; [|done].
  cbn [mbind result_bind bind]. intros [= <-].
  eexists _, (max0 timestamp). split; [reflexivity|].
  split; [|split; [reflexivity|apply max0_cases]].
  apply (bool_decide_unpack _). vm_compute. exact I.
Qed.

Lemma validate_steps_from_well_formed steps : forall i validated,
  validate_steps_from i steps = Ok validated ->
  Forall well_formed_step validated.
Proof.
  induction steps as [|step steps IH]; intros i validated; simpl.
  - by intros [= <-].
  - destruct (validated_step i step) as [v|e] eqn:Hv; [|done].
    cbn [mbind result_bind bind].
    destruct (validate_steps_from (i + 1) steps) as [vs|e] eqn:Hvs; [|done].
    cbn [mbind result_bind bind]. intros [= <-].
    specialize (IH _ _ Hvs).
    destruct v as [v|]; [|exact IH].
    apply Forall_cons. split; [|exact IH].
    by eapply validated_step_well_formed.
Qed.

Lemma validate_steps_well_formed steps v :
  _validate_steps steps = Ok v ->
  exists items, v = JList items /\ Forall well_formed_step items.
Proof.
  unfold _validate_steps.
  destruct (iterate steps) as [items|e]; [|done].
  cbn [mbind result_bind bind].
  destruct (validate_steps_from 0 items) as [vs|e] eqn:Hvs; [|done].
  cbn [mbind result_bind bind]. intros [= <-].
  eexists. split; [reflexivity|]. by eapply validate_steps_from_well_formed.
Qed.

(** Setting the defaults: a key that had a value other than [None]
    keeps it, and every default key ends with such a value. *)
Lemma set_default_keeps d item key x :
  d !! key = Some x -> x <> JNull -> set_default d item !! key = Some x.
Proof.
  intros Hk Hx. unfold set_default.
  destruct (decide (item.1 = key)) as [->|Hne].
  - rewrite Hk. by destruct x.
  - destruct (d !! item.1) as [[]|]; try done;
      by rewrite lookup_insert_ne.
Qed.

Lemma set_defaults_keep items : forall d key x,
  d !! key = Some x -> x <> JNull ->
  foldl set_default d items !! key = Some x.
Proof.
  induction items as [|item items IH]; intros d key x Hk Hx; simpl; [done|].
  apply IH; [|done]. by apply set_default_keeps.
Qed.

Lemma set_default_sets d item :
  item.2 <> JNull ->
  exists x, set_default d item !! item.1 = Some x /\ x <> JNull.
Proof.
  intros Hd. unfold set_default.
  destruct (d !! item.1) as [x|] eqn:Hk.
  - destruct x; try (eexists; split; [exact Hk|done]);
      rewrite lookup_insert_eq; eauto.
  - rewrite lookup_insert_eq. eauto.
Qed.

Lemma set_defaults_set items : forall d,
  Forall (fun item => item.2 <> JNull) items ->
  Forall (fun key => exists x, foldl set_default d items !! key = Some x
                               /\ x <> JNull) items.*1.
Proof.
  induction items as [|item items IH]; intros d Hd; simpl; [done|].
  apply Forall_cons in Hd as [Hitem Hd].
  apply Forall_cons. split; [|by apply IH].
  destruct (set_default_sets d item Hitem) as (x & Hx & Hnn).
  exists x. split; [|done]. by apply set_defaults_keep.
Qed.

Lemma defaults_not_null : Forall (fun item => item.2 <> JNull) defaults.
Proof. unfold defaults. repeat constructor; done. Qed.

End RecipeValidation.

Section RecipeData.
Import Py RecipeParser.
Context `{Env}.

Lemma validate_fields_well_formed (d1 : gmap string json) validated :
  validate_fields d1 = Ok validated ->
  exists ingredients steps,
    validated = JDict (<["ingredients"%string := JList ingredients]>
                         (<["steps"%string := JList steps]> d1))
    /\ Forall well_formed_ingredient ingredients
    /\ Forall well_formed_step steps.
Proof.
  unfold validate_fields.
  destruct (_validate_steps (get d1 "steps" (JList []))) as [steps|e] eqn:Hs;
    [|done].
  cbn [mbind result_bind bind].
  destruct (_validate_ingredients _) as [ingredients|e] eqn:Hi; [|done].
  cbn [mbind result_bind bind]. intros Hv. injection Hv as Hv.
  subst validated.
  apply validate_steps_well_formed in Hs as (ss & -> & Hss).
  apply validate_ingredients_well_formed in Hi as (ings & -> & His).
  exists ings, ss. split; [reflexivity|]. split; assumption.
Qed.

(** The result of a validation that returns. *)
Lemma validate_recipe_data_shape recipe_data validated :
  _validate_recipe_data recipe_data = Ok validated ->
  well_formed_recipe validated
  /\ exists d d',
       recipe_data = JDict d /\ validated = JDict d'
       /\ forall key x,
            key <> "steps"%string -> key <> "ingredients"%string ->
            d !! key = Some x -> x <> JNull -> d' !! key = Some x.
Proof.
  destruct recipe_data as [| | | | | |d]; try discriminate.
  unfold _validate_recipe_data.
  pose proof (set_defaults_set defaults d defaults_not_null) as Hset.
  pose proof (set_defaults_keep defaults d) as Hkeep.
  revert Hset Hkeep. generalize (foldl set_default d defaults).
  intros d1 Hset Hkeep Hv.
  apply validate_fields_well_formed in Hv as (ings & ss & -> & His & Hss).
  split.
  - exists (<["ingredients"%string := JList ings]>
              (<["steps"%string := JList ss]> d1)), ings, ss.
    split; [reflexivity|]. split; [|split; [|split; [|split]]].
    + eapply Forall_impl; [exact Hset|].
      intros key (x & Hx & Hnn). cbv beta in Hx.
      destruct (decide (key = "ingredients"%string)) as [->|Hk1].
      { rewrite lookup_insert_eq. eexists. split; [reflexivity|discriminate]. }
      rewrite lookup_insert_ne by (intros Heq; by apply Hk1).
      destruct (decide (key = "steps"%string)) as [->|Hk2].
      { rewrite lookup_insert_eq. eexists. split; [reflexivity|discriminate]. }
      rewrite lookup_insert_ne by (intros Heq; by apply Hk2).
      exists x. split; assumption.
    + apply lookup_insert_eq.
    + exact His.
    + rewrite lookup_insert_ne by discriminate. apply lookup_insert_eq.
    + exact Hss.
  - exists d. eexists. split; [reflexivity|]. split; [reflexivity|].
    intros key x Hk1 Hk2 Hx Hnn.
    rewrite lookup_insert_ne by (intros Heq; by apply Hk2).
    rewrite lookup_insert_ne by (intros Heq; by apply Hk1).
    apply Hkeep; assumption.
Qed.

(** X15: what validation guarantees. When [_validate_recipe_data]
    returns, its result is a dictionary in which each of the eight
    default keys has a value other than [None], the ingredients are a
    list of dictionaries with the four string fields and a name that is
    not empty, and the steps are a list of dictionaries with the six
    fields and a timestamp that is [0] or a positive float; every other
    field of the input that was not [None] is still there. *)
Theorem validate_recipe_data_well_formed recipe_data validated :
  _validate_recipe_data recipe_data = Ok validated ->
  well_formed_recipe validated
  /\ exists d d',
       recipe_data = JDict d /\ validated = JDict d'
       /\ forall key x,
            key <> "steps"%string -> key <> "ingredients"%string ->
            d !! key = Some x -> x <> JNull -> d' !! key = Some x.
Proof. apply validate_recipe_data_shape. Qed.

(** The empty recipe is the placeholder with the defaults filled in. *)
Lemma validate_empty_recipe title description raw_text :
  _validate_recipe_data
    (JDict (list_to_map
              [("title", JStr title); ("description", JStr description);
               ("ingredients", JList []); ("steps", JList []);
               ("raw_text", JStr raw_text)]%string))
  = Ok (placeholder_recipe title description raw_text).
Proof. vm_compute. reflexivity. Qed.

Lemma create_empty_recipe_result title description raw_text :
  _create_empty_recipe title description raw_text
  = Ok (placeholder_recipe title description raw_text).
Proof. unfold _create_empty_recipe. apply validate_empty_recipe. Qed.

Lemma placeholder_well_formed title description raw_text :
  well_formed_recipe (placeholder_recipe title description raw_text).
Proof.
  exact (proj1 (validate_recipe_data_shape _ _
                  (validate_empty_recipe title description raw_text))).
Qed.

End RecipeData.

Section RecipeLoop.
Import Py RecipeParser.
Context `{Env}.

Lemma not_retried_exit create user_message attempt :
  (forall e, attempt_once create attempt user_message <> EndOfBody e) ->
  ~ retried create user_message attempt.
Proof. intros Hne [e He]. by apply (Hne e). Qed.

(** The loop over the attempts [a, a+1, ..., a+k-1]: it makes the
    attempts up to some [a+j], all of which but the last ended at the end
    of the loop body, and is left as the last one decides. *)
Lemma retry_loop_range create user_message k : forall a last_error log,
  (0 < k)%nat ->
  exists j,
    (j < k)%nat
    /\ (forall i, (a <= i < a + j)%nat ->
          retried create user_message (Z.of_nat i))
    /\ ((j + 1 < k)%nat ->
        ~ retried create user_message (Z.of_nat (a + j)))
    /\ retry_loop create user_message (Z.of_nat <$> seq a k) last_error log
       = (exit_of (attempt_once create (Z.of_nat (a + j)) user_message),
          log ++ (Z.of_nat <$> seq a (S j))).
Proof.
  induction k as [|k IH]; intros a last_error log Hk; [lia|].
  cbn [seq fmap list_fmap retry_loop].
  destruct (attempt_once create (Z.of_nat a) user_message) as [r|e|e|e] eqn:Hit.
  1,2,4: exists 0%nat; rewrite Nat.add_0_r, Hit; simpl;
    (split; [lia|]); (split; [intros i Hi; lia|]);
    (split; [|reflexivity]); intros _; apply not_retried_exit;
    intros e'; by rewrite Hit.
  destruct k as [|k].
  - exists 0%nat. rewrite Nat.add_0_r, Hit. simpl.
    split; [lia|]. split; [intros i Hi; lia|]. split; [lia|reflexivity].
  - destruct (IH (S a) (Some e) (log ++ [Z.of_nat a]) ltac:(lia))
      as (j & Hj & Hmade & Hlast & Hrun).
    exists (S j). split; [lia|]. split; [|split].
    + intros i Hi. destruct (decide (i = a)) as [->|Hne].
      * by exists e.
      * apply Hmade. lia.
    + intros Hlt. replace (a + S j)%nat with (S a + j)%nat by lia.
      apply Hlast. lia.
    + replace (a + S j)%nat with (S a + j)%nat by lia.
      rewrite Hrun. f_equal. rewrite <- app_assoc. reflexivity.
Qed.

(** However the loop is left, a recipe it returns is one a [try] suite
    returned, an exception it lets through is one a [try] suite raised
    and no [except] clause catches, and it makes at most one attempt per
    element of the range. *)
Lemma retry_loop_exit create user_message attempts : forall last_error log,
  match (retry_loop create user_message attempts last_error log).1 with
  | Returned recipe =>
      exists i, try_suite create i user_message = Ok recipe
  | Propagated e =>
      kind e = NotAnException
      /\ exists i, try_suite create i user_message = Raise e
  | Finished _ => True
  end
  /\ (length (retry_loop create user_message attempts last_error log).2
      <= length log + length attempts)%nat.
Proof.
  induction attempts as [|a attempts IH]; intros last_error log.
  - simpl. split; [done|lia].
  - cbn [retry_loop]. unfold attempt_once.
    destruct (try_suite create a user_message) as [recipe|e] eqn:Hs.
    + simpl. split; [by exists a|]. rewrite length_app. simpl. lia.
    + destruct (kind e) eqn:Hk; simpl;
        try (split; [done|rewrite length_app; simpl; lia]);
        try (destruct (IH (Some e) (log ++ [a])) as [Hexit Hlen];
             split; [exact Hexit|];
             rewrite length_app in Hlen; simpl in Hlen; lia).
      split; [|rewrite length_app; simpl; lia].
      split; [exact Hk|by exists a].
Qed.

End RecipeLoop.

Section ParseRecipe.
Import Py RecipeParser.
Context `{Env}.

(** [parse_recipe] once the text is long enough and the user message is
    built: the loop, then the placeholder when the loop did not return. *)
Lemma parse_recipe_run create transcript_data max_retries full_text
    user_message :
  stripped_full_text transcript_data = Ok full_text ->
  too_short full_text = false ->
  _build_user_message (clipped full_text) (segments_of transcript_data)
  = Ok user_message ->
  parse_recipe create transcript_data max_retries
  = match retry_loop create user_message (range (max_retries + 1))
                     None [] with
    | (Returned recipe, log) => (Ok recipe, log)
    | (Propagated e, log) => (Raise e, log)
    | (Finished last_error, log) =>
        (Ok (placeholder_recipe "레시피 (파싱 실패)"
               (failure_description last_error) (clipped full_text)), log)
    end.
Proof.
  intros Hft Hshort Hmsg. unfold parse_recipe.
  rewrite Hft, Hshort. cbv zeta. rewrite Hmsg.
  destruct (retry_loop create user_message (range (max_retries + 1)) None [])
    as [[recipe|e|last_error] log]; [reflexivity|reflexivity|].
  by rewrite create_empty_recipe_result.
Qed.

(** X16: the retry policy of [parse_recipe]. With [max_retries >= 0], a
    transcript long enough and a user message that is built, the
    attempts made are 0, ..., n for some [n <= max_retries]; each
    attempt before the last ended in an error that is retried (a JSON
    error, a connection error, a [RecipeParseError] or another
    [Exception]); when attempts were left, the last one did not; and
    the outcome is decided by the last attempt: its recipe, its
    exception when no clause catches it, and otherwise the placeholder
    recipe whose description carries the first 100 characters of its
    error. *)
Theorem parse_recipe_policy create transcript_data max_retries full_text
    user_message :
  0 <= max_retries ->
  stripped_full_text transcript_data = Ok full_text ->
  too_short full_text = false ->
  _build_user_message (clipped full_text) (segments_of transcript_data)
  = Ok user_message ->
  exists n,
    0 <= n <= max_retries
    /\ (parse_recipe create transcript_data max_retries).2 = range (n + 1)
    /\ (forall i, 0 <= i < n -> retried create user_message i)
    /\ (n < max_retries -> ~ retried create user_message n)
    /\ (parse_recipe create transcript_data max_retries).1
       = final_result (clipped full_text)
           (attempt_once create n user_message).
Proof.
  intros Hm Hft Hshort Hmsg.
  rewrite (parse_recipe_run _ _ _ _ _ Hft Hshort Hmsg).
  destruct (retry_loop_range create user_message
              (Z.to_nat (max_retries + 1)) 0 None [] ltac:(lia))
    as (j & Hj & Hmade & Hlast & Hrun).
  unfold range. rewrite Hrun. simpl in *.
  exists (Z.of_nat j). split; [lia|]. split; [|split; [|split]].
  - replace (Z.to_nat (Z.of_nat j + 1)) with (S j) by lia.
    by destruct (attempt_once create (Z.of_nat j) user_message).
  - intros i Hi. replace i with (Z.of_nat (Z.to_nat i)) by lia.
    apply Hmade. lia.
  - intros Hlt. apply Hlast. lia.
  - by destruct (attempt_once create (Z.of_nat j) user_message).
Qed.

(** X17: what [parse_recipe] hands back. Once the text of the transcript
    is read and, when it is long enough, the user message is built,
    [parse_recipe] makes at most [max_retries + 1] attempts and returns
    a validated recipe, whatever the model answers; the only exceptions
    it lets through are those of a [try] suite that no [except] clause
    catches, so never a [RecipeParseError] or another [Exception]. *)
Theorem parse_recipe_returns_recipe create transcript_data max_retries
    full_text user_message :
  stripped_full_text transcript_data = Ok full_text ->
  (too_short full_text = false ->
   _build_user_message (clipped full_text) (segments_of transcript_data)
   = Ok user_message) ->
  match (parse_recipe create transcript_data max_retries).1 with
  | Ok recipe => well_formed_recipe recipe
  | Raise e =>
      kind e = NotAnException
      /\ exists i, try_suite create i user_message = Raise e
  end
  /\ (length (parse_recipe create transcript_data max_retries).2
      <= Z.to_nat (max_retries + 1))%nat.
Proof.
  intros Hft Hmsg. destruct (too_short full_text) eqn:Hshort.
  - unfold parse_recipe. rewrite Hft, Hshort, create_empty_recipe_result.
    simpl. split; [apply placeholder_well_formed|lia].
  - rewrite (parse_recipe_run _ _ _ _ _ Hft Hshort (Hmsg eq_refl)).
    destruct (retry_loop_exit create user_message (range (max_retries + 1))
                None []) as [Hexit Hlen].
    unfold range in Hlen at 2. rewrite length_fmap, length_seq in Hlen.
    simpl in Hlen.
    destruct (retry_loop create user_message (range (max_retries + 1))
                None []) as [[recipe|e|last_error] log]; simpl in *.
    + split; [|exact Hlen]. destruct Hexit as [i Hi].
      unfold try_suite in Hi.
      destruct (_call_gpt_api create i user_message) as [data|e]; [|done].
      by apply validate_recipe_data_shape in Hi as [Hw _].
    + by split.
    + split; [apply placeholder_well_formed|exact Hlen].
Qed.

(** X18: a transcript too short for the model. When the stripped text
    is empty or shorter than the configured minimum, [parse_recipe]
    returns the recipe with the default fields and the description that
    the recognised speech is too short, without any attempt, whatever
    [max_retries] is. *)
Theorem parse_recipe_short_transcript create transcript_data max_retries
    full_text :
  stripped_full_text transcript_data = Ok full_text ->
  too_short full_text = true ->
  parse_recipe create transcript_data max_retries
  = (Ok (placeholder_recipe "레시피" "음성 인식 결과가 너무 짧습니다." ""), []).
Proof.
  intros Hft Hshort. unfold parse_recipe.
  by rewrite Hft, Hshort, create_empty_recipe_result.
Qed.

End ParseRecipe.

Section ParseRecipeWitnesses.
Import Py RecipeParser.

Lemma validate_recipe_data_well_formed_witness :
  well_formed_recipe (placeholder_recipe "Stew" "" "")
  /\ exists d d',
       JDict (list_to_map
                [("title", JStr "Stew"); ("description", JStr "");
                 ("ingredients", JList []); ("steps", JList []);
                 ("raw_text", JStr "")]%string) = JDict d
       /\ placeholder_recipe "Stew" "" "" = JDict d'
       /\ forall key x,
            key <> "steps"%string -> key <> "ingredients"%string ->
            d !! key = Some x -> x <> JNull -> d' !! key = Some x.
Proof.
  apply (@validate_recipe_data_well_formed sample_env).
  vm_compute. reflexivity.
Defined.

Lemma parse_recipe_policy_witness :
  exists n,
    0 <= n <= 2
    /\ (@parse_recipe sample_env chatty_model sample_transcript 2).2
       = range (n + 1)
    /\ (forall i, 0 <= i < n ->
          @retried sample_env chatty_model sample_user_message i)
    /\ (n < 2 -> ~ @retried sample_env chatty_model sample_user_message n)
    /\ (@parse_recipe sample_env chatty_model sample_transcript 2).1
       = @final_result sample_env
           (clipped "Chop the onions, then simmer for an hour.")
           (@attempt_once sample_env chatty_model n sample_user_message).
Proof.
  apply (@parse_recipe_policy sample_env chatty_model sample_transcript 2
           "Chop the onions, then simmer for an hour." sample_user_message).
  - lia.
  - reflexivity.
  - vm_compute. reflexivity.
  - vm_compute. reflexivity.
Defined.

Lemma parse_recipe_returns_recipe_witness :
  match (@parse_recipe sample_env limited_model sample_transcript 2).1 with
  | Ok recipe => well_formed_recipe recipe
  | Raise e =>
      kind e = NotAnException
      /\ exists i,
           @try_suite sample_env limited_model i sample_user_message
           = Raise e
  end
  /\ (length (@parse_recipe sample_env limited_model sample_transcript 2).2
      <= Z.to_nat (2 + 1))%nat.
Proof.
  apply (@parse_recipe_returns_recipe sample_env limited_model
           sample_transcript 2 "Chop the onions, then simmer for an hour."
           sample_user_message).
  - reflexivity.
  - intros _. vm_compute. reflexivity.
Defined.

Lemma parse_recipe_short_transcript_witness :
  @parse_recipe sample_env chatty_model short_transcript 2
  = (Ok (placeholder_recipe "레시피" "음성 인식 결과가 너무 짧습니다." ""), []).
Proof.
  apply (@parse_recipe_short_transcript sample_env chatty_model
           short_transcript 2 "Hello.").
  - reflexivity.
  - vm_compute. reflexivity.
Defined.

End ParseRecipeWitnesses.

Section ShortTranscriptWitness.
Import Py Analyze.

Lemma short_transcript_fails_job_witness :
  let message :=
    VStr ("오류 발생: 영상에서 텍스트를 추출할 수 없습니다. "
          ++ "음성이나 자막이 포함된 영상인지 확인해주세요.") in
  (@process_video silent_env "j1" "https://youtu.be/x"
     (world_of one_job)).1 = Ok tt
  /\ get_job_status "j1"
       (job_manager (@process_video silent_env "j1" "https://youtu.be/x"
                       (world_of one_job)).2)
     = Ok (mkJobStatus "j1" (VStr "failed") (VInt 0) message
                       (new_job "j1" "https://youtu.be/x" "x" 0 0
                          !! "video_id"%string))
  /\ get_result "j1"
       (job_manager (@process_video silent_env "j1" "https://youtu.be/x"
                       (world_of one_job)).2)
     = Raise (HTTPError 400 message).
Proof.
  apply (@short_transcript_fails_job silent_env "j1" "https://youtu.be/x"
           (world_of one_job) (new_job "j1" "https://youtu.be/x" "x" 0 0)
           sample_video_info (VStr "/data/j1/audio.mp3") mumble);
    reflexivity.
Defined.

End ShortTranscriptWitness.

(** * Text helpers *)

Section Truncation.
Import Py Utils.

Lemma string_length_app (s1 s2 : string) :
  String.length (s1 ++ s2) = (String.length s1 + String.length s2)%nat.
Proof. induction s1 as [|c s1 IH]; simpl; [done|]. by rewrite IH. Qed.

Lemma string_length_prefix (s : string) : forall n,
  String.length (String.substring 0 n s) = Nat.min n (String.length s).
Proof.
  induction s as [|c s IH]; intros [|n]; simpl; try done.
  by rewrite IH.
Qed.

Lemma slice_to_length (s : string) (k : Z) :
  Z.of_nat (String.length (slice_to s k))
  = if bool_decide (0 <= k) then Z.min k (Z.of_nat (String.length s))
    else Z.max 0 (Z.of_nat (String.length s) + k).
Proof.
  unfold slice_to. case_bool_decide; rewrite string_length_prefix; lia.
Qed.

(** X19: when [truncate_text] keeps its promise. The result has at most
    [max_length] characters exactly when the text already fits or the
    suffix does; in particular a [max_length] smaller than the suffix
    gives, for a text that does not fit, a result longer than
    [max_length]. When the text does not fit and the suffix does, the
    result has exactly [max_length] characters. *)
Theorem truncate_text_bound (text : string) (max_length : Z)
    (suffix : string) :
  (Z.of_nat (String.length (truncate_text text max_length suffix))
   <= max_length
   <-> Z.of_nat (String.length text) <= max_length
       \/ Z.of_nat (String.length suffix) <= max_length)
  /\ (max_length < Z.of_nat (String.length text) ->
      Z.of_nat (String.length suffix) <= max_length ->
      Z.of_nat (String.length (truncate_text text max_length suffix))
      = max_length).
Proof.
  unfold truncate_text. case_bool_decide as Hfit.
  - split; [|lia]. split; [by left|done].
  - rewrite string_length_app, Nat2Z.inj_add, slice_to_length.
    case_bool_decide; split; lia.
Qed.

(** X20: the preview helper goes over its limit. For a limit that is
    not negative, a text longer than the limit is cut to its first
    [max_length] characters followed by three dots, so the result has
    [max_length + 3] characters; a text within the limit is returned as
    it is. *)
Theorem preview_truncation_length (text : string) (max_length : Z) :
  0 <= max_length ->
  if bool_decide (Z.of_nat (String.length text) <= max_length)
  then _truncate_text text max_length = text
  else _truncate_text text max_length
       = (String.substring 0 (Z.to_nat max_length) text ++ "...")%string
       /\ Z.of_nat (String.length (_truncate_text text max_length))
          = max_length + 3.
Proof.
  intros Hm. unfold _truncate_text.
  case_bool_decide as Hfit.
  - by rewrite bool_decide_eq_false_2 by lia.
  - rewrite bool_decide_eq_true_2 by lia.
    unfold slice_to. rewrite bool_decide_eq_true_2 by lia.
    split; [reflexivity|].
    rewrite string_length_app, string_length_prefix. simpl. lia.
Qed.

Lemma preview_truncation_length_witness :
  if bool_decide (Z.of_nat (String.length "simmer for an hour") <= 6)
  then _truncate_text "simmer for an hour" 6 = "simmer for an hour"%string
  else _truncate_text "simmer for an hour" 6
       = (String.substring 0 (Z.to_nat 6) "simmer for an hour" ++ "...")%string
       /\ Z.of_nat (String.length (_truncate_text "simmer for an hour" 6))
          = 6 + 3.
Proof. apply (preview_truncation_length "simmer for an hour" 6). lia. Defined.

End Truncation.

Section IngredientValidation.
Import Py RecipeParser.
Context `{Env}.

Lemma validated_ingredient_fixed v :
  well_formed_ingredient v -> validated_ingredient v = Some v.
Proof.
  intros (name & amount & unit & note & -> & Hname).
  set (d := list_to_map
              [("name", JStr name); ("amount", JStr amount);
               ("unit", JStr unit); ("note", JStr note)]%string
            : gmap string json).
  unfold validated_ingredient, get. cbv zeta.
  assert (Hn : d !! "name"%string = Some (JStr name)) by reflexivity.
  assert (Ha : d !! "amount"%string = Some (JStr amount)) by reflexivity.
  assert (Hu : d !! "unit"%string = Some (JStr unit)) by reflexivity.
  assert (Ho : d !! "note"%string = Some (JStr note)) by reflexivity.
  rewrite Hn, Ha, Hu, Ho. simpl.
  rewrite bool_decide_eq_false_2 by exact Hname. reflexivity.
Qed.

Lemma validated_ingredients_fixed items :
  Forall well_formed_ingredient items ->
  omap validated_ingredient items = items.
Proof.
  induction 1 as [|v items Hv Hitems IH]; [done|].
  change (omap validated_ingredient (v :: items))
    with (match validated_ingredient v with
          | Some y => y :: omap validated_ingredient items
          | None => omap validated_ingredient items
          end).
  by rewrite (validated_ingredient_fixed v Hv), IH.
Qed.

(** X21: validating ingredients twice changes nothing. A list that
    [_validate_ingredients] returned is returned unchanged when it is
    validated again: every ingredient is kept, in order, with the same
    four fields. *)
Theorem validate_ingredients_idempotent ingredients validated :
  _validate_ingredients ingredients = Ok validated ->
  _validate_ingredients validated = Ok validated.
Proof.
  intros Hv.
  apply validate_ingredients_well_formed in Hv as (items & -> & Hitems).
  unfold _validate_ingredients. cbn [iterate mbind result_bind bind].
  by rewrite (validated_ingredients_fixed items Hitems).
Qed.

End IngredientValidation.

Section IngredientValidationWitness.
Import Py RecipeParser.

Lemma validate_ingredients_idempotent_witness :
  @_validate_ingredients sample_env
    (JList [JDict (list_to_map
                     [("name", JStr "onion"); ("amount", JStr "1");
                      ("unit", JStr ""); ("note", JStr "")]%string)])
  = Ok (JList [JDict (list_to_map
                        [("name", JStr "onion"); ("amount", JStr "1");
                         ("unit", JStr ""); ("note", JStr "")]%string)]).
Proof.
  apply (@validate_ingredients_idempotent sample_env
           (JList [JInt 3;
                   JDict (list_to_map
                            [("name", JStr "onion");
                             ("amount", JInt 1)]%string);
                   JDict (list_to_map [("amount", JStr "2")]%string)])).
  vm_compute. reflexivity.
Defined.

End IngredientValidationWitness.
